(** * medi-cabinet: command interpretation and inventory engine

    A shallow embedding of [src/parsers.py], [src/database.py], the
    handlers of [src/commands.py] and the date, listing and escaping
    utilities of [src/utils.py], with the properties the specification
    states about them and further properties read off the code.

    Conventions of the embedding.
    - A Python [str] is a [string]; the development covers text made of
      ASCII code points, which is what the character tables below classify
      (a byte above 127 is neither space, digit, letter nor word character
      and is left alone by [lower]). Python classifies and changes the case
      of code points beyond ASCII as well, so a property that rests on these
      tables for an arbitrary text carries the hypothesis [ascii_text].
    - A Python [int] is a [Z]. A quantity is any integer: binding one outside
      the range of SQLite's 64-bit [INTEGER] raises [OverflowError] before
      the statement runs, and the repositories and handlers below do so.
      Identifiers (row ids, the user and chat ids of Telegram), thresholds
      and limits are taken within that range, and a number in a message has
      fewer digits than the interpreter's limit for [int] of a string.
    - A query with [ORDER BY] or [GROUP BY] returns rows with equal keys in
      the order of the lists below; SQLite fixes no order among them.
    - An exception is a value of [exn]; code that can raise returns a
      [result].
    - Library calls are parameters: [dateutil.parser.parse] of the parsers
      and [fuzz.ratio] of the fuzzy search. The clocks are parameters too:
      [now] is [CURRENT_TIMESTAMP] in a write and [datetime.now()] in
      [get_stats] and in the utilities.
    - A handler is modelled by its effect on the store and by the branch
      whose reply it sends; the text of the replies and the Telegram calls
      are left out.
    - The SQLite tables are lists of rows in rowid order. A query that
      fetches one row is read off that list; the schema's constraints leave
      it one row at most. The query of [find_by_name_fuzzy], which fetches
      many rows and has no [ORDER BY], takes the order of its rows as a
      parameter.
    - Each [await] on the database is one atomic statement; the module
      [Interleaving] runs two calls of [update_quantity] statement by
      statement. *)

From Stdlib Require Import ZArith NArith List Bool Ascii String Lia.
From Stdlib Require Import Permutation Sorted QArith DecimalString.
Import ListNotations.

Local Open Scope string_scope.
Local Open Scope Z_scope.

(** ** Exceptions *)

Inductive exn : Type :=
| IndexError
| ValueError
| TypeError
| AttributeError
| IntegrityError
| OverflowError
| DatabaseError (msg : string)
| InsufficientStockError (available requested : Z).

Inductive result (A : Type) : Type :=
| Ok (a : A)
| Raise (e : exn).

Arguments Ok {A} a.
Arguments Raise {A} e.

Definition bind {A B : Type} (m : result A) (f : A -> result B) : result B :=
  match m with
  | Ok a => f a
  | Raise e => Raise e
  end.

Notation "x <- m ;; k" := (bind m (fun x => k))
  (at level 61, m at next level, right associativity).

(** ** Python strings *)

Module PyStr.

Definition code (c : ascii) : N := N_of_ascii c.

Definition between (lo hi : N) (c : ascii) : bool :=
  ((lo <=? code c) && (code c <=? hi))%N.

Definition is_upper (c : ascii) : bool := between 65 90 c.
Definition is_lower (c : ascii) : bool := between 97 122 c.
Definition is_alpha (c : ascii) : bool := is_upper c || is_lower c.
Definition is_digit (c : ascii) : bool := between 48 57 c.

(** [str.isspace] on one ASCII character: TAB, LF, VT, FF, CR, the four
    separators FS, GS, RS, US, and the space. *)
Definition is_space (c : ascii) : bool :=
  between 9 13 c || between 28 31 c || (code c =? 32)%N.

(** The class [\w]. *)
Definition is_word (c : ascii) : bool :=
  is_alpha c || is_digit c || (code c =? 95)%N.

Definition lower_char (c : ascii) : ascii :=
  if is_upper c then ascii_of_N (code c + 32) else c.

Definition upper_char (c : ascii) : ascii :=
  if is_lower c then ascii_of_N (code c - 32) else c.

(** [s.lower()] *)
Fixpoint lower (s : string) : string :=
  match s with
  | EmptyString => EmptyString
  | String c s' => String (lower_char c) (lower s')
  end.

Fixpoint lstrip (s : string) : string :=
  match s with
  | EmptyString => EmptyString
  | String c s' => if is_space c then lstrip s' else s
  end.

Fixpoint rstrip (s : string) : string :=
  match s with
  | EmptyString => EmptyString
  | String c s' =>
      match rstrip s' with
      | EmptyString => if is_space c then EmptyString else String c EmptyString
      | r => String c r
      end
  end.

(** [s.strip()] *)
Definition strip (s : string) : string := lstrip (rstrip s).

(** [s.title()]: a cased character is upper-cased when the one before it is
    not cased, and lower-cased otherwise. *)
Fixpoint title_from (prev_cased : bool) (s : string) : string :=
  match s with
  | EmptyString => EmptyString
  | String c s' =>
      if is_alpha c
      then String (if prev_cased then lower_char c else upper_char c)
                  (title_from true s')
      else String c (title_from false s')
  end.

Definition title (s : string) : string := title_from false s.

(** [s.startswith(p)] *)
Definition startswith (s p : string) : bool := prefix p s.

(** [sub in s] *)
Fixpoint contains (sub s : string) : bool :=
  prefix sub s ||
  match s with
  | EmptyString => false
  | String _ s' => contains sub s'
  end.

Fixpoint all_digits (s : string) : bool :=
  match s with
  | EmptyString => true
  | String c s' => is_digit c && all_digits s'
  end.

(** [s.isdigit()] *)
Definition isdigit (s : string) : bool :=
  match s with
  | EmptyString => false
  | _ => all_digits s
  end.

Definition digit_value (c : ascii) : Z := Z.of_N (code c) - 48.

(** The digits of an [int] literal: decimal digits, where one underscore may
    stand between two digits. *)
Fixpoint digits_value (acc : Z) (after_digit : bool) (s : string) : option Z :=
  match s with
  | EmptyString => if after_digit then Some acc else None
  | String c s' =>
      if is_digit c then digits_value (10 * acc + digit_value c) true s'
      else if (code c =? 95)%N && after_digit then digits_value acc false s'
      else None
  end.

(** [int(s)] on a string: surrounding whitespace is dropped and one sign is
    accepted; anything else raises [ValueError]. *)
Definition int_of_str (s : string) : result Z :=
  let body (t : string) := digits_value 0 false t in
  let r :=
    match strip s with
    | String "+" t => body t
    | String "-" t => option_map Z.opp (body t)
    | t => body t
    end in
  match r with
  | Some n => Ok n
  | None => Raise ValueError
  end.

(** [int(x)] where [x] may be [None]. *)
Definition int_of (x : option string) : result Z :=
  match x with
  | Some s => int_of_str s
  | None => Raise TypeError
  end.

(** [str(n)] *)
Definition str_of_int (n : Z) : string := NilZero.string_of_int (Z.to_int n).

(** Zero-padded decimal rendering, as [%0wd] does for a non-negative value. *)
Definition digit_char (d : Z) : ascii := ascii_of_N (Z.to_N (48 + d mod 10)).

Fixpoint pad_dec (w : nat) (n : Z) : string :=
  match w with
  | O => EmptyString
  | S w' => pad_dec w' (n / 10) ++ String (digit_char n) EmptyString
  end.

End PyStr.

(** ** Regular expressions

    The fragment of Python's [re] syntax that the patterns of
    [src/parsers.py] use, with the matching order of its backtracking
    engine: alternatives left to right, greedy repetition longest first, an
    optional part present first, and [re.search] trying start positions from
    the left. Repetition is applied to single-character classes only, as in
    every pattern of the source. *)

Module Re.

Import PyStr.

Inductive cls : Type :=
| CWord                       (* \w *)
| CDigit                      (* \d *)
| CSpace                      (* \s *)
| CRange (lo hi : ascii)      (* a-z inside brackets *)
| COneOf (chars : string)     (* literal members of a bracket *)
| CUnion (a b : cls).

Inductive regex : Type :=
| Eps
| Bol                                       (* ^ *)
| Lit (s : string)
| Rep (c : cls) (lo : nat) (hi : option nat) (* c{lo,hi}, greedy *)
| Seq (a b : regex)
| Alt (a b : regex)
| Opt (a : regex)                           (* (?:a)? *)
| Grp (i : nat) (a : regex).                (* i-th capturing group, from 0 *)

Definition One (c : cls) : regex := Rep c 1 (Some 1%nat).
Definition Plus (c : cls) : regex := Rep c 1 None.
Definition Star (c : cls) : regex := Rep c 0 None.
Definition Maybe (c : cls) : regex := Rep c 0 (Some 1%nat).
Definition Exactly (n : nat) (c : cls) : regex := Rep c n (Some n).

Fixpoint mem_char (c : ascii) (s : string) : bool :=
  match s with
  | EmptyString => false
  | String d s' => Ascii.eqb c d || mem_char c s'
  end.

Fixpoint in_cls (k : cls) (c : ascii) : bool :=
  match k with
  | CWord => is_word c
  | CDigit => is_digit c
  | CSpace => is_space c
  | CRange lo hi => between (code lo) (code hi) c
  | COneOf chars => mem_char c chars
  | CUnion a b => in_cls a c || in_cls b c
  end.

(** Membership under [re.IGNORECASE]: the character or its other case. *)
Definition cls_match (k : cls) (c : ascii) : bool :=
  in_cls k c || in_cls k (lower_char c) || in_cls k (upper_char c).

(** A literal under [re.IGNORECASE]; gives the rest of the input. *)
Fixpoint lit_match (p s : string) : option string :=
  match p, s with
  | EmptyString, _ => Some s
  | String a p', String b s' =>
      if Ascii.eqb (lower_char a) (lower_char b) then lit_match p' s' else None
  | String _ _, EmptyString => None
  end.

Definition captures : Type := list (option string).

Fixpoint set_nth (i : nat) (v : option string) (l : captures) : captures :=
  match l, i with
  | [], _ => []
  | _ :: l', O => v :: l'
  | x :: l', S i' => x :: set_nth i' v l'
  end.

(** The text consumed between input [s] and its suffix [s']. *)
Definition consumed (s s' : string) : string :=
  substring 0 (String.length s - String.length s') s.

Section Match.

Context {A : Type}.

(** A continuation receives: whether the position is still the start of the
    text, the remaining input, and the groups captured so far. *)
Definition cont : Type := bool -> string -> captures -> option A.

Fixpoint rep (c : cls) (lo : nat) (hi : option nat)
    (bol : bool) (s : string) (caps : captures) (k : cont) : option A :=
  let stop := if Nat.eqb lo 0 then k bol s caps else None in
  match s with
  | EmptyString => stop
  | String x s' =>
      let room := match hi with Some O => false | _ => true end in
      if cls_match c x && room
      then match rep c (Nat.pred lo) (option_map Nat.pred hi) false s' caps k with
           | Some r => Some r
           | None => stop
           end
      else stop
  end.

Fixpoint run (r : regex) (bol : bool) (s : string) (caps : captures)
    (k : cont) : option A :=
  match r with
  | Eps => k bol s caps
  | Bol => if bol then k bol s caps else None
  | Lit p =>
      match lit_match p s with
      | Some s' => k (bol && String.eqb p EmptyString) s' caps
      | None => None
      end
  | Rep c lo hi => rep c lo hi bol s caps k
  | Seq a b => run a bol s caps (fun bol' s' caps' => run b bol' s' caps' k)
  | Alt a b =>
      match run a bol s caps k with
      | Some x => Some x
      | None => run b bol s caps k
      end
  | Opt a =>
      match run a bol s caps k with
      | Some x => Some x
      | None => k bol s caps
      end
  | Grp i a =>
      run a bol s caps
        (fun bol' s' caps' => k bol' s' (set_nth i (Some (consumed s s')) caps'))
  end.

End Match.

Fixpoint ngroups (r : regex) : nat :=
  match r with
  | Eps | Bol | Lit _ | Rep _ _ _ => 0
  | Seq a b | Alt a b => Nat.max (ngroups a) (ngroups b)
  | Opt a => ngroups a
  | Grp i a => Nat.max (S i) (ngroups a)
  end.

Definition no_groups (r : regex) : captures := repeat None (ngroups r).

(** [re.match(r, s)]: the groups of a match that starts at the first
    character, [None] when there is none. *)
Definition re_match (r : regex) (s : string) : option captures :=
  run r true s (no_groups r) (fun _ _ caps => Some caps).

Fixpoint search_from (r : regex) (bol : bool) (s : string) : option captures :=
  match run r bol s (no_groups r) (fun _ _ caps => Some caps) with
  | Some caps => Some caps
  | None =>
      match s with
      | EmptyString => None
      | String _ s' => search_from r false s'
      end
  end.

(** [re.search(r, s, re.IGNORECASE)]: the groups of the leftmost match. *)
Definition re_search (r : regex) (s : string) : option captures :=
  search_from r true s.

(** [m.groups()[i]], raising [IndexError] past the last group. *)
Definition group_at (g : captures) (i : nat) : result (option string) :=
  match nth_error g i with
  | Some v => Ok v
  | None => Raise IndexError
  end.

End Re.

(** ** Dates and times *)

(** A naive [datetime.datetime]. *)
Record datetime : Type := mk_datetime {
  year : Z;
  month : Z;
  day : Z;
  hour : Z;
  minute : Z;
  second : Z;
  microsecond : Z
}.

Module DateTime.

Import PyStr.

(** Days since 1970-01-01 of a date of the proleptic Gregorian calendar. *)
Definition days_from_civil (y m d : Z) : Z :=
  let y' := if m <=? 2 then y - 1 else y in
  let era := y' / 400 in
  let yoe := y' - era * 400 in
  let doy := (153 * (if 2 <? m then m - 3 else m + 9) + 2) / 5 + d - 1 in
  let doe := yoe * 365 + yoe / 4 - yoe / 100 + doy in
  era * 146097 + doe - 719468.

(** The date that lies [z] days after 1970-01-01. *)
Definition civil_from_days (z : Z) : Z * Z * Z :=
  let z' := z + 719468 in
  let era := z' / 146097 in
  let doe := z' - era * 146097 in
  let yoe := (doe - doe / 1460 + doe / 36524 - doe / 146096) / 365 in
  let doy := doe - (365 * yoe + yoe / 4 - yoe / 100) in
  let mp := (5 * doy + 2) / 153 in
  let d := doy - (153 * mp + 2) / 5 + 1 in
  let m := if mp <? 10 then mp + 3 else mp - 9 in
  (yoe + era * 400 + (if m <=? 2 then 1 else 0), m, d).

(** [t - timedelta(days=n)]: the time of day stays, the date moves; [None]
    is the [OverflowError] of a result outside the years 1 to 9999. *)
Definition minus_days (t : datetime) (n : Z) : option datetime :=
  let '(y, m, d) :=
    civil_from_days (days_from_civil (year t) (month t) (day t) - n) in
  if (1 <=? y) && (y <=? 9999) && (Z.abs n <=? 999999999)
  then Some (mk_datetime y m d (hour t) (minute t) (second t) (microsecond t))
  else None.

Definition date_text (t : datetime) : string :=
  pad_dec 4 (year t) ++ "-" ++ pad_dec 2 (month t) ++ "-" ++ pad_dec 2 (day t).

Definition time_text (t : datetime) : string :=
  pad_dec 2 (hour t) ++ ":" ++ pad_dec 2 (minute t) ++ ":"
  ++ pad_dec 2 (second t).

(** [t.isoformat()]: a [T] between date and time, and the microseconds only
    when they are not zero. *)
Definition isoformat (t : datetime) : string :=
  date_text t ++ "T" ++ time_text t
  ++ (if microsecond t =? 0 then "" else "." ++ pad_dec 6 (microsecond t)).

(** The text SQLite stores for [CURRENT_TIMESTAMP]: date, a space, time. *)
Definition sqlite_timestamp (t : datetime) : string :=
  date_text t ++ " " ++ time_text t.

(** Order of two moments, field by field. *)
Definition as_tuple (t : datetime) : list Z :=
  [year t; month t; day t; hour t; minute t; second t; microsecond t].

Fixpoint lex_leb (a b : list Z) : bool :=
  match a, b with
  | x :: a', y :: b' => (x <? y) || ((x =? y) && lex_leb a' b')
  | [], _ => true
  | _ :: _, [] => false
  end.

Definition leb (a b : datetime) : bool := lex_leb (as_tuple a) (as_tuple b).

(** The text that the [sqlite3] adapter stores for a [datetime] parameter,
    [val.isoformat(" ")]. *)
Definition adapt_datetime (t : datetime) : string :=
  date_text t ++ " " ++ time_text t
  ++ (if microsecond t =? 0 then "" else "." ++ pad_dec 6 (microsecond t)).

(** The ranges of the fields of a [datetime]. *)
Definition valid (t : datetime) : Prop :=
  1 <= year t <= 9999 /\ 1 <= month t <= 12 /\ 1 <= day t <= 31
  /\ 0 <= hour t <= 23 /\ 0 <= minute t <= 59 /\ 0 <= second t <= 59
  /\ 0 <= microsecond t <= 999999.

(** The calendar date, as a triple ordered field by field. *)
Definition date_leb (a b : datetime) : bool :=
  lex_leb [year a; month a; day a] [year b; month b; day b].

Definition same_date (a b : datetime) : bool :=
  (year a =? year b) && (month a =? month b) && (day a =? day b).

(** Microseconds since 1970-01-01. *)
Definition to_microseconds (t : datetime) : Z :=
  (((days_from_civil (year t) (month t) (day t) * 24 + hour t) * 60
    + minute t) * 60 + second t) * 1000000 + microsecond t.

(** [(a - b).days]: a [timedelta] keeps whole days rounded down. *)
Definition delta_days (a b : datetime) : Z :=
  (to_microseconds a - to_microseconds b) / 86400000000.

End DateTime.

(** ** src/parsers.py *)

Module Parsers.

Import PyStr Re.

Declare Scope re_scope.
Delimit Scope re_scope with re.
Infix "++" := Seq (right associativity, at level 60) : re_scope.
Infix "||" := Alt (left associativity, at level 50) : re_scope.

(** The literals ["add"], ["use"], ["search"], ["list"], ["unknown"]. *)
Inductive CommandType : Type := Add | Use | Search | List | Unknown.

Record ParsedCommand : Type := mk_parsed {
  command_type : CommandType;
  medicine_name : option string;
  quantity : option Z;
  unit : string;
  expiry_date : option datetime;
  location : option string;
  confidence : Q;
  raw_text : string
}.

(** The dataclass defaults: every field but [command_type]. *)
Definition ParsedCommand_default (t : CommandType) : ParsedCommand :=
  mk_parsed t None None "tablets" None None 1%Q "".

Definition set_raw_text (text : string) (c : ParsedCommand) : ParsedCommand :=
  mk_parsed (command_type c) (medicine_name c) (quantity c) (unit c)
    (expiry_date c) (location c) (confidence c) text.

(** [any(keyword in text for keyword in keywords)] *)
Definition any_in (keywords : list string) (text : string) : bool :=
  existsb (fun keyword => contains keyword text) keywords.

(** [x] in a boolean position, for an optional string. *)
Definition truthy (x : option string) : bool :=
  match x with
  | Some (String _ _) => true
  | _ => false
  end.

(** [x.strip().title()], which needs [x] to be a string. *)
Definition strip_title (x : option string) : result string :=
  match x with
  | Some s => Ok (title (strip s))
  | None => Raise AttributeError
  end.

(** [s[0].isdigit()] *)
Definition first_isdigit (s : string) : result bool :=
  match s with
  | String c _ => Ok (is_digit c)
  | EmptyString => Raise IndexError
  end.

(** [\w+(?:\s+\w+)?], the one- or two-word name of every pattern. *)
Definition name_re : regex :=
  (Plus CWord ++ Opt (Plus CSpace ++ Plus CWord))%re.

(** [(?:bought|got|purchase[d]?|add(?:ed)?)] *)
Definition add_verb : regex :=
  (Lit "bought" || Lit "got" || (Lit "purchase" ++ Maybe (COneOf "d"))
   || (Lit "add" ++ Opt (Lit "ed")))%re.

(** [(?:used|took|consume[d]?)] *)
Definition use_verb : regex :=
  (Lit "used" || Lit "took" || (Lit "consume" ++ Maybe (COneOf "d")))%re.

Module AddCommandParser.

Definition PATTERNS : list regex := [
  (* ^\+\s*(\w+(?:\s+\w+)?)\s+(\d+) *)
  (Bol ++ Lit "+" ++ Star CSpace ++ Grp 0 name_re ++ Plus CSpace
   ++ Grp 1 (Plus CDigit))%re;
  (* (?:bought|got|purchase[d]?|add(?:ed)?)\s+(\w+(?:\s+\w+)?)[,]?\s*(\d+)(?:\s+(\w+))? *)
  (add_verb ++ Plus CSpace ++ Grp 0 name_re ++ Maybe (COneOf ",")
   ++ Star CSpace ++ Grp 1 (Plus CDigit)
   ++ Opt (Plus CSpace ++ Grp 2 (Plus CWord)))%re;
  (* ^(\d+)\s+(\w+(?:\s+\w+)?) *)
  (Bol ++ Grp 0 (Plus CDigit) ++ Plus CSpace ++ Grp 1 name_re)%re;
  (* (?:bought|got|purchase[d]?|add(?:ed)?)\s+(\w+(?:\s+\w+)?) *)
  (add_verb ++ Plus CSpace ++ Grp 0 name_re)%re
].

(** [^\d+\s+\w+], the third alternative of the gate. *)
Definition quantity_first_gate : regex :=
  (Bol ++ Plus CDigit ++ Plus CSpace ++ Plus CWord)%re.

Definition in_list (x : string) (l : list string) : bool :=
  existsb (String.eqb x) l.

Definition _normalize_unit (unit : string) : string :=
  let unit_lower := strip (lower unit) in
  if in_list unit_lower ["tablet"; "tablets"; "tab"; "tabs"] then "tablets"
  else if in_list unit_lower ["capsule"; "capsules"; "cap"; "caps"] then "capsules"
  else if in_list unit_lower ["ml"; "milliliter"; "milliliters"] then "ml"
  else if in_list unit_lower ["mg"; "milligram"; "milligrams"] then "mg"
  else if in_list unit_lower ["strip"; "strips"] then "strips"
  else if in_list unit_lower ["bottle"; "bottles"] then "bottles"
  else if in_list unit_lower ["piece"; "pieces"; "pcs"; "pc"] then "pieces"
  else "tablets".

Definition letters : cls := CUnion (CRange "A" "Z") (CRange "a" "z").
Definition colon_or_space : cls := CUnion (COneOf ":") CSpace.

Definition expiry_patterns : list regex := [
  (* expire[sd]?\s+([A-Za-z]+\s+\d{4}) *)
  (Lit "expire" ++ Maybe (COneOf "sd") ++ Plus CSpace
   ++ Grp 0 (Plus letters ++ Plus CSpace ++ Exactly 4 CDigit))%re;
  (* expiry[:\s]+([A-Za-z]+\s+\d{4}) *)
  (Lit "expiry" ++ Plus colon_or_space
   ++ Grp 0 (Plus letters ++ Plus CSpace ++ Exactly 4 CDigit))%re;
  (* exp[:\s]+(\d{1,2}[/-]\d{4}) *)
  (Lit "exp" ++ Plus colon_or_space
   ++ Grp 0 (Rep CDigit 1 (Some 2%nat) ++ One (COneOf "/-") ++ Exactly 4 CDigit))%re;
  (* (\d{4}-\d{2}) *)
  Grp 0 (Exactly 4 CDigit ++ Lit "-" ++ Exactly 2 CDigit)%re
].

Definition location_patterns : list regex := [
  (* (?:in|at|location[:\s]+)\s+([a-z\s]+(?:drawer|cabinet|room|shelf|box)) *)
  ((Lit "in" || Lit "at" || (Lit "location" ++ Plus colon_or_space))
   ++ Plus CSpace
   ++ Grp 0 (Plus (CUnion (CRange "a" "z") CSpace)
             ++ (Lit "drawer" || Lit "cabinet" || Lit "room" || Lit "shelf"
                 || Lit "box")))%re
].

Section WithDateParser.

(** [dateutil.parser.parse(date_str, fuzzy=True)] is a library call: [None]
    stands for its [ValueError] / [ParserError]. *)
Variable date_parser_parse : string -> option datetime.

Fixpoint expiry_loop (patterns : list regex) (text : string)
    : result (option datetime) :=
  match patterns with
  | [] => Ok None
  | pattern :: rest =>
      match re_search pattern text with
      | Some m =>
          g <- group_at m 0 ;;
          match g with
          | Some date_str =>
              match date_parser_parse date_str with
              | Some parsed_date => Ok (Some parsed_date)
              | None => expiry_loop rest text
              end
          | None => Raise TypeError
          end
      | None => expiry_loop rest text
      end
  end.

Definition _extract_expiry_date (text : string) : result (option datetime) :=
  expiry_loop expiry_patterns text.

Fixpoint location_loop (patterns : list regex) (text : string)
    : result (option string) :=
  match patterns with
  | [] => Ok None
  | pattern :: rest =>
      match re_search pattern text with
      | Some m =>
          g <- group_at m 0 ;;
          s <- strip_title g ;;
          Ok (Some s)
      | None => location_loop rest text
      end
  end.

Definition _extract_location (text : string) : result (option string) :=
  location_loop location_patterns text.

(** The branch on the shape of the text that picks name, quantity and unit
    out of the groups of the pattern that matched. *)
Definition extract (text_lower : string) (groups : captures)
    : result (option string * option Z * string) :=
  if startswith text_lower "+" then
    medicine_name <- group_at groups 0 ;;
    g1 <- group_at groups 1 ;;
    quantity <- int_of g1 ;;
    Ok (medicine_name, Some quantity, "tablets")
  else
    d <- first_isdigit text_lower ;;
    if d then
      g0 <- group_at groups 0 ;;
      quantity <- int_of g0 ;;
      medicine_name <- group_at groups 1 ;;
      Ok (medicine_name, Some quantity, "tablets")
    else if (2 <=? List.length groups)%nat && truthy (nth 1 groups None) then
      medicine_name <- group_at groups 0 ;;
      quantity <-
        match int_of (nth 1 groups None) with
        | Ok n => Ok (Some n)
        | Raise ValueError | Raise IndexError => Ok None
        | Raise e => Raise e
        end ;;
      let unit :=
        if (2 <? List.length groups)%nat && truthy (nth 2 groups None)
        then match nth 2 groups None with Some u => u | None => "tablets" end
        else "tablets" in
      Ok (medicine_name, quantity, unit)
    else
      medicine_name <- group_at groups 0 ;;
      Ok (medicine_name, None, "tablets").

Fixpoint pattern_loop (patterns : list regex) (text text_lower : string)
    : result (option ParsedCommand) :=
  match patterns with
  | [] => Ok None
  | pattern :: rest =>
      match re_search pattern text_lower with
      | Some groups =>
          f <- extract text_lower groups ;;
          let '(medicine_name, quantity, unit) := f in
          let unit := _normalize_unit unit in
          expiry_date <- _extract_expiry_date text ;;
          location <- _extract_location text ;;
          name <- strip_title medicine_name ;;
          Ok (Some (mk_parsed Add (Some name) quantity unit expiry_date
                      location 1%Q ""))
      | None => pattern_loop rest text text_lower
      end
  end.

Definition gate (text_lower : string) : bool :=
  startswith text_lower "+"
  || any_in ["bought"; "got"; "purchase"; "add"] text_lower
  || match re_match quantity_first_gate text_lower with
     | Some _ => true
     | None => false
     end.

Definition parse (text : string) : result (option ParsedCommand) :=
  let text_lower := strip (lower text) in
  if negb (gate text_lower) then Ok None
  else pattern_loop PATTERNS text text_lower.

End WithDateParser.

End AddCommandParser.

Module UseCommandParser.

Definition PATTERNS : list regex := [
  (* ^-\s*(\w+(?:\s+\w+)?)\s+(\d+) *)
  (Bol ++ Lit "-" ++ Star CSpace ++ Grp 0 name_re ++ Plus CSpace
   ++ Grp 1 (Plus CDigit))%re;
  (* (?:used|took|consume[d]?)\s+(\d+)\s+(\w+(?:\s+\w+)?) *)
  (use_verb ++ Plus CSpace ++ Grp 0 (Plus CDigit) ++ Plus CSpace
   ++ Grp 1 name_re)%re;
  (* (?:used|took|consume[d]?)\s+(\w+(?:\s+\w+)?)[,]?\s*(\d+) *)
  (use_verb ++ Plus CSpace ++ Grp 0 name_re ++ Maybe (COneOf ",")
   ++ Star CSpace ++ Grp 1 (Plus CDigit))%re;
  (* (?:used|took|consume[d]?)\s+(?:some\s+)?(\w+(?:\s+\w+)?) *)
  (use_verb ++ Plus CSpace ++ Opt (Lit "some" ++ Plus CSpace)
   ++ Grp 0 name_re)%re
].

(** [groups[0].isdigit()], which needs a first group that is a string. *)
Definition first_group_isdigit (groups : captures) : result bool :=
  g0 <- group_at groups 0 ;;
  match g0 with
  | Some s => Ok (isdigit s)
  | None => Raise AttributeError
  end.

Definition extract (text_lower : string) (groups : captures)
    : result (option string * Z) :=
  if startswith text_lower "-" then
    medicine_name <- group_at groups 0 ;;
    g1 <- group_at groups 1 ;;
    quantity <- int_of g1 ;;
    Ok (medicine_name, quantity)
  else
    d <- first_group_isdigit groups ;;
    if d then
      g0 <- group_at groups 0 ;;
      quantity <- int_of g0 ;;
      medicine_name <- group_at groups 1 ;;
      Ok (medicine_name, quantity)
    else if (2 <=? List.length groups)%nat && truthy (nth 1 groups None) then
      medicine_name <- group_at groups 0 ;;
      quantity <-
        match int_of (nth 1 groups None) with
        | Ok n => Ok n
        | Raise ValueError | Raise IndexError => Ok 1
        | Raise e => Raise e
        end ;;
      Ok (medicine_name, quantity)
    else
      medicine_name <- group_at groups 0 ;;
      Ok (medicine_name, 1).

Fixpoint pattern_loop (patterns : list regex) (text_lower : string)
    : result (option ParsedCommand) :=
  match patterns with
  | [] => Ok None
  | pattern :: rest =>
      match re_search pattern text_lower with
      | Some groups =>
          f <- extract text_lower groups ;;
          let '(medicine_name, quantity) := f in
          name <- strip_title medicine_name ;;
          Ok (Some (mk_parsed Use (Some name) (Some quantity) "tablets" None
                      None 1%Q ""))
      | None => pattern_loop rest text_lower
      end
  end.

Definition gate (text_lower : string) : bool :=
  startswith text_lower "-" || any_in ["used"; "took"; "consume"] text_lower.

Definition parse (text : string) : result (option ParsedCommand) :=
  let text_lower := strip (lower text) in
  if negb (gate text_lower) then Ok None
  else pattern_loop PATTERNS text_lower.

End UseCommandParser.

Module SearchCommandParser.

Definition PATTERNS : list regex := [
  (* ^\?\s*(\w+(?:\s+\w+)?) *)
  (Bol ++ Lit "?" ++ Star CSpace ++ Grp 0 name_re)%re;
  (* do\s+we\s+have\s+(\w+(?:\s+\w+)?) *)
  (Lit "do" ++ Plus CSpace ++ Lit "we" ++ Plus CSpace ++ Lit "have"
   ++ Plus CSpace ++ Grp 0 name_re)%re;
  (* (?:check|search|find|show)\s+(\w+(?:\s+\w+)?) *)
  ((Lit "check" || Lit "search" || Lit "find" || Lit "show") ++ Plus CSpace
   ++ Grp 0 name_re)%re;
  (* have\s+(?:we\s+)?(?:got\s+)?(\w+(?:\s+\w+)?) *)
  (Lit "have" ++ Plus CSpace ++ Opt (Lit "we" ++ Plus CSpace)
   ++ Opt (Lit "got" ++ Plus CSpace) ++ Grp 0 name_re)%re
].

Fixpoint pattern_loop (patterns : list regex) (text_lower : string)
    : result (option ParsedCommand) :=
  match patterns with
  | [] => Ok None
  | pattern :: rest =>
      match re_search pattern text_lower with
      | Some m =>
          medicine_name <- group_at m 0 ;;
          name <- strip_title medicine_name ;;
          Ok (Some (mk_parsed Search (Some name) None "tablets" None None
                      1%Q ""))
      | None => pattern_loop rest text_lower
      end
  end.

Definition gate (text_lower : string) : bool :=
  startswith text_lower "?"
  || any_in ["have"; "check"; "search"; "find"; "show"] text_lower.

Definition parse (text : string) : result (option ParsedCommand) :=
  let text_lower := strip (lower text) in
  if negb (gate text_lower) then Ok None
  else pattern_loop PATTERNS text_lower.

End SearchCommandParser.

Module ListCommandParser.

Definition LIST_KEYWORDS : list string := [
  "?all"; "list"; "show all"; "show everything"; "list all";
  "list medicines"; "show medicines"; "what do we have"; "inventory"
].

Fixpoint keyword_loop (keywords : list string) (text_lower : string)
    : option ParsedCommand :=
  match keywords with
  | [] => None
  | keyword :: rest =>
      if String.eqb text_lower keyword || startswith text_lower keyword
      then Some (ParsedCommand_default List)
      else keyword_loop rest text_lower
  end.

Definition parse (text : string) : option ParsedCommand :=
  let text_lower := strip (lower text) in
  keyword_loop LIST_KEYWORDS text_lower.

End ListCommandParser.

Module CommandParser.

Section WithDateParser.

Variable date_parser_parse : string -> option datetime.

(** The dispatcher. A sub-parser that raises ends the call with that
    exception: [parse] has no handler. *)
Definition parse (text : string) : result ParsedCommand :=
  let text := strip text in
  match ListCommandParser.parse text with
  | Some result => Ok (set_raw_text text result)
  | None =>
      a <- AddCommandParser.parse date_parser_parse text ;;
      match a with
      | Some result => Ok (set_raw_text text result)
      | None =>
          u <- UseCommandParser.parse text ;;
          match u with
          | Some result => Ok (set_raw_text text result)
          | None =>
              s <- SearchCommandParser.parse text ;;
              match s with
              | Some result => Ok (set_raw_text text result)
              | None => Ok (mk_parsed Unknown None None "tablets" None None
                              0%Q text)
              end
          end
      end
  end.

End WithDateParser.

End CommandParser.

End Parsers.

(** ** src/database.py *)

Module Medicine.

Record t : Type := mk {
  id : Z;
  name : string;
  quantity : Z;
  unit : string;
  expiry_date : option datetime;
  location : option string;
  added_by_user_id : Z;
  added_by_username : string;
  added_date : datetime;
  group_chat_id : Z;
  last_updated : datetime
}.

End Medicine.

Module Activity.

Record t : Type := mk {
  id : Z;
  medicine_id : Z;
  action : string;
  quantity_change : option Z;
  user_id : Z;
  username : string;
  timestamp : datetime;
  group_chat_id : Z
}.

End Activity.

Module MedicineData.

Record t : Type := mk {
  name : string;
  quantity : Z;
  unit : string;
  expiry_date : option datetime;
  location : option string;
  added_by_user_id : Z;
  added_by_username : string;
  group_chat_id : Z
}.

End MedicineData.

(** The two tables of the schema with their [AUTOINCREMENT] counters. Rows
    are kept as the entities that [_row_to_medicine] and [_row_to_activity]
    read back from them. *)
Record Db : Type := mk_db {
  medicines : list Medicine.t;
  medicines_seq : Z;
  activity_log : list Activity.t;
  activity_log_seq : Z
}.

Definition empty_db : Db := mk_db [] 0 [] 0.

Module Sql.

Import PyStr.

(** [a = b] under [COLLATE NOCASE], and [LOWER(a) = LOWER(b)]. *)
Definition nocase_eqb (a b : string) : bool := String.eqb (lower a) (lower b).

(** [COALESCE(x, y)] *)
Definition coalesce {A : Type} (x y : option A) : option A :=
  match x with
  | Some _ => x
  | None => y
  end.

(** [UNIQUE(group_chat_id, name COLLATE NOCASE)] for a row to insert. *)
Definition unique_ok (name : string) (group_chat_id : Z) (rows : list Medicine.t)
    : bool :=
  negb (existsb (fun m => (Medicine.group_chat_id m =? group_chat_id)
                          && nocase_eqb (Medicine.name m) name) rows).

(** [CHECK (action IN ('added', 'used', 'searched', 'deleted'))] *)
Definition action_ok (action : string) : bool :=
  existsb (String.eqb action) ["added"; "used"; "searched"; "deleted"].

(** [FOREIGN KEY (medicine_id) REFERENCES medicines(id)] *)
Definition medicine_exists (medicine_id : Z) (rows : list Medicine.t) : bool :=
  existsb (fun m => Medicine.id m =? medicine_id) rows.

(** The range of an SQLite [INTEGER]. Binding a Python [int] outside it to
    a statement raises [OverflowError] before the statement runs. *)
Definition int64 (n : Z) : bool := (- 2 ^ 63 <=? n) && (n <? 2 ^ 63).

(** The same for a parameter that may be [None], which binds as [NULL]. *)
Definition int64_opt (x : option Z) : bool :=
  match x with
  | Some n => int64 n
  | None => true
  end.

(** [SELECT * FROM medicines WHERE id = ?], first row. *)
Definition medicine_by_id (medicine_id : Z) (db : Db) : option Medicine.t :=
  find (fun m => Medicine.id m =? medicine_id) (medicines db).

Definition activity_by_id (activity_id : Z) (db : Db) : option Activity.t :=
  find (fun a => Activity.id a =? activity_id) (activity_log db).

Definition set_medicines (rows : list Medicine.t) (db : Db) : Db :=
  mk_db rows (medicines_seq db) (activity_log db) (activity_log_seq db).

(** [UPDATE medicines SET ... WHERE id = ?] *)
Definition update_by_id (medicine_id : Z) (f : Medicine.t -> Medicine.t)
    (db : Db) : Db :=
  set_medicines
    (map (fun m => if Medicine.id m =? medicine_id then f m else m)
       (medicines db)) db.

(** A text comparison [stored >= param] as SQLite makes it: byte by byte. *)
Definition text_ge (stored param : string) : bool := String.leb param stored.

(** [GROUP BY key] with [COUNT( * )]: one row per key, in order of first
    appearance. *)
Fixpoint bump (eqb : string -> string -> bool) (key : string)
    (groups : list (string * Z)) : list (string * Z) :=
  match groups with
  | [] => [(key, 1)]
  | (k, n) :: rest =>
      if eqb k key then (k, n + 1) :: rest else (k, n) :: bump eqb key rest
  end.

Definition group_count (eqb : string -> string -> bool) (keys : list string)
    : list (string * Z) :=
  fold_left (fun groups key => bump eqb key groups) keys [].

End Sql.

(** A stable sort by descending score: [list.sort(key=..., reverse=True)] and
    [ORDER BY count DESC]. An element is put before the first one whose score
    is not greater, so equal scores keep their order. *)
Section SortDesc.

Context {A : Type}.

Fixpoint insert_desc (x : A * Z) (l : list (A * Z)) : list (A * Z) :=
  match l with
  | [] => [x]
  | y :: l' => if snd x <? snd y then y :: insert_desc x l' else x :: l
  end.

Definition sort_desc (l : list (A * Z)) : list (A * Z) :=
  fold_right insert_desc [] l.

End SortDesc.

(** A stable sort by ascending key, for [ORDER BY name] and
    [ORDER BY quantity ASC]. *)
Section SortAsc.

Context {A : Type}.
Variable leb : A -> A -> bool.

Fixpoint insert_asc (x : A) (l : list A) : list A :=
  match l with
  | [] => [x]
  | y :: l' => if leb x y then x :: l else y :: insert_asc x l'
  end.

Definition sort_asc (l : list A) : list A := fold_right insert_asc [] l.

End SortAsc.

Module MedicineRepository.

Import PyStr Sql.

Definition in_group (group_chat_id : Z) (m : Medicine.t) : bool :=
  Medicine.group_chat_id m =? group_chat_id.

Definition find_by_exact_name (name : string) (group_chat_id : Z) (db : Db)
    : option Medicine.t :=
  find (fun m => nocase_eqb (Medicine.name m) name && in_group group_chat_id m)
    (medicines db).

(** The [UPDATE] of [add_medicine] on one row. *)
Definition restock (new_quantity : Z) (now : datetime)
    (expiry_date : option datetime) (location : option string)
    (m : Medicine.t) : Medicine.t :=
  Medicine.mk (Medicine.id m) (Medicine.name m) new_quantity (Medicine.unit m)
    (coalesce expiry_date (Medicine.expiry_date m))
    (coalesce location (Medicine.location m))
    (Medicine.added_by_user_id m) (Medicine.added_by_username m)
    (Medicine.added_date m) (Medicine.group_chat_id m) now.

(** The [INSERT] of [add_medicine]: a quantity outside the range of an
    [INTEGER] cannot be bound; the new row takes the next id and the clock
    for both dates; a second row with the name in the group is refused. *)
Definition insert_medicine (now : datetime) (data : MedicineData.t) (db : Db)
    : Db * result Z :=
  if negb (int64 (MedicineData.quantity data)) then (db, Raise OverflowError)
  else if unique_ok (MedicineData.name data) (MedicineData.group_chat_id data)
       (medicines db)
  then
    let lastrowid := medicines_seq db + 1 in
    let row :=
      Medicine.mk lastrowid (MedicineData.name data)
        (MedicineData.quantity data) (MedicineData.unit data)
        (MedicineData.expiry_date data) (MedicineData.location data)
        (MedicineData.added_by_user_id data)
        (MedicineData.added_by_username data) now
        (MedicineData.group_chat_id data) now in
    (mk_db (medicines db ++ [row]) lastrowid (activity_log db)
       (activity_log_seq db), Ok lastrowid)
  else (db, Raise IntegrityError).

Definition row_or_raise {A : Type} (msg : string) (row : option A) : result A :=
  match row with
  | Some r => Ok r
  | None => Raise (DatabaseError msg)
  end.

(** [now] is the reading of the database clock, [CURRENT_TIMESTAMP]. *)
Definition add_medicine (now : datetime) (data : MedicineData.t) (db : Db)
    : Db * result Medicine.t :=
  match find_by_exact_name (MedicineData.name data)
          (MedicineData.group_chat_id data) db with
  | Some existing =>
      let new_quantity := Medicine.quantity existing + MedicineData.quantity data in
      if negb (int64 new_quantity) then (db, Raise OverflowError)
      else
        let db' :=
          update_by_id (Medicine.id existing)
            (restock new_quantity now (MedicineData.expiry_date data)
               (MedicineData.location data)) db in
        (db', row_or_raise "Failed to create/update medicine"
                (medicine_by_id (Medicine.id existing) db'))
  | None =>
      match insert_medicine now data db with
      | (db', Ok lastrowid) =>
          (db', row_or_raise "Failed to create/update medicine"
                  (medicine_by_id lastrowid db'))
      | (db', Raise e) => (db', Raise e)
      end
  end.

(** The quantity that [add_medicine] binds into its statement: the sum for
    a name the group holds, the given quantity for a new name. *)
Definition bound_quantity (data : MedicineData.t) (db : Db) : Z :=
  match find_by_exact_name (MedicineData.name data)
          (MedicineData.group_chat_id data) db with
  | Some existing => Medicine.quantity existing + MedicineData.quantity data
  | None => MedicineData.quantity data
  end.

Definition get_by_id (medicine_id group_chat_id : Z) (db : Db)
    : option Medicine.t :=
  find (fun m => (Medicine.id m =? medicine_id) && in_group group_chat_id m)
    (medicines db).

(** The [UPDATE] of [update_quantity] on one row. *)
Definition set_quantity (new_quantity : Z) (now : datetime) (m : Medicine.t)
    : Medicine.t :=
  Medicine.mk (Medicine.id m) (Medicine.name m) new_quantity (Medicine.unit m)
    (Medicine.expiry_date m) (Medicine.location m)
    (Medicine.added_by_user_id m) (Medicine.added_by_username m)
    (Medicine.added_date m) (Medicine.group_chat_id m) now.

Definition not_found_message (medicine_id : Z) : string :=
  "Medicine with ID " ++ str_of_int medicine_id ++ " not found".

Definition update_quantity (now : datetime) (medicine_id delta group_chat_id : Z)
    (db : Db) : Db * result Medicine.t :=
  match get_by_id medicine_id group_chat_id db with
  | None => (db, Raise (DatabaseError (not_found_message medicine_id)))
  | Some row =>
      let new_quantity := Medicine.quantity row + delta in
      if new_quantity <? 0
      then (db, Raise (InsufficientStockError (Medicine.quantity row)
                         (Z.abs delta)))
      else if negb (int64 new_quantity) then (db, Raise OverflowError)
      else
        let db' := update_by_id medicine_id (set_quantity new_quantity now) db in
        (db', row_or_raise "Failed to fetch updated medicine"
                (medicine_by_id medicine_id db'))
  end.

Definition name_leb (a b : Medicine.t) : bool :=
  String.leb (lower (Medicine.name a)) (lower (Medicine.name b)).

(** Two orders in which the engine can hand over the rows of a [SELECT]
    that has no [ORDER BY]: by rowid, the order of a table scan, and by name,
    the order of the index on (group_chat_id, name) of the schema. *)
Definition rowid_order (rows : list Medicine.t) : list Medicine.t := rows.

Definition index_order (rows : list Medicine.t) : list Medicine.t :=
  sort_asc name_leb rows.

Section WithFuzz.

(** [fuzz.ratio] of the fuzzywuzzy library. *)
Variable fuzz_ratio : string -> string -> Z.

(** The order in which the engine hands over the rows of the group: the
    [SELECT] of [find_by_name_fuzzy] has no [ORDER BY]. *)
Variable row_order : list Medicine.t -> list Medicine.t.

Definition scored (name : string) (m : Medicine.t) : Medicine.t * Z :=
  (m, fuzz_ratio (lower name) (lower (Medicine.name m))).

(** The loop of [find_by_name_fuzzy] over the rows it fetched. *)
Definition candidates (name : string) (threshold : Z) (rows : list Medicine.t)
    : list (Medicine.t * Z) :=
  filter (fun c => threshold <=? snd c) (map (scored name) rows).

Definition fetch_group (group_chat_id : Z) (db : Db) : list Medicine.t :=
  row_order (filter (in_group group_chat_id) (medicines db)).

Definition find_by_name_fuzzy (name : string) (group_chat_id threshold : Z)
    (db : Db) : list (Medicine.t * Z) :=
  sort_desc (candidates name threshold (fetch_group group_chat_id db)).

End WithFuzz.

(** A sample matcher within the contract of the fuzzy matcher (a score
    between 0 and 100, 100 for equal strings only), to run the model on
    concrete stores. *)
Definition sample_ratio (a b : string) : Z :=
  if String.eqb a b then 100
  else if String.eqb (substring 0 3 a) (substring 0 3 b) then 75
  else 0.

Definition get_all (group_chat_id : Z) (db : Db) : list Medicine.t :=
  sort_asc name_leb (filter (in_group group_chat_id) (medicines db)).

Definition quantity_leb (a b : Medicine.t) : bool :=
  Medicine.quantity a <=? Medicine.quantity b.

Definition get_low_stock (group_chat_id threshold : Z) (db : Db)
    : list Medicine.t :=
  sort_asc quantity_leb
    (filter (fun m => in_group group_chat_id m
                      && (Medicine.quantity m <? threshold)) (medicines db)).

(** The [DELETE] names id and group; with [PRAGMA foreign_keys = ON] the
    ledger entries of a deleted row go with it. *)
Definition delete_medicine (medicine_id group_chat_id : Z) (db : Db)
    : Db * bool :=
  let hit m := (Medicine.id m =? medicine_id) && in_group group_chat_id m in
  let rowcount := List.length (filter hit (medicines db)) in
  if (0 <? rowcount)%nat
  then (mk_db (filter (fun m => negb (hit m)) (medicines db))
          (medicines_seq db)
          (filter (fun a => negb (Activity.medicine_id a =? medicine_id))
             (activity_log db))
          (activity_log_seq db), true)
  else (db, false).

(** [expiry_date <= ?] on the stored text, with [NULL] never below. *)
Definition expires_by (cutoff : string) (m : Medicine.t) : bool :=
  match Medicine.expiry_date m with
  | Some e => String.leb (DateTime.adapt_datetime e) cutoff
  | None => false
  end.

(** [ORDER BY expiry_date ASC] on the stored text, [NULL] first. *)
Definition expiry_leb (a b : Medicine.t) : bool :=
  match Medicine.expiry_date a, Medicine.expiry_date b with
  | Some x, Some y =>
      String.leb (DateTime.adapt_datetime x) (DateTime.adapt_datetime y)
  | None, _ => true
  | Some _, None => false
  end.

(** [now] is [datetime.now()]. *)
Definition get_expiring_soon (now : datetime) (group_chat_id days : Z) (db : Db)
    : result (list Medicine.t) :=
  match DateTime.minus_days now (- days) with
  | None => Raise OverflowError
  | Some cutoff_date =>
      Ok (sort_asc expiry_leb
            (filter (fun m => in_group group_chat_id m
                              && expires_by (DateTime.isoformat cutoff_date) m)
               (medicines db)))
  end.

End MedicineRepository.

Module ActivityLogRepository.

Import PyStr Sql DateTime.

(** The dictionary that [get_stats] returns. [activities_by_action] is a
    dict, kept as its items; [dict_get] reads it. *)
Record Stats : Type := mk_stats {
  total_activities : Z;
  activities_by_action : list (string * Z);
  most_active_users : list (string * Z);
  most_used_medicines : list (string * Z);
  period_days : Z
}.

Fixpoint dict_get (key : string) (items : list (string * Z)) : option Z :=
  match items with
  | [] => None
  | (k, v) :: rest =>
      match dict_get key rest with
      | Some v' => Some v'
      | None => if String.eqb k key then Some v else None
      end
  end.

(** [now] is the reading of the database clock, [CURRENT_TIMESTAMP]. The
    [INSERT] is refused for an action outside the four kinds and for a
    medicine id that is not in the medicines table. *)
Definition log_activity (now : datetime) (medicine_id : Z) (action : string)
    (user_id : Z) (username : string) (group_chat_id : Z)
    (quantity_change : option Z) (db : Db) : Db * result Activity.t :=
  if negb (int64_opt quantity_change) then (db, Raise OverflowError)
  else if action_ok action && medicine_exists medicine_id (medicines db)
  then
    let lastrowid := activity_log_seq db + 1 in
    let row :=
      Activity.mk lastrowid medicine_id action quantity_change user_id username
        now group_chat_id in
    let db' :=
      mk_db (medicines db) (medicines_seq db) (activity_log db ++ [row])
        lastrowid in
    (db', MedicineRepository.row_or_raise "Failed to create activity log"
            (activity_by_id lastrowid db'))
  else (db, Raise IntegrityError).

(** [WHERE group_chat_id = ? AND timestamp >= ?], the parameter being
    [cutoff_date.isoformat()] and the column the text of
    [CURRENT_TIMESTAMP]. *)
Definition in_window (group_chat_id : Z) (cutoff : string) (a : Activity.t)
    : bool :=
  (Activity.group_chat_id a =? group_chat_id)
  && text_ge (sqlite_timestamp (Activity.timestamp a)) cutoff.

(** [JOIN medicines m ON a.medicine_id = m.id], keeping [m.name]. *)
Definition joined_names (rows : list Activity.t) (db : Db) : list string :=
  flat_map
    (fun a =>
       map Medicine.name
         (filter (fun m => Medicine.id m =? Activity.medicine_id a)
            (medicines db)))
    rows.

(** [now] is [datetime.now()]. *)
Definition get_stats (now : datetime) (group_chat_id days : Z) (db : Db)
    : result Stats :=
  match minus_days now days with
  | None => Raise OverflowError
  | Some cutoff_date =>
      let cutoff := isoformat cutoff_date in
      let rows := filter (in_window group_chat_id cutoff) (activity_log db) in
      let total_row := Z.of_nat (List.length rows) in
      let action_rows := group_count String.eqb (map Activity.action rows) in
      let user_rows :=
        firstn 5 (sort_desc (group_count String.eqb (map Activity.username rows))) in
      let used := filter (fun a => String.eqb (Activity.action a) "used") rows in
      let medicine_rows :=
        firstn 5 (sort_desc (group_count nocase_eqb (joined_names used db))) in
      Ok (mk_stats total_row action_rows user_rows medicine_rows days)
  end.

(** [ORDER BY timestamp DESC] on the stored text. *)
Definition newer_first (a b : Activity.t) : bool :=
  String.leb (sqlite_timestamp (Activity.timestamp b))
    (sqlite_timestamp (Activity.timestamp a)).

(** [LIMIT ?]: a negative limit is no limit. *)
Definition sql_limit {A : Type} (limit : Z) (rows : list A) : list A :=
  if limit <? 0 then rows else firstn (Z.to_nat limit) rows.

Definition get_history (medicine_id limit : Z) (db : Db) : list Activity.t :=
  sql_limit limit
    (sort_asc newer_first
       (filter (fun a => Activity.medicine_id a =? medicine_id)
          (activity_log db))).

End ActivityLogRepository.

(** ** config/config.py

    The settings that the handlers read. *)

Module Config.

Record Settings : Type := mk_settings {
  admin_user_ids : list Z;
  low_stock_threshold : Z;
  expiry_warning_days : Z;
  fuzzy_match_threshold : Z
}.

End Config.

(** ** src/utils.py

    Each [datetime.now()] is a reading of the clock that the caller passes
    in; [date.strftime("%b %d, %Y")] is a parameter. *)

Module Utils.

Import PyStr DateTime.

(** [user_id in config.admin_user_ids] *)
Definition is_admin (user_id : Z) (config : Config.Settings) : bool :=
  existsb (Z.eqb user_id) (Config.admin_user_ids config).

Definition calculate_days_until_expiry (now expiry_date : datetime) : Z :=
  delta_days expiry_date now.

(** The three branches return the same text in this source. *)
Definition get_stock_status_emoji (quantity threshold : Z) : string :=
  if quantity =? 0 then ""
  else if quantity <? threshold then ""
  else "".

Section WithStrftime.

Variable strftime : datetime -> string.

Definition format_date (now date : datetime) : string :=
  let diff_days := delta_days now date in
  if diff_days =? 0 then "Today"
  else if diff_days =? 1 then "Yesterday"
  else if diff_days <? 7 then str_of_int diff_days ++ " days ago"
  else if diff_days <? 30 then
    let weeks := diff_days / 7 in
    str_of_int weeks ++ " week" ++ (if 1 <? weeks then "s" else "") ++ " ago"
  else strftime date.

(** The body of the loop of [format_medicine_list]: the line of one
    medicine. [now_days] is the clock that [calculate_days_until_expiry]
    reads and [now_date] the one that [format_date] reads after it. *)
Definition medicine_line (now_days now_date : datetime)
    (low_stock_threshold : Z) (medicine : Medicine.t) : string :=
  let stock_emoji :=
    get_stock_status_emoji (Medicine.quantity medicine) low_stock_threshold in
  let line :=
    stock_emoji ++ " *" ++ Medicine.name medicine ++ "* - "
    ++ str_of_int (Medicine.quantity medicine) ++ " " ++ Medicine.unit medicine in
  let line :=
    match Medicine.expiry_date medicine with
    | Some expiry_date =>
        let days_until_expiry :=
          calculate_days_until_expiry now_days expiry_date in
        if days_until_expiry <=? 0
        then line ++ " (EXPIRED " ++ format_date now_date expiry_date ++ ")"
        else if days_until_expiry <=? 30
        then line ++ " (Expires " ++ format_date now_date expiry_date ++ ")"
        else line
    | None => line
    end in
  match Medicine.location medicine with
  | Some (String c l) => line ++ " - " ++ String c l
  | _ => line
  end.

(** How often the line of a medicine reads the clock. *)
Definition clock_reads (now_days : datetime) (medicine : Medicine.t) : nat :=
  match Medicine.expiry_date medicine with
  | Some expiry_date =>
      if calculate_days_until_expiry now_days expiry_date <=? 30
      then 2%nat else 1%nat
  | None => 0%nat
  end.

(** The lines of the loop; [clock n] is the [n]-th reading of the clock. *)
Fixpoint medicine_lines (clock : nat -> datetime) (tick : nat)
    (low_stock_threshold : Z) (medicines : list Medicine.t) : list string :=
  match medicines with
  | [] => []
  | medicine :: rest =>
      medicine_line (clock tick) (clock (S tick)) low_stock_threshold medicine
      :: medicine_lines clock (tick + clock_reads (clock tick) medicine)
           low_stock_threshold rest
  end.

Definition newline : string := String (ascii_of_N 10) EmptyString.

Definition format_medicine_list (clock : nat -> datetime)
    (medicines : list Medicine.t) (low_stock_threshold : Z) : string :=
  match medicines with
  | [] => "No medicines found in cabinet."
  | _ => String.concat newline
           (medicine_lines clock 0 low_stock_threshold medicines)
  end.

End WithStrftime.

Definition special_chars : list ascii :=
  ["_"; "*"; "["; "]"; "("; ")"; "~"; "`"; ">"; "#"; "+"; "-"; "="; "|"; "{";
   "}"; "."; "!"]%char.

(** [text.replace(char, "\\" + char)] for a [char] of one character. *)
Fixpoint replace_char (char : ascii) (text : string) : string :=
  match text with
  | EmptyString => EmptyString
  | String x text' =>
      if Ascii.eqb x char
      then String "\" (String char (replace_char char text'))
      else String x (replace_char char text')
  end.

Definition escape_markdown_v2 (text : string) : string :=
  fold_left (fun text char => replace_char char text) special_chars text.

(** [re.sub(r"[^\w\s-]", "", name)]: what is neither a word character, nor
    white space, nor a hyphen goes. *)
Definition kept (c : ascii) : bool :=
  is_word c || is_space c || Ascii.eqb c "-".

Fixpoint remove_special (name : string) : string :=
  match name with
  | EmptyString => EmptyString
  | String c name' =>
      if kept c then String c (remove_special name')
      else remove_special name'
  end.

(** [s.split()]: the runs of characters that are not white space. *)
Fixpoint split (s : string) : list string :=
  match s with
  | EmptyString => []
  | String c s' =>
      if is_space c then split s'
      else
        match s' with
        | EmptyString => [String c EmptyString]
        | String d _ =>
            if is_space d then String c EmptyString :: split s'
            else
              match split s' with
              | word :: words => String c word :: words
              | [] => [String c EmptyString]
              end
        end
  end.

Definition sanitize_medicine_name (name : string) : string :=
  let sanitized := remove_special name in
  let sanitized := String.concat " " (split sanitized) in
  title sanitized.

End Utils.

(** ** src/commands.py: name resolution *)

Module Commands.

(** What a handler does with the matches of [find_by_name_fuzzy]: reply that
    nothing was found, go on with one medicine, or list candidates and
    stop. *)
Inductive Resolution : Type :=
| NotFound
| Resolved (medicine : Medicine.t) (confidence : Z)
| Ambiguous (listed : list (Medicine.t * Z)).

(** [handle_use_medicine] *)
Definition resolve_use (matches : list (Medicine.t * Z)) : Resolution :=
  match matches with
  | [] => NotFound
  | first :: _ =>
      if (List.length matches =? 1)%nat then Resolved (fst first) (snd first)
      else if snd first =? 100 then Resolved (fst first) (snd first)
      else Ambiguous (firstn 5 matches)
  end.

(** [handle_delete_medicine] *)
Definition resolve_delete (matches : list (Medicine.t * Z)) : Resolution :=
  match matches with
  | [] => NotFound
  | first :: _ =>
      if (1 <? List.length matches)%nat && (snd first <? 100)
      then Ambiguous (firstn 5 matches)
      else Resolved (fst first) (snd first)
  end.

(** *** The handlers

    A handler is modelled by what it does to the store and by the branch
    whose reply it sends; the text of a reply is left out. [Raise] is an
    exception that no [except] clause of the handler catches. Each write
    reads the clock of the database once. *)

Inductive Reply : Type :=
| AskName                (* "Please specify a medicine name." *)
| AskQuantity            (* "How many ... did you add / use?" *)
| ReplyNotFound
| ReplyAmbiguous (listed : list (Medicine.t * Z))
| ReplyAdded (medicine : Medicine.t)
| ReplyUsed (medicine updated : Medicine.t)
| ReplyInsufficient (available requested : Z)
| ReplyFound (matches : list (Medicine.t * Z))
| ReplyDeleted (medicine : Medicine.t)
| ReplyDeleteFailed      (* "Failed to delete medicine." *)
| ReplyNotAdmin
| ReplyEmpty             (* "Medicine cabinet is empty." *)
| ReplyList (medicines : list Medicine.t)
| ReplyUnknown           (* "Sorry, I didn't understand that command." *)
| ReplyError.            (* "Sorry, there was an error ..." *)

(** [update.effective_user.first_name or "Unknown"] *)
Definition username_of (first_name : option string) : string :=
  match first_name with
  | Some (String c s) => String c s
  | _ => "Unknown"
  end.

(** [except DatabaseError], which also catches its subclass. *)
Definition catch_database_error (e : exn) : result Reply :=
  match e with
  | DatabaseError _ | InsufficientStockError _ _ => Ok ReplyError
  | _ => Raise e
  end.

(** [except InsufficientStockError] before [except DatabaseError]. *)
Definition catch_insufficient_stock (e : exn) : result Reply :=
  match e with
  | InsufficientStockError available requested =>
      Ok (ReplyInsufficient available requested)
  | _ => catch_database_error e
  end.

Section Handlers.

Variable fuzz_ratio : string -> string -> Z.
Variable row_order : list Medicine.t -> list Medicine.t.

Definition handle_add_medicine (now_add now_log : datetime)
    (parsed : Parsers.ParsedCommand) (config : Config.Settings)
    (group_chat_id user_id : Z) (first_name : option string) (db : Db)
    : Db * result Reply :=
  match Parsers.medicine_name parsed with
  | Some (String c s) =>
      match Parsers.quantity parsed with
      | None => (db, Ok AskQuantity)
      | Some quantity =>
          let username := username_of first_name in
          let medicine_data :=
            MedicineData.mk (String c s) quantity (Parsers.unit parsed)
              (Parsers.expiry_date parsed) (Parsers.location parsed)
              user_id username group_chat_id in
          match MedicineRepository.add_medicine now_add medicine_data db with
          | (db1, Ok medicine) =>
              match ActivityLogRepository.log_activity now_log
                      (Medicine.id medicine) "added" user_id username
                      group_chat_id (Some quantity) db1 with
              | (db2, Ok _) => (db2, Ok (ReplyAdded medicine))
              | (db2, Raise e) => (db2, catch_database_error e)
              end
          | (db1, Raise e) => (db1, catch_database_error e)
          end
      end
  | _ => (db, Ok AskName)
  end.

Definition handle_use_medicine (now_update now_log : datetime)
    (parsed : Parsers.ParsedCommand) (config : Config.Settings)
    (group_chat_id user_id : Z) (first_name : option string) (db : Db)
    : Db * result Reply :=
  match Parsers.medicine_name parsed with
  | Some (String c s) =>
      match Parsers.quantity parsed with
      | None | Some 0 => (db, Ok AskQuantity)
      | Some quantity =>
          let username := username_of first_name in
          let matches :=
            MedicineRepository.find_by_name_fuzzy fuzz_ratio row_order
              (String c s) group_chat_id (Config.fuzzy_match_threshold config)
              db in
          match resolve_use matches with
          | NotFound => (db, Ok ReplyNotFound)
          | Ambiguous listed => (db, Ok (ReplyAmbiguous listed))
          | Resolved medicine _ =>
              match MedicineRepository.update_quantity now_update
                      (Medicine.id medicine) (- quantity) group_chat_id db with
              | (db1, Ok updated_medicine) =>
                  match ActivityLogRepository.log_activity now_log
                          (Medicine.id medicine) "used" user_id username
                          group_chat_id (Some (- quantity)) db1 with
                  | (db2, Ok _) =>
                      (db2, Ok (ReplyUsed medicine updated_medicine))
                  | (db2, Raise e) => (db2, catch_insufficient_stock e)
                  end
              | (db1, Raise e) => (db1, catch_insufficient_stock e)
              end
          end
      end
  | _ => (db, Ok AskName)
  end.

Definition handle_search_medicine (now_log : datetime)
    (parsed : Parsers.ParsedCommand) (config : Config.Settings)
    (group_chat_id user_id : Z) (first_name : option string) (db : Db)
    : Db * result Reply :=
  match Parsers.medicine_name parsed with
  | Some (String c s) =>
      let username := username_of first_name in
      let matches :=
        MedicineRepository.find_by_name_fuzzy fuzz_ratio row_order
          (String c s) group_chat_id (Config.fuzzy_match_threshold config) db in
      match matches with
      | [] => (db, Ok ReplyNotFound)
      | first :: _ =>
          match ActivityLogRepository.log_activity now_log
                  (Medicine.id (fst first)) "searched" user_id username
                  group_chat_id None db with
          | (db1, Ok _) => (db1, Ok (ReplyFound matches))
          | (db1, Raise e) => (db1, catch_database_error e)
          end
      end
  | _ => (db, Ok AskName)
  end.

(** [context.args] are the words after [/delete]. *)
Definition handle_delete_medicine (now_log : datetime) (args : list string)
    (config : Config.Settings) (group_chat_id user_id : Z)
    (first_name : option string) (db : Db) : Db * result Reply :=
  if negb (Utils.is_admin user_id config) then (db, Ok ReplyNotAdmin)
  else
    match args with
    | [] => (db, Ok AskName)
    | _ =>
        let medicine_name := String.concat " " args in
        let username := username_of first_name in
        let matches :=
          MedicineRepository.find_by_name_fuzzy fuzz_ratio row_order
            medicine_name group_chat_id (Config.fuzzy_match_threshold config)
            db in
        match resolve_delete matches with
        | NotFound => (db, Ok ReplyNotFound)
        | Ambiguous listed => (db, Ok (ReplyAmbiguous listed))
        | Resolved medicine _ =>
            match ActivityLogRepository.log_activity now_log
                    (Medicine.id medicine) "deleted" user_id username
                    group_chat_id None db with
            | (db1, Ok _) =>
                let '(db2, deleted) :=
                  MedicineRepository.delete_medicine (Medicine.id medicine)
                    group_chat_id db1 in
                (db2, Ok (if deleted then ReplyDeleted medicine
                          else ReplyDeleteFailed))
            | (db1, Raise e) => (db1, catch_database_error e)
            end
        end
    end.

Definition handle_list_all (config : Config.Settings) (group_chat_id : Z)
    (db : Db) : Db * result Reply :=
  match MedicineRepository.get_all group_chat_id db with
  | [] => (db, Ok ReplyEmpty)
  | medicines => (db, Ok (ReplyList medicines))
  end.

(** [handle_message], the router: a message without text is dropped, an
    exception of the classifiers leaves the router, and the intent goes to
    the handler of its kind. *)
Definition handle_message (date_parser_parse : string -> option datetime)
    (now_write now_log : datetime) (text : option string)
    (config : Config.Settings) (group_chat_id user_id : Z)
    (first_name : option string) (db : Db) : Db * result (option Reply) :=
  match text with
  | Some (String c s) =>
      match Parsers.CommandParser.parse date_parser_parse (String c s) with
      | Ok parsed =>
          let '(db', reply) :=
            match Parsers.command_type parsed with
            | Parsers.Add =>
                handle_add_medicine now_write now_log parsed config
                  group_chat_id user_id first_name db
            | Parsers.Use =>
                handle_use_medicine now_write now_log parsed config
                  group_chat_id user_id first_name db
            | Parsers.Search =>
                handle_search_medicine now_log parsed config group_chat_id
                  user_id first_name db
            | Parsers.List => handle_list_all config group_chat_id db
            | Parsers.Unknown => (db, Ok ReplyUnknown)
            end in
          (db', match reply with
                | Ok r => Ok (Some r)
                | Raise e => Raise e
                end)
      | Raise e => (db, Raise e)
      end
  | _ => (db, Ok None)
  end.

End Handlers.

End Commands.

(** ** Concurrent calls of [update_quantity]

    [update_quantity] awaits the database three times: the [SELECT] by id
    and group, the [UPDATE], and the [SELECT] of the updated row. Each is one
    statement; another task may run between two of them. *)

Module Interleaving.

Import Sql MedicineRepository.

Record Call : Type := mk_call {
  now : datetime;
  medicine_id : Z;
  delta : Z;
  group_chat_id : Z
}.

(** Where a call stands: before its first [SELECT], before its [UPDATE]
    (with the quantity it read and the [new_quantity] it computed), before
    its last [SELECT], or returned. *)
Inductive Task : Type :=
| AtSelect
| AtUpdate (seen new_quantity : Z)
| AtFetch
| Returned (r : result Medicine.t).

Definition step (c : Call) (t : Task) (db : Db) : Task * Db :=
  match t with
  | AtSelect =>
      match get_by_id (medicine_id c) (group_chat_id c) db with
      | None =>
          (Returned (Raise (DatabaseError (not_found_message (medicine_id c)))),
           db)
      | Some row =>
          let new_quantity := Medicine.quantity row + delta c in
          if new_quantity <? 0
          then (Returned (Raise (InsufficientStockError (Medicine.quantity row)
                                   (Z.abs (delta c)))), db)
          else (AtUpdate (Medicine.quantity row) new_quantity, db)
      end
  | AtUpdate _ new_quantity =>
      if negb (int64 new_quantity) then (Returned (Raise OverflowError), db)
      else
        (AtFetch,
         update_by_id (medicine_id c) (set_quantity new_quantity (now c)) db)
  | AtFetch =>
      (Returned (row_or_raise "Failed to fetch updated medicine"
                   (medicine_by_id (medicine_id c) db)), db)
  | Returned r => (Returned r, db)
  end.

(** Two calls in flight; a schedule names the task that runs next. *)
Inductive Who : Type := First | Second.

Record World : Type := mk_world {
  first : Task;
  second : Task;
  store : Db
}.

Definition start (db : Db) : World := mk_world AtSelect AtSelect db.

Definition step_world (c1 c2 : Call) (w : World) (who : Who) : World :=
  match who with
  | First =>
      let '(t, db) := step c1 (first w) (store w) in
      mk_world t (second w) db
  | Second =>
      let '(t, db) := step c2 (second w) (store w) in
      mk_world (first w) t db
  end.

Definition run (c1 c2 : Call) (schedule : list Who) (db : Db) : World :=
  fold_left (step_world c1 c2) schedule (start db).

(** One call run alone to its end. *)
Definition run_alone (c : Call) (db : Db) : Task * Db :=
  let '(t1, db1) := step c AtSelect db in
  let '(t2, db2) := step c t1 db1 in
  step c t2 db2.

End Interleaving.

(** ** The constraints of the schema *)

Module Schema.

(** The columns of [UNIQUE(group_chat_id, name COLLATE NOCASE)]. *)
Definition key (m : Medicine.t) : Z * string :=
  (Medicine.group_chat_id m, PyStr.lower (Medicine.name m)).

(** What the medicines table satisfies at all times: ids come from the
    [AUTOINCREMENT] counter, [id] is the primary key, and a name occurs once
    in a group, whatever its case. *)
Record wf (db : Db) : Prop := mk_wf {
  ids_issued : Forall (fun m => Medicine.id m <= medicines_seq db) (medicines db);
  ids_unique : NoDup (map Medicine.id (medicines db));
  names_unique : NoDup (map key (medicines db))
}.

(** The stores that the repositories can produce, starting from the empty
    tables of the migration. *)
Inductive reachable : Db -> Prop :=
| reach_empty : reachable empty_db
| reach_add now data db :
    reachable db ->
    reachable (fst (MedicineRepository.add_medicine now data db))
| reach_update now medicine_id delta group_chat_id db :
    reachable db ->
    reachable (fst (MedicineRepository.update_quantity now medicine_id delta
                      group_chat_id db))
| reach_delete medicine_id group_chat_id db :
    reachable db ->
    reachable (fst (MedicineRepository.delete_medicine medicine_id
                      group_chat_id db))
| reach_log now medicine_id action user_id username group_chat_id change db :
    reachable db ->
    reachable (fst (ActivityLogRepository.log_activity now medicine_id action
                      user_id username group_chat_id change db)).

(** What the activity table satisfies at all times: its ids come from its
    own counter and are distinct, every action is one of the four kinds of
    the [CHECK], and every entry refers to a stored medicine (the foreign
    key, kept by the cascade of a delete). *)
Record ledger_ok (db : Db) : Prop := mk_ledger_ok {
  entries_issued :
    Forall (fun a => Activity.id a <= activity_log_seq db) (activity_log db);
  entries_unique : NoDup (map Activity.id (activity_log db));
  actions_checked :
    Forall (fun a => Sql.action_ok (Activity.action a) = true) (activity_log db);
  medicines_referenced :
    Forall (fun a => Sql.medicine_exists (Activity.medicine_id a) (medicines db)
                     = true) (activity_log db)
}.

End Schema.

(** No stored quantity below zero. *)
Definition stock_nonneg (db : Db) : Prop :=
  Forall (fun m => 0 <= Medicine.quantity m) (medicines db).

(** Every stored quantity within the range of an [INTEGER]. *)
Definition stock_fits (db : Db) : Prop :=
  Forall (fun m => Sql.int64 (Medicine.quantity m) = true) (medicines db).

(** Every stored expiry has fields within their ranges. *)
Definition expiries_valid (db : Db) : Prop :=
  Forall (fun m => forall e, Medicine.expiry_date m = Some e -> DateTime.valid e)
    (medicines db).

(** Every ledger timestamp has fields within their ranges. *)
Definition timestamps_valid (db : Db) : Prop :=
  Forall (fun a => DateTime.valid (Activity.timestamp a)) (activity_log db).

(** The sum of the counts of a grouped result. *)
Definition total_count (items : list (string * Z)) : Z :=
  fold_right (fun item acc => snd item + acc) 0 items.

(** How often a key occurs. *)
Definition occurrences (key : string) (keys : list string) : Z :=
  Z.of_nat (List.length (filter (String.eqb key) keys)).

(** ** Texts of ASCII code points *)

(** The character tables of [PyStr] are those of Python on ASCII code
    points; a property that depends on them is stated for such texts. *)
Definition is_ascii (c : ascii) : bool := (PyStr.code c <? 128)%N.

Fixpoint ascii_text (s : string) : bool :=
  match s with
  | EmptyString => true
  | String c s' => is_ascii c && ascii_text s'
  end.

(** ** What a pattern can capture *)

(** Every character of a text passes a test. *)
Fixpoint every (f : ascii -> bool) (s : string) : bool :=
  match s with
  | EmptyString => true
  | String c s' => f c && every f s'
  end.

(** The texts a pattern can consume, whatever it captures on the way. *)
Fixpoint lang (r : Re.regex) (t : string) : Prop :=
  match r with
  | Re.Eps | Re.Bol => t = ""
  | Re.Lit p => PyStr.lower t = PyStr.lower p
  | Re.Rep c lo _ =>
      every (Re.cls_match c) t = true /\ (lo <= String.length t)%nat
  | Re.Seq a b => exists t1 t2, t = t1 ++ t2 /\ lang a t1 /\ lang b t2
  | Re.Alt a b => lang a t \/ lang b t
  | Re.Opt a => t = "" \/ lang a t
  | Re.Grp _ a => lang a t
  end.

(** Every group of a pattern consumes only texts with the property [Q]. *)
Fixpoint groups_in (Q : string -> Prop) (r : Re.regex) : Prop :=
  match r with
  | Re.Eps | Re.Bol | Re.Lit _ | Re.Rep _ _ _ => True
  | Re.Seq a b | Re.Alt a b => groups_in Q a /\ groups_in Q b
  | Re.Opt a => groups_in Q a
  | Re.Grp _ a => (forall t, lang a t -> Q t) /\ groups_in Q a
  end.

(** Every group that took part in a match holds a text with the property
    [Q]. *)
Definition captured (Q : string -> Prop) (caps : Re.captures) : Prop :=
  Forall (fun g => forall t, g = Some t -> Q t) caps.

Definition word_or_space (c : ascii) : bool :=
  PyStr.is_word c || PyStr.is_space c.

(** A text of letters, digits, underscores and white space that starts with
    one of the first three: what the groups of the command patterns hold. *)
Definition word_text (t : string) : Prop :=
  exists c rest,
    t = String c rest /\ PyStr.is_word c = true
    /\ every word_or_space rest = true.

(** The name and the quantity of an intent, where it has them. *)
Definition sound_fields (r : Parsers.ParsedCommand) : Prop :=
  (forall n, Parsers.medicine_name r = Some n ->
             n <> "" /\ every word_or_space n = true)
  /\ (forall q, Parsers.quantity r = Some q -> 0 <= q).

(** Every match of a pattern sets its group [i]: the group does not stand
    under an option or in one branch of an alternative only. *)
Fixpoint sets (i : nat) (r : Re.regex) : bool :=
  match r with
  | Re.Eps | Re.Bol | Re.Lit _ | Re.Rep _ _ _ => false
  | Re.Seq a b => sets i a || sets i b
  | Re.Alt a b => sets i a && sets i b
  | Re.Opt _ => false
  | Re.Grp j a => Nat.eqb i j || sets i a
  end.

(** Group [i] took part in the match. *)
Definition is_set (i : nat) (caps : Re.captures) : Prop :=
  exists t, nth_error caps i = Some (Some t).

(** What the classifiers rely on: the first group of a pattern is set by
    every match, and so is the second where the pattern has one. *)
Definition leading_groups_set (r : Re.regex) : bool :=
  sets 0 r && ((Re.ngroups r <? 2)%nat || sets 1 r).

(** A word of a split: not empty and without white space. *)
Definition is_word_of_split (w : string) : Prop :=
  w <> "" /\ every (fun c => negb (PyStr.is_space c)) w = true.

(** The units that [_normalize_unit] returns. *)
Definition canonical_units : list string :=
  ["tablets"; "capsules"; "ml"; "mg"; "strips"; "bottles"; "pieces"].

(** A name as the classifiers deliver it: trimmed and in title case. *)
Definition normal_name (x : option string) : Prop :=
  exists n, x = Some n /\ PyStr.strip n = n /\ PyStr.title n = n.

(** Candidates in descending order of score. *)
Definition descending {A : Type} (l : list (A * Z)) : Prop :=
  StronglySorted (fun x y => snd y <= snd x) l.

(** The candidates of one score, in the order of the list. *)
Definition with_score {A : Type} (s : Z) (l : list (A * Z)) : list (A * Z) :=
  filter (fun c => snd c =? s) l.

(** The reading under which ties keep the order of insertion: the
    candidates of each score come out as they stand in the table, which holds
    the rows in the order of their insertion. *)
Definition ties_in_insertion_order
    (fuzz_ratio : string -> string -> Z)
    (row_order : list Medicine.t -> list Medicine.t)
    (name : string) (group_chat_id threshold : Z) (db : Db) : Prop :=
  forall s,
    with_score s
      (MedicineRepository.find_by_name_fuzzy fuzz_ratio row_order name
         group_chat_id threshold db)
    = with_score s
        (MedicineRepository.candidates fuzz_ratio name threshold
           (filter (MedicineRepository.in_group group_chat_id) (medicines db))).

(** * Properties *)

Import PyStr.

(** ** Strings *)

Lemma is_space_lower_char (c : ascii) : is_space (lower_char c) = is_space c.
Proof.
  destruct c as [[] [] [] [] [] [] [] []]; vm_compute; reflexivity.
Qed.

Lemma lstrip_lower (s : string) : lstrip (lower s) = lower (lstrip s).
Proof.
  induction s as [|c s IH]; simpl; [reflexivity|].
  rewrite is_space_lower_char.
  destruct (is_space c); [exact IH | reflexivity].
Qed.

Lemma rstrip_lower (s : string) : rstrip (lower s) = lower (rstrip s).
Proof.
  induction s as [|c s IH]; simpl; [reflexivity|].
  rewrite IH, is_space_lower_char.
  destruct (rstrip s); simpl; [destruct (is_space c)|]; reflexivity.
Qed.

Lemma strip_lower (s : string) : strip (lower s) = lower (strip s).
Proof.
  unfold strip. rewrite rstrip_lower. apply lstrip_lower.
Qed.

Lemma rstrip_idem (s : string) : rstrip (rstrip s) = rstrip s.
Proof.
  induction s as [|c s IH]; simpl; [reflexivity|].
  destruct (rstrip s) as [|d r] eqn:E.
  - destruct (is_space c) eqn:Ec; simpl; [reflexivity|].
    rewrite Ec. reflexivity.
  - change (rstrip (String c (String d r))) with
      (match rstrip (String d r) with
       | EmptyString => if is_space c then EmptyString else String c EmptyString
       | x => String c x
       end).
    rewrite IH. reflexivity.
Qed.

Lemma lstrip_idem (s : string) : lstrip (lstrip s) = lstrip s.
Proof.
  induction s as [|c s IH]; simpl; [reflexivity|].
  destruct (is_space c) eqn:Ec; [exact IH|].
  simpl. rewrite Ec. reflexivity.
Qed.

(** Dropping leading space leaves an already right-stripped text
    right-stripped. *)
Lemma rstrip_lstrip_fixed (s : string) :
  rstrip s = s -> rstrip (lstrip s) = lstrip s.
Proof.
  induction s as [|c s IH]; simpl; [reflexivity|].
  intros H. destruct (is_space c) eqn:Ec.
  - apply IH. destruct (rstrip s) as [|d r] eqn:E.
    + discriminate.
    + injection H as H. exact H.
  - simpl. rewrite Ec. exact H.
Qed.

Lemma strip_idem (s : string) : strip (strip s) = strip s.
Proof.
  unfold strip.
  rewrite (rstrip_lstrip_fixed (rstrip s) (rstrip_idem s)).
  apply lstrip_idem.
Qed.

(** The text that the list parser tests is the trimmed input in lower
    case. *)
Lemma list_text_lower (text : string) :
  strip (lower (strip text)) = lower (strip text).
Proof.
  rewrite strip_lower, strip_idem. reflexivity.
Qed.

(** ** The classifiers and the dispatcher *)

Import Parsers.

(** Splits a conjunction without touching its conjuncts. *)
Ltac split_all :=
  repeat match goal with |- _ /\ _ => split end.

(** Closes a goal that is a run of the model on concrete input. *)
Ltac run_model := vm_compute; reflexivity.

Lemma keyword_loop_prefix (keywords : list string) (text_lower keyword : string) :
  In keyword keywords ->
  startswith text_lower keyword = true ->
  ListCommandParser.keyword_loop keywords text_lower
  = Some (ParsedCommand_default List).
Proof.
  induction keywords as [|k rest IH]; simpl; [intros []|].
  intros [->|Hin] Hpre.
  - rewrite Hpre, orb_true_r. reflexivity.
  - destruct (String.eqb text_lower k || startswith text_lower k);
      [reflexivity | exact (IH Hin Hpre)].
Qed.

Lemma keyword_loop_some (keywords : list string) (text_lower : string)
    (r : ParsedCommand) :
  ListCommandParser.keyword_loop keywords text_lower = Some r ->
  r = ParsedCommand_default List.
Proof.
  induction keywords as [|k rest IH]; simpl; [discriminate|].
  destruct (String.eqb text_lower k || startswith text_lower k).
  - intros H. injection H as <-. reflexivity.
  - exact IH.
Qed.

(** C10. A text whose trimmed, lower-cased form starts with one of the list
    keywords is classified as List, with no medicine name and no quantity,
    whatever follows the keyword. So "show allegra" (a Search for the search
    classifier alone) and "listen" (matched by no other classifier) are both
    List. *)
Theorem list_keyword_prefix_wins (dp : string -> option datetime) :
  (forall text keyword,
      In keyword ListCommandParser.LIST_KEYWORDS ->
      startswith (lower (strip text)) keyword = true ->
      CommandParser.parse dp text
      = Ok (mk_parsed List None None "tablets" None None 1%Q (strip text)))
  /\ CommandParser.parse dp "show allegra"
     = Ok (mk_parsed List None None "tablets" None None 1%Q "show allegra")
  /\ SearchCommandParser.parse "show allegra"
     = Ok (Some (mk_parsed Search (Some "Allegra") None "tablets" None None
                   1%Q ""))
  /\ CommandParser.parse dp "listen"
     = Ok (mk_parsed List None None "tablets" None None 1%Q "listen")
  /\ AddCommandParser.parse dp "listen" = Ok None
  /\ UseCommandParser.parse "listen" = Ok None
  /\ SearchCommandParser.parse "listen" = Ok None.
Proof.
  split; [|split_all; run_model].
  intros text keyword Hin Hpre.
  unfold CommandParser.parse, ListCommandParser.parse.
  rewrite list_text_lower.
  rewrite (keyword_loop_prefix _ _ _ Hin Hpre).
  reflexivity.
Qed.

Lemma list_keyword_prefix_wins_witness :
  CommandParser.parse (fun _ => None) "  Show ALL of them "
  = Ok (mk_parsed List None None "tablets" None None 1%Q "Show ALL of them").
Proof.
  apply (proj1 (list_keyword_prefix_wins (fun _ => None))
           "  Show ALL of them " "show all").
  - simpl. tauto.
  - vm_compute. reflexivity.
Defined.

(** C3. The dispatcher asks the List, Add, Use and Search classifiers in this
    order and answers with the first match, the trimmed text put in
    [raw_text]; with no match it answers Unknown with confidence 0. On the
    five inputs of the specification it gives the stated intents. *)
Theorem dispatcher_order (dp : string -> option datetime) :
  (forall text r,
      ListCommandParser.parse (strip text) = Some r ->
      CommandParser.parse dp text = Ok (set_raw_text (strip text) r))
  /\ (forall text r,
      ListCommandParser.parse (strip text) = None ->
      AddCommandParser.parse dp (strip text) = Ok (Some r) ->
      CommandParser.parse dp text = Ok (set_raw_text (strip text) r))
  /\ (forall text r,
      ListCommandParser.parse (strip text) = None ->
      AddCommandParser.parse dp (strip text) = Ok None ->
      UseCommandParser.parse (strip text) = Ok (Some r) ->
      CommandParser.parse dp text = Ok (set_raw_text (strip text) r))
  /\ (forall text r,
      ListCommandParser.parse (strip text) = None ->
      AddCommandParser.parse dp (strip text) = Ok None ->
      UseCommandParser.parse (strip text) = Ok None ->
      SearchCommandParser.parse (strip text) = Ok (Some r) ->
      CommandParser.parse dp text = Ok (set_raw_text (strip text) r))
  /\ (forall text,
      ListCommandParser.parse (strip text) = None ->
      AddCommandParser.parse dp (strip text) = Ok None ->
      UseCommandParser.parse (strip text) = Ok None ->
      SearchCommandParser.parse (strip text) = Ok None ->
      CommandParser.parse dp text
      = Ok (mk_parsed Unknown None None "tablets" None None 0%Q (strip text)))
  /\ CommandParser.parse dp "10 Napa"
     = Ok (mk_parsed Add (Some "Napa") (Some 10) "tablets" None None 1%Q
             "10 Napa")
  /\ CommandParser.parse dp "?all"
     = Ok (mk_parsed List None None "tablets" None None 1%Q "?all")
  /\ CommandParser.parse dp "-Napa 2"
     = Ok (mk_parsed Use (Some "Napa") (Some 2) "tablets" None None 1%Q
             "-Napa 2")
  /\ CommandParser.parse dp "Took some paracetamol"
     = Ok (mk_parsed Use (Some "Paracetamol") (Some 1) "tablets" None None 1%Q
             "Took some paracetamol")
  /\ CommandParser.parse dp "Hello world"
     = Ok (mk_parsed Unknown None None "tablets" None None 0%Q "Hello world").
Proof.
  split; [|split; [|split; [|split; [|split; [|split_all; run_model]]]]];
    unfold CommandParser.parse.
  - intros text r H. rewrite H. reflexivity.
  - intros text r H H0. rewrite H, H0. reflexivity.
  - intros text r H H0 H1. rewrite H, H0, H1. reflexivity.
  - intros text r H H0 H1 H2. rewrite H, H0, H1, H2. reflexivity.
  - intros text H H0 H1 H2. rewrite H, H0, H1, H2. reflexivity.
Qed.

Lemma dispatcher_order_witness :
  CommandParser.parse (fun _ => None) " Bought Napa Extra 10 tablets "
  = Ok (mk_parsed Add (Some "Napa Extra") (Some 10) "tablets" None None 1%Q
          "Bought Napa Extra 10 tablets").
Proof.
  apply (proj1 (proj2 (dispatcher_order (fun _ => None)))
           " Bought Napa Extra 10 tablets "
           (mk_parsed Add (Some "Napa Extra") (Some 10) "tablets" None None
              1%Q "")).
  - run_model.
  - run_model.
Defined.

(** C9. The Add classifier picks the groups by the first character of the
    text, not by the pattern that matched. On "+got napa" only the
    one-group pattern matches, the branch for a leading [+] reads a second
    group, and the call ends with [IndexError], which the dispatcher passes
    on. "5got napa" ends with [ValueError], and the Use classifier does the
    same on "-took napa". *)
Theorem add_classifier_raises (dp : string -> option datetime) :
  AddCommandParser.parse dp "+got napa" = Raise IndexError
  /\ CommandParser.parse dp "+got napa" = Raise IndexError
  /\ CommandParser.parse dp "5got napa" = Raise ValueError
  /\ UseCommandParser.parse "-took napa" = Raise IndexError
  /\ CommandParser.parse dp "-took napa" = Raise IndexError.
Proof.
  split_all; run_model.
Qed.

(** ** The inventory store *)

Import Sql MedicineRepository Schema.

Lemma find_map_same {A : Type} (p : A -> bool) (g : A -> A) (l : list A) :
  (forall x, p (g x) = p x) ->
  find p (map g l) = option_map g (find p l).
Proof.
  intros Hp. induction l as [|x l IH]; simpl; [reflexivity|].
  rewrite Hp. destruct (p x); [reflexivity | exact IH].
Qed.

Lemma find_app_none {A : Type} (p : A -> bool) (l l' : list A) :
  find p l = None -> find p (l ++ l') = find p l'.
Proof.
  induction l as [|x l IH]; simpl; [reflexivity|].
  destruct (p x); [discriminate | exact IH].
Qed.

Lemma find_filter {A : Type} (p q : A -> bool) (l : list A) :
  find (fun x => p x && q x) l = find p (filter q l).
Proof.
  induction l as [|x l IH]; simpl; [reflexivity|].
  destruct (q x); simpl.
  - rewrite andb_true_r. destruct (p x); [reflexivity | exact IH].
  - rewrite andb_false_r. exact IH.
Qed.

Lemma filter_map_same {A : Type} (p : A -> bool) (g : A -> A) (l : list A) :
  (forall x, p (g x) = p x) ->
  (forall x, In x l -> p x = true -> g x = x) ->
  filter p (map g l) = filter p l.
Proof.
  intros Hp. induction l as [|x l IH]; simpl; [reflexivity|].
  intros Hg. rewrite Hp. destruct (p x) eqn:Ex.
  - rewrite (Hg x (or_introl eq_refl) Ex). f_equal.
    apply IH. intros y Hy. apply Hg. right. exact Hy.
  - apply IH. intros y Hy. apply Hg. right. exact Hy.
Qed.

(** With [id] a key, the row of an id is the row that holds it. *)
Lemma find_by_key {A : Type} (k : A -> Z) (l : list A) (e : A) :
  NoDup (map k l) -> In e l -> find (fun x => k x =? k e) l = Some e.
Proof.
  induction l as [|x l IH]; simpl; [intros _ []|].
  intros Hnd [->|Hin].
  - rewrite Z.eqb_refl. reflexivity.
  - inversion Hnd as [|? ? Hx Hl]; subst.
    destruct (k x =? k e) eqn:E.
    + apply Z.eqb_eq in E. exfalso. apply Hx. rewrite E.
      apply in_map. exact Hin.
    + exact (IH Hl Hin).
Qed.

Lemma same_id_same_row (db : Db) (x e : Medicine.t) :
  wf db -> In x (medicines db) -> In e (medicines db) ->
  Medicine.id x = Medicine.id e -> x = e.
Proof.
  intros Hwf Hx He Hid.
  pose proof (find_by_key Medicine.id _ e (ids_unique db Hwf) He) as H1.
  pose proof (find_by_key Medicine.id _ x (ids_unique db Hwf) Hx) as H2.
  rewrite Hid in H2. rewrite H1 in H2. injection H2 as ->. reflexivity.
Qed.

Lemma wf_empty : wf empty_db.
Proof.
  split; simpl; constructor.
Qed.

(** An [UPDATE] by id that keeps id, name and group keeps the schema's
    constraints. *)
Lemma wf_update_by_id (i : Z) (f : Medicine.t -> Medicine.t) (db : Db) :
  (forall m, Medicine.id (f m) = Medicine.id m) ->
  (forall m, key (f m) = key m) ->
  wf db -> wf (update_by_id i f db).
Proof.
  intros Hid Hkey [H1 H2 H3].
  assert (Hmap_id : map Medicine.id
            (map (fun m => if Medicine.id m =? i then f m else m) (medicines db))
          = map Medicine.id (medicines db)).
  { rewrite map_map. apply map_ext. intros m.
    destruct (Medicine.id m =? i); [apply Hid | reflexivity]. }
  assert (Hmap_key : map key
            (map (fun m => if Medicine.id m =? i then f m else m) (medicines db))
          = map key (medicines db)).
  { rewrite map_map. apply map_ext. intros m.
    destruct (Medicine.id m =? i); [apply Hkey | reflexivity]. }
  split; simpl.
  - rewrite Forall_map. revert H1. apply Forall_impl. intros m Hm.
    destruct (Medicine.id m =? i); [rewrite Hid|]; exact Hm.
  - rewrite Hmap_id. exact H2.
  - rewrite Hmap_key. exact H3.
Qed.

(** The row that an [UPDATE] by id leaves under that id. *)
Lemma medicine_by_id_update (db : Db) (e : Medicine.t) (f : Medicine.t -> Medicine.t) :
  (forall m, Medicine.id (f m) = Medicine.id m) ->
  wf db -> In e (medicines db) ->
  medicine_by_id (Medicine.id e) (update_by_id (Medicine.id e) f db)
  = Some (f e).
Proof.
  intros Hid Hwf He. unfold medicine_by_id, update_by_id. simpl.
  rewrite find_map_same.
  - rewrite (find_by_key Medicine.id _ e (ids_unique db Hwf) He). simpl.
    rewrite Z.eqb_refl. reflexivity.
  - intros x. destruct (Medicine.id x =? Medicine.id e) eqn:E;
      [rewrite Hid|]; exact E.
Qed.

(** Rows of another group are left as they are by an [UPDATE] on the id of
    a row of this group. *)
Lemma update_by_id_frame (db : Db) (e : Medicine.t) (f : Medicine.t -> Medicine.t)
    (g : Z) :
  (forall m, Medicine.group_chat_id (f m) = Medicine.group_chat_id m) ->
  wf db -> In e (medicines db) -> Medicine.group_chat_id e <> g ->
  filter (in_group g) (medicines (update_by_id (Medicine.id e) f db))
  = filter (in_group g) (medicines db).
Proof.
  intros Hgrp Hwf He Hne. unfold update_by_id. simpl.
  apply filter_map_same.
  - intros x. unfold in_group.
    destruct (Medicine.id x =? Medicine.id e); [rewrite Hgrp|]; reflexivity.
  - intros x Hx Hg. destruct (Medicine.id x =? Medicine.id e) eqn:E;
      [|reflexivity].
    apply Z.eqb_eq in E.
    rewrite (same_id_same_row db x e Hwf Hx He E) in Hg.
    unfold in_group in Hg. apply Z.eqb_eq in Hg. contradiction.
Qed.

Lemma find_by_exact_name_some (n : string) (g : Z) (db : Db) (e : Medicine.t) :
  find_by_exact_name n g db = Some e ->
  In e (medicines db)
  /\ lower (Medicine.name e) = lower n
  /\ Medicine.group_chat_id e = g.
Proof.
  intros H. apply find_some in H. destruct H as [Hin Hp].
  apply andb_prop in Hp. destruct Hp as [Hn Hg].
  apply String.eqb_eq in Hn. apply Z.eqb_eq in Hg. auto.
Qed.

Lemma find_by_exact_name_nocase (n1 n2 : string) (g : Z) (db : Db) :
  lower n1 = lower n2 ->
  find_by_exact_name n1 g db = find_by_exact_name n2 g db.
Proof.
  intros H. unfold find_by_exact_name, nocase_eqb. rewrite H. reflexivity.
Qed.

Lemma int64_spec (n : Z) : int64 n = true <-> - 2 ^ 63 <= n < 2 ^ 63.
Proof.
  unfold int64. rewrite andb_true_iff, Z.leb_le, Z.ltb_lt. tauto.
Qed.

Lemma int64_above (n : Z) : 2 ^ 63 <= n -> int64 n = false.
Proof.
  intros H. destruct (int64 n) eqn:E; [|reflexivity].
  apply int64_spec in E. lia.
Qed.

(** A quantity that does not fit an [INTEGER] ends [add_medicine] with
    [OverflowError] and leaves the store as it was. *)
Lemma add_medicine_overflow (now : datetime) (d : MedicineData.t) (db : Db) :
  int64 (bound_quantity d db) = false ->
  add_medicine now d db = (db, Raise OverflowError).
Proof.
  unfold bound_quantity, add_medicine, insert_medicine.
  destruct (find_by_exact_name _ _ db); intros H; rewrite H; reflexivity.
Qed.

(** What [add_medicine] does on a store that meets the schema, with a
    quantity to bind that fits an [INTEGER]: it returns the record now stored
    under the name, which is the old record restocked or a new row with the
    next id; the schema still holds and the rows of the other groups are as
    before. *)
Lemma add_medicine_spec (now : datetime) (d : MedicineData.t) (db : Db) :
  wf db ->
  int64 (bound_quantity d db) = true ->
  exists m db',
    add_medicine now d db = (db', Ok m)
    /\ wf db'
    /\ find_by_exact_name (MedicineData.name d) (MedicineData.group_chat_id d) db'
       = Some m
    /\ (forall g, g <> MedicineData.group_chat_id d ->
          filter (in_group g) (medicines db') = filter (in_group g) (medicines db))
    /\ match find_by_exact_name (MedicineData.name d)
               (MedicineData.group_chat_id d) db with
       | Some e =>
           m = restock (Medicine.quantity e + MedicineData.quantity d) now
                 (MedicineData.expiry_date d) (MedicineData.location d) e
       | None =>
           m = Medicine.mk (medicines_seq db + 1) (MedicineData.name d)
                 (MedicineData.quantity d) (MedicineData.unit d)
                 (MedicineData.expiry_date d) (MedicineData.location d)
                 (MedicineData.added_by_user_id d)
                 (MedicineData.added_by_username d) now
                 (MedicineData.group_chat_id d) now
       end.
Proof.
  intros Hwf Hfit. unfold add_medicine. unfold bound_quantity in Hfit.
  destruct (find_by_exact_name (MedicineData.name d)
              (MedicineData.group_chat_id d) db) as [e|] eqn:Efind.
  - (* the name is there: UPDATE *)
    rewrite Hfit. cbn [negb].
    destruct (find_by_exact_name_some _ _ _ _ Efind) as (He & Hname & Hgrp).
    set (f := restock (Medicine.quantity e + MedicineData.quantity d) now
                (MedicineData.expiry_date d) (MedicineData.location d)).
    exists (f e), (update_by_id (Medicine.id e) f db).
    rewrite (medicine_by_id_update db e f (fun _ => eq_refl) Hwf He).
    split; [reflexivity|].
    split; [apply wf_update_by_id; auto|].
    split.
    { unfold find_by_exact_name, update_by_id. simpl.
      rewrite find_map_same.
      - fold (find_by_exact_name (MedicineData.name d)
                (MedicineData.group_chat_id d) db).
        rewrite Efind. simpl. rewrite Z.eqb_refl. reflexivity.
      - intros x. destruct (Medicine.id x =? Medicine.id e); reflexivity. }
    split; [|reflexivity].
    intros g Hg. apply update_by_id_frame; auto. congruence.
  - (* the name is new: INSERT *)
    pose proof (find_none _ _ Efind) as Hnone.
    unfold insert_medicine. rewrite Hfit. cbn [negb].
    assert (Hu : unique_ok (MedicineData.name d) (MedicineData.group_chat_id d)
                   (medicines db) = true).
    { unfold unique_ok. apply negb_true_iff.
      apply not_true_is_false. intros Hex.
      apply existsb_exists in Hex. destruct Hex as (x & Hx & Hp).
      specialize (Hnone x Hx). unfold in_group in Hnone.
      rewrite andb_comm in Hp. congruence. }
    rewrite Hu.
    set (row := Medicine.mk (medicines_seq db + 1) (MedicineData.name d)
                  (MedicineData.quantity d) (MedicineData.unit d)
                  (MedicineData.expiry_date d) (MedicineData.location d)
                  (MedicineData.added_by_user_id d)
                  (MedicineData.added_by_username d) now
                  (MedicineData.group_chat_id d) now).
    destruct Hwf as [H1 H2 H3].
    assert (Hfresh : find (fun m => Medicine.id m =? medicines_seq db + 1)
                       (medicines db) = None).
    { destruct (find _ (medicines db)) as [x|] eqn:E; [|reflexivity].
      apply find_some in E. destruct E as [Hx Hid].
      apply Z.eqb_eq in Hid. rewrite Forall_forall in H1.
      specialize (H1 x Hx). simpl in H1. lia. }
    exists row. eexists. split.
    { unfold medicine_by_id. simpl. rewrite (find_app_none _ _ _ Hfresh).
      simpl. rewrite Z.eqb_refl. reflexivity. }
    split.
    { split; simpl.
      - apply Forall_app. split.
        + revert H1. apply Forall_impl. intros; lia.
        + constructor; [simpl; lia | constructor].
      - rewrite map_app. simpl.
        apply NoDup_app; [exact H2 | repeat constructor; intros [] |].
        intros i Hi [<-|[]]. apply in_map_iff in Hi.
        destruct Hi as (x & Hid & Hx). rewrite Forall_forall in H1.
        specialize (H1 x Hx). simpl in H1, Hid. lia.
      - rewrite map_app. simpl.
        apply NoDup_app; [exact H3 | repeat constructor; intros [] |].
        intros k Hk [<-|[]]. apply in_map_iff in Hk.
        destruct Hk as (x & Hkey & Hx). specialize (Hnone x Hx).
        unfold key in Hkey. simpl in Hkey. injection Hkey as Hg Hn.
        unfold in_group, nocase_eqb in Hnone.
        rewrite Hg, Hn, Z.eqb_refl, String.eqb_refl in Hnone. discriminate. }
    split.
    { unfold find_by_exact_name. simpl.
      unfold find_by_exact_name in Efind. rewrite (find_app_none _ _ _ Efind).
      simpl. unfold nocase_eqb, in_group. simpl.
      rewrite String.eqb_refl, Z.eqb_refl. reflexivity. }
    split; [|reflexivity].
    intros g Hg. simpl. rewrite filter_app. simpl.
    unfold in_group at 2. simpl.
    destruct (MedicineData.group_chat_id d =? g) eqn:E.
    + apply Z.eqb_eq in E. congruence.
    + apply app_nil_r.
Qed.

(** The stock that [add_medicine] returns is the quantity it bound. *)
Lemma add_medicine_quantity (now : datetime) (d : MedicineData.t) (db db' : Db)
    (m : Medicine.t) :
  wf db -> add_medicine now d db = (db', Ok m) ->
  Medicine.quantity m = bound_quantity d db
  /\ int64 (bound_quantity d db) = true.
Proof.
  intros Hwf Hadd.
  destruct (int64 (bound_quantity d db)) eqn:Hfit.
  - destruct (add_medicine_spec now d db Hwf Hfit)
      as (m0 & db0 & Hadd0 & _ & _ & _ & Hm).
    rewrite Hadd0 in Hadd. injection Hadd as _ <-.
    split; [|reflexivity]. unfold bound_quantity.
    destruct (find_by_exact_name _ _ db); subst m0; reflexivity.
  - rewrite (add_medicine_overflow now d db Hfit) in Hadd. discriminate.
Qed.

(** Whether it stores or raises, [add_medicine] keeps the schema and the
    rows of the other groups. *)
Lemma add_medicine_wf (now : datetime) (d : MedicineData.t) (db : Db) :
  wf db -> wf (fst (add_medicine now d db)).
Proof.
  intros Hwf. destruct (int64 (bound_quantity d db)) eqn:Hfit.
  - destruct (add_medicine_spec now d db Hwf Hfit)
      as (m & db' & Hadd & Hwf' & _).
    rewrite Hadd. exact Hwf'.
  - rewrite (add_medicine_overflow now d db Hfit). exact Hwf.
Qed.

Lemma add_medicine_frame (now : datetime) (d : MedicineData.t) (db : Db)
    (g : Z) :
  wf db -> g <> MedicineData.group_chat_id d ->
  filter (in_group g) (medicines (fst (add_medicine now d db)))
  = filter (in_group g) (medicines db).
Proof.
  intros Hwf Hg. destruct (int64 (bound_quantity d db)) eqn:Hfit.
  - destruct (add_medicine_spec now d db Hwf Hfit)
      as (m & db' & Hadd & _ & _ & Hfr & _).
    rewrite Hadd. apply Hfr. exact Hg.
  - rewrite (add_medicine_overflow now d db Hfit). reflexivity.
Qed.

(** C1. On a store that meets the schema, and with quantities to store
    that fit SQLite's 64-bit [INTEGER], two [add_medicine] calls with the
    same name (in any case) and group both succeed and return the same
    record id; the second record has the quantity of the first plus the
    second amount, that is, what the group held under the name before (zero
    for a new name) plus [qty1 + qty2]; its expiry and location are the new
    values where these are not null and the stored values otherwise; and it
    is the record now stored under the name. *)
Theorem upsert_twice_accumulates
    (now1 now2 : datetime) (d1 d2 : MedicineData.t) (db : Db) :
  wf db ->
  lower (MedicineData.name d1) = lower (MedicineData.name d2) ->
  MedicineData.group_chat_id d1 = MedicineData.group_chat_id d2 ->
  int64 (bound_quantity d1 db) = true ->
  int64 (bound_quantity d1 db + MedicineData.quantity d2) = true ->
  exists m1 db1 m2 db2,
    add_medicine now1 d1 db = (db1, Ok m1)
    /\ add_medicine now2 d2 db1 = (db2, Ok m2)
    /\ Medicine.id m2 = Medicine.id m1
    /\ Medicine.quantity m2 = Medicine.quantity m1 + MedicineData.quantity d2
    /\ Medicine.quantity m2
       = match find_by_exact_name (MedicineData.name d1)
                 (MedicineData.group_chat_id d1) db with
         | Some e => Medicine.quantity e
         | None => 0
         end + MedicineData.quantity d1 + MedicineData.quantity d2
    /\ Medicine.expiry_date m2
       = match MedicineData.expiry_date d2 with
         | Some x => Some x
         | None => Medicine.expiry_date m1
         end
    /\ Medicine.location m2
       = match MedicineData.location d2 with
         | Some x => Some x
         | None => Medicine.location m1
         end
    /\ find_by_exact_name (MedicineData.name d2)
         (MedicineData.group_chat_id d2) db2 = Some m2.
Proof.
  intros Hwf Hname Hgrp Hfit1 Hfit2.
  destruct (add_medicine_spec now1 d1 db Hwf Hfit1)
    as (m1 & db1 & Hadd1 & Hwf1 & Hfind1 & _ & Hm1).
  assert (Hfit : int64 (bound_quantity d2 db1) = true).
  { unfold bound_quantity at 1.
    rewrite <- Hgrp, <- (find_by_exact_name_nocase _ _ _ _ Hname), Hfind1.
    rewrite (proj1 (add_medicine_quantity now1 d1 db db1 m1 Hwf Hadd1)).
    exact Hfit2. }
  destruct (add_medicine_spec now2 d2 db1 Hwf1 Hfit)
    as (m2 & db2 & Hadd2 & _ & Hfind2 & _ & Hm2).
  rewrite <- Hgrp, <- (find_by_exact_name_nocase _ _ _ _ Hname), Hfind1 in Hm2.
  exists m1, db1, m2, db2. subst m2.
  split; [exact Hadd1|]. split; [exact Hadd2|].
  split; [reflexivity|]. split; [reflexivity|].
  split.
  - destruct (find_by_exact_name (MedicineData.name d1)
                (MedicineData.group_chat_id d1) db); subst m1; simpl; lia.
  - split; [|split; [|exact Hfind2]]; simpl; unfold coalesce.
    + destruct (MedicineData.expiry_date d2); reflexivity.
    + destruct (MedicineData.location d2); reflexivity.
Qed.

Lemma upsert_twice_accumulates_witness :
  let t1 := mk_datetime 2026 1 23 9 0 0 0 in
  let t2 := mk_datetime 2026 1 24 9 0 0 0 in
  let d1 := MedicineData.mk "Napa" 10 "tablets" None (Some "Kitchen Drawer")
              123456 "TestUser" 789012 in
  let d2 := MedicineData.mk "NAPA" 5 "tablets" (Some t2) None
              123456 "TestUser" 789012 in
  exists m1 db1 m2 db2,
    add_medicine t1 d1 empty_db = (db1, Ok m1)
    /\ add_medicine t2 d2 db1 = (db2, Ok m2)
    /\ Medicine.id m2 = Medicine.id m1
    /\ Medicine.quantity m2 = Medicine.quantity m1 + 5
    /\ Medicine.quantity m2 = 0 + 10 + 5
    /\ Medicine.expiry_date m2 = Some t2
    /\ Medicine.location m2 = Medicine.location m1
    /\ find_by_exact_name "NAPA" 789012 db2 = Some m2.
Proof.
  intros t1 t2 d1 d2.
  apply (upsert_twice_accumulates t1 t2 d1 d2 empty_db).
  - split; simpl; constructor.
  - reflexivity.
  - reflexivity.
  - reflexivity.
  - reflexivity.
Defined.

(** C1, beyond the range of an [INTEGER]. Each of the two quantities can be
    stored, and the first call stores it; their sum is above [2 ^ 63 - 1],
    and the second call ends with [OverflowError] and leaves the record with
    the first quantity. *)
Lemma upsert_twice_overflows :
  let t := mk_datetime 2026 1 23 9 0 0 0 in
  let d := MedicineData.mk "Napa" 9223372036854775805 "tablets" None None
             123456 "TestUser" 789012 in
  exists m1 db1,
    add_medicine t d empty_db = (db1, Ok m1)
    /\ Medicine.quantity m1 = 9223372036854775805
    /\ add_medicine t d db1 = (db1, Raise OverflowError)
    /\ find_by_exact_name "Napa" 789012 db1 = Some m1.
Proof.
  intros t d. eexists. eexists.
  split; [vm_compute; reflexivity|].
  split; [reflexivity|]. split; vm_compute; reflexivity.
Qed.

Lemma get_by_id_some (i g : Z) (db : Db) (m : Medicine.t) :
  get_by_id i g db = Some m ->
  In m (medicines db) /\ Medicine.id m = i /\ Medicine.group_chat_id m = g.
Proof.
  intros H. apply find_some in H. destruct H as [Hin Hp].
  apply andb_prop in Hp. destruct Hp as [Hi Hg].
  apply Z.eqb_eq in Hi. apply Z.eqb_eq in Hg. auto.
Qed.

Lemma get_by_id_update (i g : Z) (f : Medicine.t -> Medicine.t) (db : Db)
    (m : Medicine.t) :
  (forall x, Medicine.id (f x) = Medicine.id x) ->
  (forall x, Medicine.group_chat_id (f x) = Medicine.group_chat_id x) ->
  get_by_id i g db = Some m ->
  get_by_id i g (update_by_id i f db) = Some (f m).
Proof.
  intros Hid Hgrp Hget.
  destruct (get_by_id_some _ _ _ _ Hget) as (_ & Hi & _).
  unfold get_by_id, update_by_id in *. simpl.
  rewrite find_map_same.
  - rewrite Hget. simpl. rewrite Hi, Z.eqb_refl. reflexivity.
  - intros x. unfold in_group.
    destruct (Medicine.id x =? i) eqn:E; [rewrite Hid, Hgrp, E|rewrite E];
      reflexivity.
Qed.

(** C2. For a stored record and a change that would take its quantity below
    zero, [update_quantity] raises [InsufficientStockError] with the stored
    quantity and the absolute value of the change, and the store is what it
    was; for a change that gives a quantity from zero up to the largest
    [INTEGER] it stores the new quantity and returns the updated record; for
    a change that gives more it raises [OverflowError], and the store is what
    it was. *)
Theorem adjust_quantity_guarded
    (now : datetime) (i delta g : Z) (db : Db) (m : Medicine.t) :
  wf db ->
  get_by_id i g db = Some m ->
  (Medicine.quantity m + delta < 0 ->
   update_quantity now i delta g db
   = (db, Raise (InsufficientStockError (Medicine.quantity m) (Z.abs delta))))
  /\ (0 <= Medicine.quantity m + delta < 2 ^ 63 ->
      exists db' m',
        update_quantity now i delta g db = (db', Ok m')
        /\ m' = set_quantity (Medicine.quantity m + delta) now m
        /\ Medicine.quantity m' = Medicine.quantity m + delta
        /\ get_by_id i g db' = Some m')
  /\ (2 ^ 63 <= Medicine.quantity m + delta ->
      update_quantity now i delta g db = (db, Raise OverflowError)).
Proof.
  intros Hwf Hget.
  destruct (get_by_id_some _ _ _ _ Hget) as (Hin & Hi & Hg).
  unfold update_quantity. rewrite Hget. split_all; intros Hq.
  - apply Z.ltb_lt in Hq. rewrite Hq. reflexivity.
  - rewrite (proj2 (Z.ltb_ge _ _) (proj1 Hq)).
    rewrite (proj2 (int64_spec _)) by lia. cbn [negb].
    set (f := set_quantity (Medicine.quantity m + delta) now).
    exists (update_by_id i f db), (f m).
    split.
    + rewrite <- Hi.
      rewrite (medicine_by_id_update db m f (fun _ => eq_refl) Hwf Hin).
      reflexivity.
    + split; [reflexivity|]. split; [reflexivity|].
      apply get_by_id_update; auto.
  - rewrite (proj2 (Z.ltb_ge _ _)) by lia.
    rewrite (int64_above _ Hq). reflexivity.
Qed.

Lemma adjust_quantity_guarded_witness :
  let t := mk_datetime 2026 1 23 9 0 0 0 in
  let napa := Medicine.mk 1 "Napa" 3 "tablets" None None 123456 "TestUser" t
                789012 t in
  let db := mk_db [napa] 1 [] 0 in
  update_quantity t 1 (-10) 789012 db
  = (db, Raise (InsufficientStockError 3 (Z.abs (-10))))
  /\ (exists db' m',
        update_quantity t 1 (-2) 789012 db = (db', Ok m')
        /\ m' = set_quantity (3 + -2) t napa
        /\ Medicine.quantity m' = 3 + -2
        /\ get_by_id 1 789012 db' = Some m')
  /\ update_quantity t 1 (2 ^ 63) 789012 db = (db, Raise OverflowError).
Proof.
  intros t napa db.
  assert (Hwf : wf db).
  { split; simpl; repeat constructor; simpl; try lia; intros []. }
  split_all.
  - apply (proj1 (adjust_quantity_guarded t 1 (-10) 789012 db napa Hwf eq_refl)).
    simpl. lia.
  - apply (proj1 (proj2 (adjust_quantity_guarded t 1 (-2) 789012 db napa Hwf
                           eq_refl))).
    simpl. lia.
  - apply (proj2 (proj2 (adjust_quantity_guarded t 1 (2 ^ 63) 789012 db napa
                           Hwf eq_refl))).
    simpl. lia.
Defined.

(** C2, beyond the range of an [INTEGER]. The new quantity is not negative
    but above [2 ^ 63 - 1]: the call stores nothing and ends with
    [OverflowError]. *)
Lemma adjust_quantity_overflows :
  let t := mk_datetime 2026 1 23 9 0 0 0 in
  let napa := Medicine.mk 1 "Napa" 3 "tablets" None None 123456 "TestUser" t
                789012 t in
  let db := mk_db [napa] 1 [] 0 in
  0 <= Medicine.quantity napa + 9223372036854775805
  /\ update_quantity t 1 9223372036854775805 789012 db
     = (db, Raise OverflowError)
  /\ get_by_id 1 789012 db = Some napa.
Proof.
  intros t napa db. split_all; [simpl; lia | |]; vm_compute; reflexivity.
Qed.

(** ** Sorting *)

Section SortFacts.

Context {A : Type}.

Lemma insert_desc_perm (x : A * Z) (l : list (A * Z)) :
  Permutation (insert_desc x l) (x :: l).
Proof.
  induction l as [|y l IH]; simpl; [reflexivity|].
  destruct (snd x <? snd y); [|reflexivity].
  rewrite IH. apply perm_swap.
Qed.

Lemma sort_desc_perm (l : list (A * Z)) : Permutation (sort_desc l) l.
Proof.
  induction l as [|x l IH]; simpl; [reflexivity|].
  rewrite insert_desc_perm. constructor. exact IH.
Qed.

Lemma sort_desc_in (l : list (A * Z)) (x : A * Z) :
  In x (sort_desc l) <-> In x l.
Proof.
  split; apply Permutation_in;
    [apply sort_desc_perm | symmetry; apply sort_desc_perm].
Qed.

Lemma insert_desc_sorted (x : A * Z) (l : list (A * Z)) :
  descending l -> descending (insert_desc x l).
Proof.
  unfold descending.
  induction l as [|y l IH]; simpl; intros Hs.
  - repeat constructor.
  - inversion Hs as [|? ? Hl Hy]; subst.
    destruct (snd x <? snd y) eqn:E.
    + apply Z.ltb_lt in E. constructor; [exact (IH Hl)|].
      apply (Permutation_Forall (Permutation_sym (insert_desc_perm x l))).
      constructor; [lia | exact Hy].
    + apply Z.ltb_ge in E. constructor; [exact Hs|].
      constructor; [exact E|].
      revert Hy. apply Forall_impl. intros z Hz. lia.
Qed.

Lemma sort_desc_sorted (l : list (A * Z)) : descending (sort_desc l).
Proof.
  induction l as [|x l IH]; simpl.
  - constructor.
  - apply insert_desc_sorted. exact IH.
Qed.

(** Stability: among the candidates of one score, insertion puts the new
    one first and moves no other. *)
Lemma insert_desc_stable (s : Z) (x : A * Z) (l : list (A * Z)) :
  with_score s (insert_desc x l) = with_score s (x :: l).
Proof.
  unfold with_score.
  induction l as [|y l IH]; simpl; [reflexivity|].
  destruct (snd x <? snd y) eqn:E; [|reflexivity].
  apply Z.ltb_lt in E. simpl. rewrite IH. simpl.
  destruct (snd y =? s) eqn:Ey; destruct (snd x =? s) eqn:Ex; try reflexivity.
  apply Z.eqb_eq in Ey. apply Z.eqb_eq in Ex. lia.
Qed.

Lemma sort_desc_stable (s : Z) (l : list (A * Z)) :
  with_score s (sort_desc l) = with_score s l.
Proof.
  induction l as [|x l IH]; simpl; [reflexivity|].
  rewrite insert_desc_stable. unfold with_score in *. simpl.
  rewrite IH. reflexivity.
Qed.

(** The head of a descending list has the top score. *)
Lemma descending_head (x : A * Z) (l : list (A * Z)) :
  descending (x :: l) -> forall c, In c (x :: l) -> snd c <= snd x.
Proof.
  intros Hs c [<-|Hc]; [lia|].
  inversion Hs as [|? ? _ Hx]; subst.
  rewrite Forall_forall in Hx. exact (Hx c Hc).
Qed.

Lemma firstn_in {B : Type} (n : nat) (l : list B) (c : B) :
  In c (firstn n l) -> In c l.
Proof.
  intros H. rewrite <- (firstn_skipn n l). apply in_or_app. left. exact H.
Qed.

Lemma descending_firstn (n : nat) (l : list (A * Z)) :
  descending l -> descending (firstn n l).
Proof.
  unfold descending. revert n.
  induction l as [|x l IH]; intros [|n] Hs; simpl; try constructor.
  - inversion Hs; subst. apply IH. assumption.
  - inversion Hs as [|? ? _ Hx]; subst.
    rewrite Forall_forall in *. intros c Hc. apply Hx.
    exact (firstn_in _ _ _ Hc).
Qed.

Variable leb : A -> A -> bool.

Lemma insert_asc_perm (x : A) (l : list A) :
  Permutation (insert_asc leb x l) (x :: l).
Proof.
  induction l as [|y l IH]; simpl; [reflexivity|].
  destruct (leb x y); [reflexivity|].
  rewrite IH. apply perm_swap.
Qed.

Lemma sort_asc_perm (l : list A) : Permutation (sort_asc leb l) l.
Proof.
  induction l as [|x l IH]; simpl; [reflexivity|].
  rewrite insert_asc_perm. constructor. exact IH.
Qed.

End SortFacts.

(** ** Tenant isolation *)

Lemma filter_filter_weaker {A : Type} (p q : A -> bool) (l : list A) :
  (forall x, p x = true -> q x = true) ->
  filter p (filter q l) = filter p l.
Proof.
  intros H. induction l as [|x l IH]; simpl; [reflexivity|].
  destruct (q x) eqn:Eq; simpl.
  - rewrite IH. reflexivity.
  - destruct (p x) eqn:Ep; [|exact IH].
    rewrite (H x Ep) in Eq. discriminate.
Qed.

Lemma in_group_other (a b : Z) (m : Medicine.t) :
  a <> b -> in_group a m = true -> in_group b m = false.
Proof.
  unfold in_group. intros Hab Ha. apply Z.eqb_eq in Ha.
  apply Z.eqb_neq. congruence.
Qed.

Lemma update_quantity_frame (now : datetime) (i delta a b : Z) (db : Db) :
  wf db -> a <> b ->
  filter (in_group a) (medicines (fst (update_quantity now i delta b db)))
  = filter (in_group a) (medicines db).
Proof.
  intros Hwf Hab. unfold update_quantity.
  destruct (get_by_id i b db) as [e|] eqn:Eget; [|reflexivity].
  destruct (Medicine.quantity e + delta <? 0); [reflexivity|].
  destruct (negb (int64 _)); [reflexivity|].
  destruct (get_by_id_some _ _ _ _ Eget) as (Hin & Hi & Hg).
  simpl. rewrite <- Hi. apply update_by_id_frame; auto. congruence.
Qed.

Lemma delete_medicine_frame (i a b : Z) (db : Db) :
  a <> b ->
  filter (in_group a) (medicines (fst (delete_medicine i b db)))
  = filter (in_group a) (medicines db).
Proof.
  intros Hab. unfold delete_medicine.
  destruct (0 <? _)%nat; [|reflexivity]. simpl.
  apply filter_filter_weaker. intros x Hx.
  rewrite (in_group_other a b x Hab Hx), andb_false_r. reflexivity.
Qed.

(** The reads of a group are functions of the rows of the group. *)
Lemma reads_of_group_rows (fuzz_ratio : string -> string -> Z)
    (row_order : list Medicine.t -> list Medicine.t) (a : Z) (db db' : Db) :
  filter (in_group a) (medicines db') = filter (in_group a) (medicines db) ->
  (forall n, find_by_exact_name n a db' = find_by_exact_name n a db)
  /\ (forall i, get_by_id i a db' = get_by_id i a db)
  /\ (forall n th, find_by_name_fuzzy fuzz_ratio row_order n a th db'
                   = find_by_name_fuzzy fuzz_ratio row_order n a th db)
  /\ get_all a db' = get_all a db.
Proof.
  intros H. split_all.
  - intros n. unfold find_by_exact_name. rewrite !find_filter, H. reflexivity.
  - intros i. unfold get_by_id. rewrite !find_filter, H. reflexivity.
  - intros n th. unfold find_by_name_fuzzy, fetch_group. rewrite H. reflexivity.
  - unfold get_all. rewrite H. reflexivity.
Qed.

(** C4. Every operation of the store works within the group it is given.
    On a store that meets the schema and for two groups [a <> b]: a read
    under [a] (exact name, id, fuzzy name, list) returns records of [a] only;
    a name that only [b] holds is not found under [a]; [add_medicine],
    [update_quantity] and [delete_medicine] under [b] leave every record of
    [a] as it was, so that each read under [a] gives what it gave before,
    also when both groups hold the same name. *)
Theorem tenant_isolation
    (fuzz_ratio : string -> string -> Z)
    (row_order : list Medicine.t -> list Medicine.t) (a b : Z) (db : Db) :
  (forall rows x, In x (row_order rows) -> In x rows) ->
  wf db -> a <> b ->
  (forall n m, find_by_exact_name n a db = Some m ->
               Medicine.group_chat_id m = a)
  /\ (forall i m, get_by_id i a db = Some m -> Medicine.group_chat_id m = a)
  /\ (forall n th m s,
        In (m, s) (find_by_name_fuzzy fuzz_ratio row_order n a th db) ->
        Medicine.group_chat_id m = a)
  /\ (forall m, In m (get_all a db) -> Medicine.group_chat_id m = a)
  /\ (forall n,
        (forall m, In m (medicines db) ->
                   lower (Medicine.name m) = lower n ->
                   Medicine.group_chat_id m = b) ->
        find_by_exact_name n a db = None)
  /\ (forall now d db',
        MedicineData.group_chat_id d = b ->
        db' = fst (add_medicine now d db) ->
        filter (in_group a) (medicines db') = filter (in_group a) (medicines db)
        /\ find_by_exact_name (MedicineData.name d) a db'
           = find_by_exact_name (MedicineData.name d) a db)
  /\ (forall now i delta,
        filter (in_group a) (medicines (fst (update_quantity now i delta b db)))
        = filter (in_group a) (medicines db))
  /\ (forall i,
        filter (in_group a) (medicines (fst (delete_medicine i b db)))
        = filter (in_group a) (medicines db))
  /\ (forall db',
        filter (in_group a) (medicines db') = filter (in_group a) (medicines db) ->
        (forall n, find_by_exact_name n a db' = find_by_exact_name n a db)
        /\ (forall i, get_by_id i a db' = get_by_id i a db)
        /\ (forall n th, find_by_name_fuzzy fuzz_ratio row_order n a th db'
                         = find_by_name_fuzzy fuzz_ratio row_order n a th db)
        /\ get_all a db' = get_all a db).
Proof.
  intros Horder Hwf Hab. split_all.
  - intros n m H. apply (find_by_exact_name_some _ _ _ _ H).
  - intros i m H. apply (get_by_id_some _ _ _ _ H).
  - intros n th m s H. unfold find_by_name_fuzzy, candidates in H.
    apply (proj1 (sort_desc_in _ _)) in H.
    apply filter_In in H. destruct H as [H _].
    apply in_map_iff in H. destruct H as (x & Hx & Hin).
    injection Hx as -> _. apply Horder in Hin.
    apply filter_In in Hin. destruct Hin as [_ Hg].
    apply Z.eqb_eq in Hg. exact Hg.
  - intros m H. unfold get_all in H.
    apply (Permutation_in _ (sort_asc_perm _ _)) in H.
    apply filter_In in H. destruct H as [_ Hg].
    apply Z.eqb_eq in Hg. exact Hg.
  - intros n Honly.
    destruct (find_by_exact_name n a db) as [m|] eqn:E; [|reflexivity].
    destruct (find_by_exact_name_some _ _ _ _ E) as (Hin & Hn & Hg).
    specialize (Honly m Hin Hn). congruence.
  - intros now d db' Hd ->.
    assert (Hf : filter (in_group a)
                   (medicines (fst (add_medicine now d db)))
                 = filter (in_group a) (medicines db)).
    { apply add_medicine_frame; [exact Hwf | congruence]. }
    split; [exact Hf|].
    apply (reads_of_group_rows fuzz_ratio row_order a db _ Hf).
  - intros now i delta. apply update_quantity_frame; assumption.
  - intros i. apply delete_medicine_frame; assumption.
  - intros db' H. apply reads_of_group_rows. exact H.
Qed.

(** Proves [NoDup] of a list given in full. *)
Ltac nodup_concrete :=
  simpl; repeat (constructor; [simpl; intuition discriminate|]); constructor.

(** Proves the schema's constraints on a store given in full. *)
Ltac wf_concrete :=
  split; [simpl; repeat constructor; simpl; lia | nodup_concrete | nodup_concrete].

Lemma index_order_incl (rows : list Medicine.t) (x : Medicine.t) :
  In x (index_order rows) -> In x rows.
Proof.
  apply Permutation_in. apply sort_asc_perm.
Qed.

Lemma tenant_isolation_witness :
  let t := mk_datetime 2026 1 23 9 0 0 0 in
  let napa_b := Medicine.mk 1 "Napa" 10 "tablets" None None 5 "Bea" t 2 t in
  let napa_a := Medicine.mk 2 "NAPA" 4 "tablets" None None 6 "Abe" t 1 t in
  let sergel_b := Medicine.mk 3 "Sergel" 2 "tablets" None None 5 "Bea" t 2 t in
  let db := mk_db [napa_b; napa_a; sergel_b] 3 [] 0 in
  find_by_exact_name "sergel" 1 db = None
  /\ filter (in_group 1) (medicines (fst (update_quantity t 1 (-3) 2 db)))
     = [napa_a]
  /\ filter (in_group 1) (medicines (fst (delete_medicine 1 2 db))) = [napa_a].
Proof.
  intros t napa_b napa_a sergel_b db.
  assert (Hwf : wf db) by wf_concrete.
  assert (Hab : 1 <> 2) by lia.
  destruct (tenant_isolation sample_ratio index_order 1 2 db
              index_order_incl Hwf Hab)
    as (_ & _ & _ & _ & Honly & _ & Hupd & Hdel & _).
  split; [|split].
  - apply Honly. simpl. intros m [<-|[<-|[<-|[]]]]; simpl;
      intros H; try reflexivity; discriminate.
  - rewrite Hupd. reflexivity.
  - rewrite Hdel. reflexivity.
Defined.

(** ** Fuzzy search *)

Lemma permutation_filter {A : Type} (p : A -> bool) (l l' : list A) :
  Permutation l l' -> Permutation (filter p l) (filter p l').
Proof.
  induction 1 as [|x l l' _ IH|x y l|l l' l'' _ IH1 _ IH2]; simpl.
  - constructor.
  - destruct (p x); [constructor|]; exact IH.
  - destruct (p x), (p y); try reflexivity. apply perm_swap.
  - exact (perm_trans IH1 IH2).
Qed.

Lemma filter_of_map {A B : Type} (f : A -> B) (p : B -> bool) (l : list A) :
  filter p (map f l) = map f (filter (fun x => p (f x)) l).
Proof.
  induction l as [|x l IH]; simpl; [reflexivity|].
  destruct (p (f x)); simpl; rewrite IH; reflexivity.
Qed.

(** With [k] a key of the list, the rows that agree with [m] on [k] are [m]
    alone. *)
Lemma filter_unique {A K : Type} (k : A -> K) (p : A -> bool) (l : list A) (m : A) :
  NoDup (map k l) -> In m l ->
  (forall x, In x l -> p x = true -> k x = k m) ->
  p m = true ->
  filter p l = [m].
Proof.
  intros Hnd Hin Hp Hm.
  induction l as [|x l IH]; simpl in *; [contradiction|].
  inversion Hnd as [|? ? Hx Hl]; subst.
  assert (Hrest : forall y, In y l -> k y <> k x).
  { intros y Hy E. apply Hx. rewrite <- E. apply in_map. exact Hy. }
  destruct Hin as [->|Hin].
  - rewrite Hm. f_equal.
    assert (Hnone : Forall (fun y => p y = false) l).
    { apply Forall_forall. intros y Hy. destruct (p y) eqn:E; [|reflexivity].
      exfalso. exact (Hrest y Hy (Hp y (or_intror Hy) E)). }
    clear -Hnone. induction Hnone as [|y l Hy _ IH]; simpl;
      [reflexivity | rewrite Hy; exact IH].
  - destruct (p x) eqn:E.
    + exfalso. apply (Hrest m Hin). symmetry. apply Hp; auto.
    + apply IH; auto.
Qed.

Lemma nodup_map_filter {A K : Type} (k : A -> K) (p : A -> bool) (l : list A) :
  NoDup (map k l) -> NoDup (map k (filter p l)).
Proof.
  induction l as [|x l IH]; simpl; intros Hnd; [constructor|].
  inversion Hnd as [|? ? Hx Hl]; subst.
  destruct (p x); simpl; [constructor|]; auto.
  intros Hin. apply Hx. apply in_map_iff in Hin.
  destruct Hin as (y & Hy & Hin). apply filter_In in Hin.
  rewrite <- Hy. apply in_map. tauto.
Qed.

Lemma nodup_keys_fetched (row_order : list Medicine.t -> list Medicine.t)
    (g : Z) (db : Db) :
  (forall rows, Permutation (row_order rows) rows) ->
  wf db -> NoDup (map key (fetch_group row_order g db)).
Proof.
  intros Hperm Hwf. unfold fetch_group.
  apply (Permutation_NoDup
           (Permutation_map key (Permutation_sym (Hperm _)))).
  apply nodup_map_filter. exact (names_unique db Hwf).
Qed.

(** The schema's constraints hold on every store the repositories
    produce. *)
Lemma reachable_wf (db : Db) : reachable db -> wf db.
Proof.
  induction 1 as [|now d db _ IH|now i delta g db _ IH|i g db _ IH
                  |now i action u un g ch db _ IH].
  - exact wf_empty.
  - apply add_medicine_wf. exact IH.
  - unfold update_quantity.
    destruct (get_by_id i g db); [|exact IH].
    destruct (_ <? 0); [exact IH|].
    destruct (negb (int64 _)); [exact IH|]. simpl.
    apply wf_update_by_id; auto.
  - unfold delete_medicine. destruct (0 <? _)%nat; [|exact IH].
    destruct IH as [H1 H2 H3]. split; simpl.
    + apply Forall_forall. intros m Hm. apply filter_In in Hm.
      rewrite Forall_forall in H1. apply H1. tauto.
    + apply nodup_map_filter. exact H2.
    + apply nodup_map_filter. exact H3.
  - unfold ActivityLogRepository.log_activity.
    destruct (negb (int64_opt ch)); [exact IH|].
    destruct (action_ok action && medicine_exists i (medicines db));
      [|exact IH].
    destruct IH as [H1 H2 H3]. split; assumption.
Qed.

(** C5, as the code has it. [find_by_name_fuzzy] returns exactly the records
    of the group whose score reaches the threshold, each with its score, in
    descending order of score; candidates of equal score keep the order in
    which the store handed over the rows. With threshold 100, a matcher
    that gives 100 to equal strings only, and a query equal, up to case, to
    a name stored in the group, the result is that one record with score
    100. *)
Theorem fuzzy_search_sorted_stable
    (fuzz_ratio : string -> string -> Z)
    (row_order : list Medicine.t -> list Medicine.t)
    (name : string) (g threshold : Z) (db : Db) :
  (forall rows, Permutation (row_order rows) rows) ->
  let result := find_by_name_fuzzy fuzz_ratio row_order name g threshold db in
  Permutation result
    (candidates fuzz_ratio name threshold (filter (in_group g) (medicines db)))
  /\ (forall m s,
        In (m, s) result <->
        In m (medicines db)
        /\ Medicine.group_chat_id m = g
        /\ s = fuzz_ratio (lower name) (lower (Medicine.name m))
        /\ threshold <= s)
  /\ descending result
  /\ (forall s,
        with_score s result
        = with_score s
            (candidates fuzz_ratio name threshold (fetch_group row_order g db)))
  /\ (forall m,
        (forall a b, fuzz_ratio a b <= 100) ->
        (forall a b, fuzz_ratio a b = 100 <-> a = b) ->
        wf db ->
        In m (medicines db) ->
        Medicine.group_chat_id m = g ->
        lower name = lower (Medicine.name m) ->
        find_by_name_fuzzy fuzz_ratio row_order name g 100 db = [(m, 100)]).
Proof.
  intros Hperm result.
  assert (Hres : Permutation result
            (candidates fuzz_ratio name threshold
               (filter (in_group g) (medicines db)))).
  { unfold result, find_by_name_fuzzy, candidates, fetch_group.
    rewrite sort_desc_perm. apply permutation_filter. apply Permutation_map.
    apply Hperm. }
  split; [exact Hres|]. split; [|split; [|split]].
  - intros m s. split.
    + intros H. apply (Permutation_in _ Hres) in H.
      apply filter_In in H. destruct H as [H Hth].
      apply in_map_iff in H. destruct H as (x & Hx & Hin).
      injection Hx as -> <-. apply filter_In in Hin. destruct Hin as [Hin Hg].
      apply Z.eqb_eq in Hg. apply Z.leb_le in Hth. simpl in Hth. auto.
    + intros (Hin & Hg & -> & Hth).
      apply (Permutation_in _ (Permutation_sym Hres)).
      apply filter_In. split.
      * apply in_map_iff. exists m. split; [reflexivity|].
        apply filter_In. split; [exact Hin|]. apply Z.eqb_eq. exact Hg.
      * apply Z.leb_le. exact Hth.
  - apply sort_desc_sorted.
  - intros s. apply sort_desc_stable.
  - intros m Hmax Hexact Hwf Hin Hg Hname.
    unfold find_by_name_fuzzy, candidates. rewrite filter_of_map.
    assert (Hfetched : In m (fetch_group row_order g db)).
    { apply (Permutation_in _ (Permutation_sym (Hperm _))).
      apply filter_In. split; [exact Hin|]. apply Z.eqb_eq. exact Hg. }
    assert (Hgroup : forall x, In x (fetch_group row_order g db) ->
                               Medicine.group_chat_id x = g).
    { intros x Hx. apply (Permutation_in _ (Hperm _)) in Hx.
      apply filter_In in Hx. apply Z.eqb_eq. tauto. }
    rewrite (filter_unique key _ _ m
               (nodup_keys_fetched row_order g db Hperm Hwf) Hfetched).
    + simpl. unfold scored. rewrite Hname.
      rewrite (proj2 (Hexact _ _) eq_refl). reflexivity.
    + intros x Hx Hscore. simpl in Hscore. apply Z.leb_le in Hscore.
      pose proof (Hmax (lower name) (lower (Medicine.name x))) as Hle.
      assert (E : fuzz_ratio (lower name) (lower (Medicine.name x)) = 100)
        by lia.
      apply Hexact in E. unfold key.
      rewrite (Hgroup x Hx), Hg, <- E, Hname. reflexivity.
    + simpl. rewrite Hname, (proj2 (Hexact _ _) eq_refl). reflexivity.
Qed.

Lemma sample_ratio_max (a b : string) : sample_ratio a b <= 100.
Proof.
  unfold sample_ratio.
  destruct (String.eqb a b); [lia|].
  destruct (String.eqb _ _); lia.
Qed.

Lemma sample_ratio_exact (a b : string) : sample_ratio a b = 100 <-> a = b.
Proof.
  unfold sample_ratio. destruct (String.eqb a b) eqn:E.
  - apply String.eqb_eq in E. tauto.
  - apply String.eqb_neq in E.
    destruct (String.eqb _ _); split; intros H; try discriminate; contradiction.
Qed.

Lemma index_order_perm (rows : list Medicine.t) :
  Permutation (index_order rows) rows.
Proof.
  apply sort_asc_perm.
Qed.

Lemma fuzzy_search_sorted_stable_witness :
  let t := mk_datetime 2026 1 23 9 0 0 0 in
  let napc := Medicine.mk 1 "Napc" 10 "tablets" None None 5 "Bea" t 7 t in
  let napa := Medicine.mk 2 "Napa" 4 "tablets" None None 5 "Bea" t 7 t in
  let other := Medicine.mk 3 "Napa" 2 "tablets" None None 6 "Abe" t 8 t in
  let db := mk_db [napc; napa; other] 3 [] 0 in
  find_by_name_fuzzy sample_ratio index_order "NAPA" 7 100 db = [(napa, 100)]
  /\ descending (find_by_name_fuzzy sample_ratio index_order "NAPA" 7 50 db).
Proof.
  intros t napc napa other db.
  assert (Hwf : wf db) by wf_concrete.
  destruct (fuzzy_search_sorted_stable sample_ratio index_order "NAPA" 7 50 db
              index_order_perm) as (_ & _ & Hsorted & _ & Hexact).
  split; [|exact Hsorted].
  apply (Hexact napa sample_ratio_max sample_ratio_exact Hwf).
  - simpl. tauto.
  - reflexivity.
  - reflexivity.
Defined.

(** When the store hands over the rows by rowid, as a table scan does, ties
    do keep the order of insertion. *)
Lemma ties_follow_rowid_order (fuzz_ratio : string -> string -> Z)
    (name : string) (g threshold : Z) (db : Db) :
  ties_in_insertion_order fuzz_ratio rowid_order name g threshold db.
Proof.
  intros s. apply sort_desc_stable.
Qed.

(** C5, against insertion order. "Napc" is added before "Napb"; both score
    75 against "Napa". The store serves the rows of the group from its index
    on (group, name), "Napb" first, and the stable sort keeps that order:
    the tie comes out as "Napb", "Napc", not in the order of insertion. *)
Lemma fuzzy_ties_not_in_insertion_order :
  let t := mk_datetime 2026 1 23 9 0 0 0 in
  let napc := MedicineData.mk "Napc" 10 "tablets" None None 5 "Bea" 7 in
  let napb := MedicineData.mk "Napb" 4 "tablets" None None 5 "Bea" 7 in
  let db := fst (add_medicine t napb (fst (add_medicine t napc empty_db))) in
  map (fun c => (Medicine.name (fst c), snd c))
    (find_by_name_fuzzy sample_ratio index_order "Napa" 7 50 db)
  = [("Napb", 75); ("Napc", 75)]
  /\ map Medicine.name (medicines db) = ["Napc"; "Napb"]
  /\ ~ ties_in_insertion_order sample_ratio index_order "Napa" 7 50 db.
Proof.
  intros t napc napb db.
  split; [run_model|]. split; [run_model|].
  intros H. specialize (H 75). vm_compute in H. discriminate.
Qed.

(** ** Resolution *)

Import Commands.

Lemma datetime_eq_dec (x y : datetime) : {x = y} + {x <> y}.
Proof.
  decide equality; apply Z.eq_dec.
Qed.

Lemma candidate_eq_dec (x y : Medicine.t * Z) : {x = y} + {x <> y}.
Proof.
  assert (Hopt : forall (B : Type), (forall a b : B, {a = b} + {a <> b}) ->
                 forall a b : option B, {a = b} + {a <> b})
    by (intros; decide equality).
  decide equality; [apply Z.eq_dec|].
  decide equality;
    try apply Z.eq_dec; try apply string_dec; try apply datetime_eq_dec;
    apply Hopt; [apply string_dec | apply datetime_eq_dec].
Qed.

Lemma matches_reach_threshold (fuzz_ratio : string -> string -> Z)
    (row_order : list Medicine.t -> list Medicine.t)
    (name : string) (g threshold : Z) (db : Db) (c : Medicine.t * Z) :
  In c (find_by_name_fuzzy fuzz_ratio row_order name g threshold db) ->
  threshold <= snd c
  /\ snd c = fuzz_ratio (lower name) (lower (Medicine.name (fst c))).
Proof.
  intros H. unfold find_by_name_fuzzy, candidates in H.
  apply (proj1 (sort_desc_in _ _)) in H.
  apply filter_In in H. destruct H as [H Hth].
  apply Z.leb_le in Hth. split; [exact Hth|].
  apply in_map_iff in H. destruct H as (x & <- & _). reflexivity.
Qed.

(** C6. Take the matches that [find_by_name_fuzzy] returns. If one candidate
    has score 100 and every other scores lower, the use and the delete
    handler both go on with that candidate. If either handler stops to ask,
    there are two candidates or more, all at or above the threshold, the
    best of them scores below 100, and what it lists are the first five at
    most, in descending order of score. *)
Theorem exact_candidate_resolves
    (fuzz_ratio : string -> string -> Z)
    (row_order : list Medicine.t -> list Medicine.t)
    (name : string) (g threshold : Z) (db : Db) :
  (forall a b, fuzz_ratio a b <= 100) ->
  let matches := find_by_name_fuzzy fuzz_ratio row_order name g threshold db in
  (forall m,
      In (m, 100) matches ->
      (forall c, In c matches -> c <> (m, 100) -> snd c < 100) ->
      resolve_use matches = Resolved m 100
      /\ resolve_delete matches = Resolved m 100)
  /\ (forall listed,
        resolve_use matches = Ambiguous listed
        \/ resolve_delete matches = Ambiguous listed ->
        (2 <= List.length matches)%nat
        /\ (exists top rest,
              matches = top :: rest
              /\ snd top < 100
              /\ forall c, In c matches -> snd c <= snd top)
        /\ (forall c, In c matches -> threshold <= snd c)
        /\ listed = firstn 5 matches
        /\ (List.length listed <= 5)%nat
        /\ descending listed).
Proof.
  intros Hmax matches.
  assert (Hsorted : descending matches) by apply sort_desc_sorted.
  assert (Hin : forall c, In c matches ->
                  threshold <= snd c /\ snd c <= 100).
  { intros c Hc.
    destruct (matches_reach_threshold _ _ _ _ _ _ _ Hc) as [Hth Hscore].
    split; [exact Hth | rewrite Hscore; apply Hmax]. }
  clearbody matches. split.
  - intros m Hm Hothers.
    destruct matches as [|h rest]; [contradiction|].
    pose proof (descending_head h rest Hsorted (m, 100) Hm) as Htop.
    simpl in Htop.
    destruct (candidate_eq_dec h (m, 100)) as [->|Hne].
    + unfold resolve_use, resolve_delete. simpl.
      rewrite andb_false_r. destruct rest; auto.
    + specialize (Hothers h (or_introl eq_refl) Hne). lia.
  - intros listed Hamb.
    destruct matches as [|h rest].
    { destruct Hamb as [H|H]; discriminate. }
    assert (Hfacts : (2 <= List.length (h :: rest))%nat /\ snd h < 100
                     /\ listed = firstn 5 (h :: rest)).
    { destruct (Hin h (or_introl eq_refl)) as [_ Hle].
      destruct Hamb as [H|H].
      - unfold resolve_use in H.
        destruct (List.length (h :: rest) =? 1)%nat eqn:Elen; [discriminate|].
        destruct (snd h =? 100) eqn:Etop; [discriminate|].
        apply Nat.eqb_neq in Elen. apply Z.eqb_neq in Etop.
        injection H as <-. simpl in *. repeat split; lia.
      - unfold resolve_delete in H.
        destruct (1 <? List.length (h :: rest))%nat eqn:Elen;
          [|discriminate].
        destruct (snd h <? 100) eqn:Etop; [|discriminate].
        apply Nat.ltb_lt in Elen. apply Z.ltb_lt in Etop.
        injection H as <-. repeat split; [lia | exact Etop]. }
    destruct Hfacts as (Hlen & Htop & ->).
    split; [exact Hlen|]. split.
    { exists h, rest. split; [reflexivity|]. split; [exact Htop|].
      apply descending_head. exact Hsorted. }
    split; [intros c Hc; apply (Hin c Hc)|].
    split; [reflexivity|].
    split; [apply firstn_le_length | apply descending_firstn; exact Hsorted].
Qed.

Lemma exact_candidate_resolves_witness :
  let t := mk_datetime 2026 1 23 9 0 0 0 in
  let napc := Medicine.mk 1 "Napc" 10 "tablets" None None 5 "Bea" t 7 t in
  let napa := Medicine.mk 2 "Napa" 4 "tablets" None None 5 "Bea" t 7 t in
  let napb := Medicine.mk 3 "Napb" 2 "tablets" None None 5 "Bea" t 7 t in
  let db := mk_db [napc; napa; napb] 3 [] 0 in
  let matches := find_by_name_fuzzy sample_ratio index_order "napa" 7 50 db in
  resolve_use matches = Resolved napa 100
  /\ resolve_delete matches = Resolved napa 100.
Proof.
  intros t napc napa napb db matches.
  apply (proj1 (exact_candidate_resolves sample_ratio index_order "napa" 7 50
                  db sample_ratio_max) napa).
  - vm_compute. tauto.
  - intros c Hc Hne. vm_compute in Hc.
    destruct Hc as [<-|[<-|[<-|[]]]]; simpl; try lia.
    exfalso. apply Hne. reflexivity.
Defined.

(** ** Concurrent adjustments *)

Import Interleaving.

(** The three statements of [update_quantity], run without interruption,
    are [update_quantity]. *)
Lemma run_alone_is_update_quantity (c : Call) (db : Db) :
  run_alone c db
  = (Returned (snd (update_quantity (now c) (medicine_id c) (delta c)
                      (group_chat_id c) db)),
     fst (update_quantity (now c) (medicine_id c) (delta c)
            (group_chat_id c) db)).
Proof.
  unfold run_alone, update_quantity. simpl.
  destruct (get_by_id (medicine_id c) (group_chat_id c) db) as [row|];
    [|reflexivity].
  destruct (Medicine.quantity row + delta c <? 0); [reflexivity|].
  cbn [step]. destruct (negb (int64 _)); reflexivity.
Qed.

(** Two calls on one record, each within the stock on its own and with a
    result that fits an [INTEGER]: when both run their [SELECT] before either
    runs its [UPDATE], both see the same quantity and pass the check, and the
    second [UPDATE] overwrites the first. *)
Lemma stale_read_race (c1 c2 : Call) (db : Db) (m : Medicine.t) :
  wf db ->
  medicine_id c2 = medicine_id c1 ->
  group_chat_id c2 = group_chat_id c1 ->
  get_by_id (medicine_id c1) (group_chat_id c1) db = Some m ->
  0 <= Medicine.quantity m + delta c1 < 2 ^ 63 ->
  0 <= Medicine.quantity m + delta c2 < 2 ^ 63 ->
  run c1 c2 [First; Second] db
  = mk_world (AtUpdate (Medicine.quantity m) (Medicine.quantity m + delta c1))
      (AtUpdate (Medicine.quantity m) (Medicine.quantity m + delta c2)) db
  /\ exists db',
       run c1 c2 [First; Second; First; Second; First; Second] db
       = mk_world
           (Returned (Ok (set_quantity (Medicine.quantity m + delta c2)
                            (now c2) m)))
           (Returned (Ok (set_quantity (Medicine.quantity m + delta c2)
                            (now c2) m)))
           db'
       /\ get_by_id (medicine_id c1) (group_chat_id c1) db'
          = Some (set_quantity (Medicine.quantity m + delta c2) (now c2) m).
Proof.
  intros Hwf Hid Hgrp Hget H1 H2.
  destruct (get_by_id_some _ _ _ _ Hget) as (Hin & Hi & Hg).
  assert (Hs1 : step c1 AtSelect db
                = (AtUpdate (Medicine.quantity m)
                     (Medicine.quantity m + delta c1), db)).
  { simpl. rewrite Hget. rewrite (proj2 (Z.ltb_ge _ _) (proj1 H1)).
    reflexivity. }
  assert (Hs2 : step c2 AtSelect db
                = (AtUpdate (Medicine.quantity m)
                     (Medicine.quantity m + delta c2), db)).
  { simpl. rewrite Hid, Hgrp, Hget. rewrite (proj2 (Z.ltb_ge _ _) (proj1 H2)).
    reflexivity. }
  assert (Hboth : run c1 c2 [First; Second] db
                  = mk_world
                      (AtUpdate (Medicine.quantity m)
                         (Medicine.quantity m + delta c1))
                      (AtUpdate (Medicine.quantity m)
                         (Medicine.quantity m + delta c2)) db).
  { unfold run, start. cbn [fold_left step_world first second store].
    rewrite Hs1. cbn [first second store]. rewrite Hs2. reflexivity. }
  split; [exact Hboth|].
  set (f1 := set_quantity (Medicine.quantity m + delta c1) (now c1)).
  set (f2 := set_quantity (Medicine.quantity m + delta c2) (now c2)).
  set (db1 := update_by_id (medicine_id c1) f1 db).
  assert (Hwf1 : wf db1) by (apply wf_update_by_id; auto).
  assert (Hget1 : get_by_id (medicine_id c1) (group_chat_id c1) db1
                  = Some (f1 m)) by (apply get_by_id_update; auto).
  destruct (get_by_id_some _ _ _ _ Hget1) as (Hin1 & Hi1 & _).
  assert (Hfetch : medicine_by_id (medicine_id c1)
                     (update_by_id (medicine_id c1) f2 db1) = Some (f2 (f1 m))).
  { rewrite <- Hi1 at 1 2.
    apply (medicine_by_id_update db1 (f1 m) f2 (fun _ => eq_refl) Hwf1 Hin1). }
  exists (update_by_id (medicine_id c1) f2 db1).
  split.
  - change [First; Second; First; Second; First; Second]
      with ([First; Second] ++ [First; Second; First; Second])%list.
    unfold run in *. rewrite fold_left_app, Hboth.
    cbn [fold_left step_world step first second store].
    rewrite (proj2 (int64_spec (Medicine.quantity m + delta c1))) by lia.
    cbn [negb first second store step].
    rewrite (proj2 (int64_spec (Medicine.quantity m + delta c2))) by lia.
    cbn [negb first second store step].
    rewrite Hid. fold f1 f2 db1. rewrite Hfetch. reflexivity.
  - apply (get_by_id_update _ _ f2 db1 (f1 m)); auto.
Qed.

Lemma stale_read_race_witness :
  let t := mk_datetime 2026 1 23 9 0 0 0 in
  let napa := Medicine.mk 1 "Napa" 10 "tablets" None None 5 "Bea" t 7 t in
  let db := mk_db [napa] 1 [] 0 in
  let c := mk_call t 1 (-8) 7 in
  run c c [First; Second] db = mk_world (AtUpdate 10 2) (AtUpdate 10 2) db.
Proof.
  intros t napa db c.
  assert (Hwf : wf db) by wf_concrete.
  apply (proj1 (stale_read_race c c db napa Hwf eq_refl eq_refl eq_refl
                  ltac:(simpl; lia) ltac:(simpl; lia))).
Defined.

(** C7. The code does not serialize two calls on one record. With 10 in
    stock and two uses of 8 in flight, the schedule that lets both calls
    read before either writes has both see 10, both pass the check and both
    return a record with 2 left; run one after the other, the second call
    is refused with 2 available and 8 requested. *)
Theorem update_quantity_not_serialized :
  let t := mk_datetime 2026 1 23 9 0 0 0 in
  let napa := Medicine.mk 1 "Napa" 10 "tablets" None None 5 "Bea" t 7 t in
  let db := mk_db [napa] 1 [] 0 in
  let c := mk_call t 1 (-8) 7 in
  let left := set_quantity 2 t napa in
  run c c [First; Second] db = mk_world (AtUpdate 10 2) (AtUpdate 10 2) db
  /\ run c c [First; Second; First; Second; First; Second] db
     = mk_world (Returned (Ok left)) (Returned (Ok left)) (mk_db [left] 1 [] 0)
  /\ run c c [First; First; First; Second; Second; Second] db
     = mk_world (Returned (Ok left))
         (Returned (Raise (InsufficientStockError 2 8))) (mk_db [left] 1 [] 0).
Proof.
  intros t napa db c left. split_all; run_model.
Qed.

(** ** The activity ledger *)

Import DateTime ActivityLogRepository.

Lemma compare_common_prefix (d x y : string) :
  String.compare (d ++ x) (d ++ y) = String.compare x y.
Proof.
  induction d as [|c d IH]; simpl; [reflexivity|].
  unfold Ascii.compare. rewrite N.compare_refl. exact IH.
Qed.

(** The stored text has a space where the ISO text of the cutoff has a [T],
    and a space sorts first: an entry dated on the day of the cutoff is below
    the cutoff for the comparison of [get_stats], at any time of that day. *)
Lemma cutoff_day_not_in_window (g : Z) (cutoff_date : datetime) (a : Activity.t) :
  date_text (Activity.timestamp a) = date_text cutoff_date ->
  in_window g (isoformat cutoff_date) a = false.
Proof.
  intros Hday. unfold in_window, text_ge, sqlite_timestamp, isoformat.
  rewrite Hday. unfold String.leb. rewrite compare_common_prefix. simpl.
  apply andb_false_r.
Qed.

Lemma cutoff_day_not_in_window_witness :
  in_window 789012 (isoformat (mk_datetime 2026 10 4 12 0 0 250000))
    (Activity.mk 1 1 "added" (Some 10) 123456 "User1"
       (mk_datetime 2026 10 4 18 0 0 0) 789012)
  = false.
Proof.
  apply cutoff_day_not_in_window. reflexivity.
Defined.

(** C8. Three activities, one added, one used, one searched, all within the
    30 days before the call; the first was logged on the calendar day of
    the cutoff, six hours after the cutoff's time of day. [get_stats]
    leaves it out: it reports 2 activities and no count for "added". *)
Theorem stats_window_misses_cutoff_day :
  let g := 789012 in
  let napa := MedicineData.mk "Napa" 10 "tablets" None None 123456 "User1" g in
  let t1 := mk_datetime 2026 10 4 18 0 0 0 in
  let t2 := mk_datetime 2026 10 20 9 30 0 0 in
  let t3 := mk_datetime 2026 11 1 8 15 0 0 in
  let now := mk_datetime 2026 11 3 12 0 0 250000 in
  let db0 := fst (add_medicine t1 napa empty_db) in
  let db1 := fst (log_activity t1 1 "added" 123456 "User1" g (Some 10) db0) in
  let db2 := fst (log_activity t2 1 "used" 123456 "User1" g (Some (-2)) db1) in
  let db3 := fst (log_activity t3 1 "searched" 789012 "User2" g None db2) in
  map Activity.action (activity_log db3) = ["added"; "used"; "searched"]
  /\ minus_days now 30 = Some (mk_datetime 2026 10 4 12 0 0 250000)
  /\ forallb (fun a => DateTime.leb (mk_datetime 2026 10 4 12 0 0 250000)
                         (Activity.timestamp a)
                       && DateTime.leb (Activity.timestamp a) now)
       (activity_log db3) = true
  /\ get_stats now g 30 db3
     = Ok (mk_stats 2 [("used", 1); ("searched", 1)]
             [("User1", 1); ("User2", 1)] [("Napa", 1)] 30)
  /\ dict_get "added" [("used", 1); ("searched", 1)] = None.
Proof.
  intros g napa t1 t2 t3 now db0 db1 db2 db3. split_all; run_model.
Qed.

(** * Further properties of the store *)

Lemma medicine_exists_iff (i : Z) (rows : list Medicine.t) :
  medicine_exists i rows = true <-> In i (map Medicine.id rows).
Proof.
  unfold medicine_exists. rewrite existsb_exists, in_map_iff.
  split; intros (m & H1 & H2).
  - apply Z.eqb_eq in H2. exists m. auto.
  - exists m. split; [exact H2 | apply Z.eqb_eq; exact H1].
Qed.

Lemma update_by_id_ids (i : Z) (f : Medicine.t -> Medicine.t) (db : Db) :
  (forall m, Medicine.id (f m) = Medicine.id m) ->
  map Medicine.id (medicines (update_by_id i f db))
  = map Medicine.id (medicines db).
Proof.
  intros Hid. unfold update_by_id. simpl. rewrite map_map.
  apply map_ext. intros m. destruct (Medicine.id m =? i); [apply Hid|reflexivity].
Qed.

(** [add_medicine] leaves the ledger alone and keeps every id in use. *)
Lemma add_medicine_ledger (now : datetime) (d : MedicineData.t) (db : Db) :
  activity_log (fst (add_medicine now d db)) = activity_log db
  /\ activity_log_seq (fst (add_medicine now d db)) = activity_log_seq db
  /\ forall i, In i (map Medicine.id (medicines db)) ->
               In i (map Medicine.id (medicines (fst (add_medicine now d db)))).
Proof.
  unfold add_medicine.
  destruct (find_by_exact_name _ _ db) as [e|].
  - destruct (negb (int64 _)); [cbn [fst]; auto|].
    cbn [fst]. split; [reflexivity|]. split; [reflexivity|].
    intros i Hi. rewrite update_by_id_ids; [exact Hi | reflexivity].
  - unfold insert_medicine. destruct (negb (int64 _)); [cbn [fst]; auto|].
    destruct (unique_ok _ _ _); simpl.
    + split; [reflexivity|]. split; [reflexivity|].
      intros i Hi. rewrite map_app. apply in_or_app. left. exact Hi.
    + auto.
Qed.

Lemma update_quantity_ledger (now : datetime) (i delta g : Z) (db : Db) :
  activity_log (fst (update_quantity now i delta g db)) = activity_log db
  /\ activity_log_seq (fst (update_quantity now i delta g db))
     = activity_log_seq db
  /\ map Medicine.id (medicines (fst (update_quantity now i delta g db)))
     = map Medicine.id (medicines db).
Proof.
  unfold update_quantity. destruct (get_by_id i g db); [|auto].
  destruct (_ <? 0); [auto|]. destruct (negb (int64 _)); [auto|]. cbn [fst].
  split; [reflexivity|]. split; [reflexivity|].
  apply update_by_id_ids. reflexivity.
Qed.

Lemma ledger_ok_same_ledger (db db' : Db) :
  activity_log db' = activity_log db ->
  activity_log_seq db' = activity_log_seq db ->
  (forall i, In i (map Medicine.id (medicines db)) ->
             In i (map Medicine.id (medicines db'))) ->
  ledger_ok db -> ledger_ok db'.
Proof.
  intros Hlog Hseq Hids [H1 H2 H3 H4].
  split; rewrite Hlog; try rewrite Hseq; try assumption.
  revert H4. apply Forall_impl. intros a Ha.
  apply medicine_exists_iff. apply Hids. apply medicine_exists_iff. exact Ha.
Qed.

Lemma ledger_ok_delete (i g : Z) (db : Db) :
  ledger_ok db -> ledger_ok (fst (delete_medicine i g db)).
Proof.
  intros Hok. unfold delete_medicine.
  destruct (0 <? _)%nat; [|exact Hok]. destruct Hok as [H1 H2 H3 H4].
  split; simpl.
  - apply Forall_forall. intros a Ha. apply filter_In in Ha.
    rewrite Forall_forall in H1. apply H1. tauto.
  - apply nodup_map_filter. exact H2.
  - apply Forall_forall. intros a Ha. apply filter_In in Ha.
    rewrite Forall_forall in H3. apply H3. tauto.
  - apply Forall_forall. intros a Ha. apply filter_In in Ha.
    destruct Ha as [Ha Hne]. rewrite Forall_forall in H4.
    specialize (H4 a Ha). unfold medicine_exists in *.
    apply existsb_exists in H4. destruct H4 as (m & Hm & Hid).
    apply existsb_exists. exists m. split; [|exact Hid].
    apply filter_In. split; [exact Hm|].
    apply Z.eqb_eq in Hid. rewrite Hid.
    apply negb_true_iff in Hne. rewrite Hne. reflexivity.
Qed.

Lemma ledger_ok_log (now : datetime) (i : Z) (action : string) (u : Z)
    (un : string) (g : Z) (ch : option Z) (db : Db) :
  ledger_ok db ->
  ledger_ok (fst (ActivityLogRepository.log_activity now i action u un g ch db)).
Proof.
  intros Hok. unfold ActivityLogRepository.log_activity.
  destruct (negb (int64_opt ch)); [exact Hok|].
  destruct (action_ok action && medicine_exists i (medicines db)) eqn:E;
    [|exact Hok].
  apply andb_prop in E. destruct E as [Ea Em]. destruct Hok as [H1 H2 H3 H4].
  split; simpl.
  - apply Forall_app. split.
    + revert H1. apply Forall_impl. intros; lia.
    + constructor; [simpl; lia | constructor].
  - rewrite map_app. simpl.
    apply NoDup_app; [exact H2 | repeat constructor; intros [] |].
    intros k Hk [<-|[]]. apply in_map_iff in Hk.
    destruct Hk as (x & Hid & Hx). rewrite Forall_forall in H1.
    specialize (H1 x Hx). simpl in H1. lia.
  - apply Forall_app. split; [exact H3|]. constructor; [exact Ea|constructor].
  - apply Forall_app. split; [exact H4|]. constructor; [exact Em|constructor].
Qed.

(** X1. Every store that the repositories produce from the empty tables
    meets the constraints of the schema: medicine ids are distinct and come
    from the counter, a name occurs once in a group whatever its case, ledger
    ids are distinct, every ledger action is one of the four kinds, and every
    ledger entry refers to a medicine that is still stored. *)
Theorem reachable_store_invariants (db : Db) :
  reachable db -> wf db /\ ledger_ok db.
Proof.
  intros Hr. split; [exact (reachable_wf db Hr)|].
  induction Hr as [|now d db _ IH|now i delta g db _ IH|i g db _ IH
                   |now i action u un g ch db _ IH].
  - split; simpl; constructor.
  - destruct (add_medicine_ledger now d db) as (H1 & H2 & H3).
    exact (ledger_ok_same_ledger db _ H1 H2 H3 IH).
  - destruct (update_quantity_ledger now i delta g db) as (H1 & H2 & H3).
    apply (ledger_ok_same_ledger db _ H1 H2); [|exact IH].
    intros k Hk. rewrite H3. exact Hk.
  - apply ledger_ok_delete. exact IH.
  - apply ledger_ok_log. exact IH.
Qed.

Lemma reachable_store_invariants_witness :
  let t := mk_datetime 2026 1 23 9 0 0 0 in
  let napa := MedicineData.mk "Napa" 10 "tablets" None None 5 "Bea" 7 in
  let db1 := fst (add_medicine t napa empty_db) in
  let db2 := fst (ActivityLogRepository.log_activity t 1 "added" 5 "Bea" 7
                    (Some 10) db1) in
  let db3 := fst (update_quantity t 1 (-4) 7 db2) in
  wf db3 /\ ledger_ok db3.
Proof.
  intros t napa db1 db2 db3.
  apply reachable_store_invariants.
  apply reach_update. apply reach_log. apply reach_add. apply reach_empty.
Defined.

(** X2. The stock never goes below zero: on a store without negative
    quantities, [update_quantity] with any change, [add_medicine] with an
    amount that is not negative, and [delete_medicine] leave a store without
    negative quantities. *)
Theorem stock_never_negative (db : Db) :
  stock_nonneg db ->
  (forall now i delta g,
      stock_nonneg (fst (update_quantity now i delta g db)))
  /\ (forall now d,
        0 <= MedicineData.quantity d ->
        stock_nonneg (fst (add_medicine now d db)))
  /\ (forall i g, stock_nonneg (fst (delete_medicine i g db))).
Proof.
  unfold stock_nonneg. intros Hdb. split_all.
  - intros now i delta g. unfold update_quantity.
    destruct (get_by_id i g db) as [row|]; [|exact Hdb].
    destruct (Medicine.quantity row + delta <? 0) eqn:E; [exact Hdb|].
    destruct (negb (int64 _)); [exact Hdb|].
    apply Z.ltb_ge in E. cbn [fst]. unfold update_by_id. simpl.
    rewrite Forall_map. revert Hdb. apply Forall_impl. intros m Hm.
    destruct (Medicine.id m =? i); [exact E | exact Hm].
  - intros now d Hd. unfold add_medicine.
    destruct (find_by_exact_name _ _ db) as [e|] eqn:Efind.
    + destruct (negb (int64 _)); [exact Hdb|].
      destruct (find_by_exact_name_some _ _ _ _ Efind) as (He & _).
      rewrite Forall_forall in Hdb. pose proof (Hdb e He) as Hq.
      cbn [fst]. unfold update_by_id. simpl. rewrite Forall_map.
      apply Forall_forall. intros m Hm.
      destruct (Medicine.id m =? Medicine.id e); [simpl; lia | exact (Hdb m Hm)].
    + unfold insert_medicine. destruct (negb (int64 _)); [exact Hdb|].
      destruct (unique_ok _ _ _); simpl; [|exact Hdb].
      apply Forall_app. split; [exact Hdb|].
      constructor; [exact Hd | constructor].
  - intros i g. unfold delete_medicine.
    destruct (0 <? _)%nat; [|exact Hdb]. simpl.
    apply Forall_forall. intros m Hm. apply filter_In in Hm.
    rewrite Forall_forall in Hdb. apply Hdb. tauto.
Qed.

Lemma stock_never_negative_witness :
  let t := mk_datetime 2026 1 23 9 0 0 0 in
  let napa := Medicine.mk 1 "Napa" 3 "tablets" None None 5 "Bea" t 7 t in
  let db := mk_db [napa] 1 [] 0 in
  stock_nonneg (fst (update_quantity t 1 (-3) 7 db))
  /\ stock_nonneg (fst (update_quantity t 1 (-4) 7 db)).
Proof.
  intros t napa db.
  assert (H : stock_nonneg db) by (repeat constructor; simpl; lia).
  split; apply (proj1 (stock_never_negative db H)).
Defined.

Lemma find_found_iff {A : Type} (p : A -> bool) (l : list A) :
  find p l <> None <-> (0 < List.length (filter p l))%nat.
Proof.
  induction l as [|x l IH]; simpl.
  - split; [congruence | lia].
  - destruct (p x); simpl; [split; [lia | congruence] | exact IH].
Qed.

Lemma find_filtered_out {A : Type} (p : A -> bool) (l : list A) :
  find p (filter (fun x => negb (p x)) l) = None.
Proof.
  induction l as [|x l IH]; simpl; [reflexivity|].
  destruct (p x) eqn:E; simpl; [exact IH|]. rewrite E. exact IH.
Qed.

(** X3. [delete_medicine] answers [True] exactly when the group holds a
    medicine with the id. Afterwards the id is not found in the group; when
    a row was removed, no ledger entry refers to the id any more; when none
    was, the store is what it was. A medicine with another id, or of another
    group, stays. *)
Theorem delete_medicine_effect (i g : Z) (db : Db) :
  (snd (delete_medicine i g db) = true <-> get_by_id i g db <> None)
  /\ get_by_id i g (fst (delete_medicine i g db)) = None
  /\ (snd (delete_medicine i g db) = true ->
      Forall (fun a => Activity.medicine_id a <> i)
        (activity_log (fst (delete_medicine i g db))))
  /\ (snd (delete_medicine i g db) = false ->
      fst (delete_medicine i g db) = db)
  /\ (forall m, In m (medicines db) ->
                Medicine.id m <> i \/ Medicine.group_chat_id m <> g ->
                In m (medicines (fst (delete_medicine i g db)))).
Proof.
  unfold delete_medicine, get_by_id.
  set (hit := fun m => (Medicine.id m =? i) && in_group g m).
  pose proof (find_found_iff hit (medicines db)) as Hfind.
  pose proof (find_filtered_out hit (medicines db)) as Hgone.
  destruct (0 <? List.length (filter hit (medicines db)))%nat eqn:E; cbn [fst snd].
  - apply Nat.ltb_lt in E. split_all.
    + split; [intros _; apply Hfind; exact E | reflexivity].
    + exact Hgone.
    + intros _. simpl. apply Forall_forall. intros a Ha.
      apply filter_In in Ha. destruct Ha as [_ Ha].
      apply negb_true_iff, Z.eqb_neq in Ha. exact Ha.
    + discriminate.
    + intros m Hm Hother. simpl. apply filter_In. split; [exact Hm|].
      apply negb_true_iff. unfold hit, in_group.
      destruct Hother as [H|H]; apply Z.eqb_neq in H; rewrite H;
        [reflexivity | apply andb_false_r].
  - apply Nat.ltb_ge in E. split_all.
    + split; [discriminate|]. intros H. apply Hfind in H. lia.
    + destruct (find hit (medicines db)); [|reflexivity].
      assert (H : (0 < List.length (filter hit (medicines db)))%nat)
        by (apply Hfind; discriminate).
      lia.
    + discriminate.
    + reflexivity.
    + intros m Hm _. exact Hm.
Qed.

Lemma delete_medicine_effect_witness :
  let t := mk_datetime 2026 1 23 9 0 0 0 in
  let napa := Medicine.mk 1 "Napa" 3 "tablets" None None 5 "Bea" t 7 t in
  let ace := Medicine.mk 2 "Ace" 4 "tablets" None None 5 "Bea" t 7 t in
  let db := mk_db [napa; ace] 2
              [Activity.mk 1 1 "added" (Some 3) 5 "Bea" t 7;
               Activity.mk 2 2 "added" (Some 4) 5 "Bea" t 7] 2 in
  snd (delete_medicine 1 7 db) = true
  /\ Forall (fun a => Activity.medicine_id a <> 1)
       (activity_log (fst (delete_medicine 1 7 db)))
  /\ In ace (medicines (fst (delete_medicine 1 7 db)))
  /\ fst (delete_medicine 1 8 db) = db.
Proof.
  intros t napa ace db.
  destruct (delete_medicine_effect 1 7 db) as (Hiff & _ & Hcascade & _ & Hkeep).
  destruct (delete_medicine_effect 1 8 db) as (_ & _ & _ & Hsame & _).
  assert (Hdel : snd (delete_medicine 1 7 db) = true)
    by (apply Hiff; discriminate).
  split; [exact Hdel|]. split; [exact (Hcascade Hdel)|].
  split; [apply Hkeep; [simpl; tauto | left; simpl; lia] | apply Hsame; reflexivity].
Defined.

(** X4. [update_quantity] touches one record at most: every row with another
    id, the ledger and both counters are as before. An id that the given
    group does not hold, also one that another group holds, raises
    [DatabaseError] and changes nothing. *)
Theorem update_quantity_touches_one_record
    (now : datetime) (i delta g : Z) (db : Db) :
  let db' := fst (update_quantity now i delta g db) in
  activity_log db' = activity_log db
  /\ activity_log_seq db' = activity_log_seq db
  /\ medicines_seq db' = medicines_seq db
  /\ filter (fun m => negb (Medicine.id m =? i)) (medicines db')
     = filter (fun m => negb (Medicine.id m =? i)) (medicines db)
  /\ List.length (medicines db') = List.length (medicines db)
  /\ (get_by_id i g db = None ->
      update_quantity now i delta g db
      = (db, Raise (DatabaseError (not_found_message i)))).
Proof.
  unfold update_quantity.
  destruct (get_by_id i g db) as [row|]; [|cbn [fst]; split_all; auto].
  destruct (_ <? 0); cbn [fst]; [split_all; auto; discriminate|].
  destruct (negb (int64 _)); cbn [fst]; [split_all; auto; discriminate|].
  unfold update_by_id. simpl. split_all; try reflexivity.
  - apply filter_map_same.
    + intros x. destruct (Medicine.id x =? i) eqn:E; simpl; rewrite E;
        reflexivity.
    + intros x _ Hx. apply negb_true_iff in Hx. rewrite Hx. reflexivity.
  - apply length_map.
  - discriminate.
Qed.

Lemma update_quantity_touches_one_record_witness :
  let t := mk_datetime 2026 1 23 9 0 0 0 in
  let napa := Medicine.mk 1 "Napa" 3 "tablets" None None 5 "Bea" t 7 t in
  let db := mk_db [napa] 1 [] 0 in
  update_quantity t 1 (-1) 8 db
  = (db, Raise (DatabaseError (not_found_message 1))).
Proof.
  intros t napa db.
  apply (update_quantity_touches_one_record t 1 (-1) 8 db). reflexivity.
Defined.

(** X5. On a store that meets the schema [add_medicine] succeeds when the
    quantity it is to store fits SQLite's 64-bit [INTEGER]: the sum with the
    stock for a name the group holds, the given amount for a new name.
    When the group holds the name already, in any spelling, the record keeps
    its id, the spelling of its name, its unit, its creator and its creation
    date, whatever the new data say, and no row is added. When the name is
    new, one row is appended, with the given name and unit and an id above
    every id in the table. When the quantity does not fit, the call raises
    [OverflowError] and the store is what it was. *)
Theorem add_medicine_keeps_first_record
    (now : datetime) (d : MedicineData.t) (db : Db) :
  wf db ->
  (int64 (bound_quantity d db) = true ->
   exists m db',
     add_medicine now d db = (db', Ok m)
     /\ match find_by_exact_name (MedicineData.name d)
                (MedicineData.group_chat_id d) db with
        | Some e =>
            Medicine.id m = Medicine.id e
            /\ Medicine.name m = Medicine.name e
            /\ Medicine.unit m = Medicine.unit e
            /\ Medicine.added_by_user_id m = Medicine.added_by_user_id e
            /\ Medicine.added_by_username m = Medicine.added_by_username e
            /\ Medicine.added_date m = Medicine.added_date e
            /\ Medicine.last_updated m = now
            /\ List.length (medicines db') = List.length (medicines db)
        | None =>
            medicines db' = (medicines db ++ [m])%list
            /\ (forall x, In x (medicines db) -> Medicine.id x < Medicine.id m)
            /\ Medicine.name m = MedicineData.name d
            /\ Medicine.unit m = MedicineData.unit d
            /\ Medicine.quantity m = MedicineData.quantity d
            /\ Medicine.added_date m = now
        end)
  /\ (int64 (bound_quantity d db) = false ->
      add_medicine now d db = (db, Raise OverflowError)).
Proof.
  intros Hwf. split; [|apply add_medicine_overflow].
  intros Hfit.
  destruct (add_medicine_spec now d db Hwf Hfit)
    as (m & db' & Hadd & _ & _ & _ & Hm).
  exists m, db'. split; [exact Hadd|].
  unfold add_medicine in Hadd. unfold bound_quantity in Hfit.
  destruct (find_by_exact_name (MedicineData.name d)
              (MedicineData.group_chat_id d) db) as [e|].
  - rewrite Hfit in Hadd. cbn [negb] in Hadd.
    injection Hadd as <- _. subst m. split_all; try reflexivity.
    unfold update_by_id. simpl. apply length_map.
  - unfold insert_medicine in Hadd. rewrite Hfit in Hadd. cbn [negb] in Hadd.
    destruct (unique_ok _ _ _); [|discriminate].
    injection Hadd as <- _. subst m. split_all; try reflexivity.
    intros x Hx. simpl. pose proof (ids_issued db Hwf) as Hids.
    rewrite Forall_forall in Hids. specialize (Hids x Hx). simpl in Hids. lia.
Qed.

Lemma add_medicine_keeps_first_record_witness :
  let t1 := mk_datetime 2026 1 23 9 0 0 0 in
  let t2 := mk_datetime 2026 2 1 9 0 0 0 in
  let napa := Medicine.mk 4 "Napa" 3 "tablets" None None 5 "Bea" t1 7 t1 in
  let db := mk_db [napa] 4 [] 0 in
  let again := MedicineData.mk "NAPA" 2 "strips" None None 6 "Abe" 7 in
  let flood := MedicineData.mk "napa" (2 ^ 63 - 3) "tablets" None None 6 "Abe"
                 7 in
  (exists m db',
     add_medicine t2 again db = (db', Ok m)
     /\ Medicine.id m = 4
     /\ Medicine.name m = "Napa"
     /\ Medicine.unit m = "tablets"
     /\ Medicine.added_by_user_id m = 5
     /\ Medicine.added_by_username m = "Bea"
     /\ Medicine.added_date m = t1
     /\ Medicine.last_updated m = t2
     /\ List.length (medicines db') = 1%nat)
  /\ add_medicine t2 flood db = (db, Raise OverflowError).
Proof.
  intros t1 t2 napa db again flood.
  assert (Hwf : wf db) by wf_concrete.
  split.
  - apply (proj1 (add_medicine_keeps_first_record t2 again db Hwf)).
    reflexivity.
  - apply (proj2 (add_medicine_keeps_first_record t2 flood db Hwf)).
    reflexivity.
Defined.

(** X6. On a store whose ledger meets the schema, and with a quantity
    change that is [None] or fits SQLite's 64-bit [INTEGER], [log_activity]
    with one of the four actions and the id of a stored medicine appends one
    entry, with the next id of the ledger and the data given, returns it, and
    leaves the earlier entries and the medicines as they are; with another
    action, or with an id that no medicine has, it raises [IntegrityError]
    and changes nothing. With a quantity change that does not fit it raises
    [OverflowError] and changes nothing. *)
Theorem log_activity_appends
    (now : datetime) (i : Z) (action : string) (u : Z) (un : string) (g : Z)
    (ch : option Z) (db : Db) :
  ledger_ok db ->
  (int64_opt ch = true ->
   action_ok action = true ->
   medicine_exists i (medicines db) = true ->
   exists a db',
     ActivityLogRepository.log_activity now i action u un g ch db = (db', Ok a)
     /\ a = Activity.mk (activity_log_seq db + 1) i action ch u un now g
     /\ activity_log db' = (activity_log db ++ [a])%list
     /\ medicines db' = medicines db
     /\ medicines_seq db' = medicines_seq db)
  /\ (int64_opt ch = true ->
      action_ok action = false \/ medicine_exists i (medicines db) = false ->
      ActivityLogRepository.log_activity now i action u un g ch db
      = (db, Raise IntegrityError))
  /\ (int64_opt ch = false ->
      ActivityLogRepository.log_activity now i action u un g ch db
      = (db, Raise OverflowError)).
Proof.
  intros Hok. unfold ActivityLogRepository.log_activity. split_all.
  - intros Hch Ha Hm. rewrite Hch, Ha, Hm. cbn [andb negb].
    set (a := Activity.mk (activity_log_seq db + 1) i action ch u un now g).
    exists a, (mk_db (medicines db) (medicines_seq db)
                 (activity_log db ++ [a]) (activity_log_seq db + 1)).
    split; [|split_all; reflexivity].
    unfold activity_by_id. simpl.
    assert (Hfresh : find (fun a => Activity.id a =? activity_log_seq db + 1)
                       (activity_log db) = None).
    { destruct (find _ (activity_log db)) as [x|] eqn:E; [|reflexivity].
      apply find_some in E. destruct E as [Hx Hid]. apply Z.eqb_eq in Hid.
      pose proof (entries_issued db Hok) as H. rewrite Forall_forall in H.
      specialize (H x Hx). simpl in H. lia. }
    rewrite (find_app_none _ _ _ Hfresh). simpl. rewrite Z.eqb_refl.
    reflexivity.
  - intros Hch [H|H]; rewrite Hch, H; [|rewrite andb_false_r]; reflexivity.
  - intros Hch. rewrite Hch. reflexivity.
Qed.

Lemma log_activity_appends_witness :
  let t := mk_datetime 2026 1 23 9 0 0 0 in
  let napa := Medicine.mk 1 "Napa" 3 "tablets" None None 5 "Bea" t 7 t in
  let db := mk_db [napa] 1 [] 0 in
  (exists a db',
     ActivityLogRepository.log_activity t 1 "used" 5 "Bea" 7 (Some (-2)) db
     = (db', Ok a)
     /\ a = Activity.mk (0 + 1) 1 "used" (Some (-2)) 5 "Bea" t 7
     /\ activity_log db' = ([] ++ [a])%list
     /\ medicines db' = [napa]
     /\ medicines_seq db' = 1)
  /\ ActivityLogRepository.log_activity t 1 "borrowed" 5 "Bea" 7 None db
     = (db, Raise IntegrityError)
  /\ ActivityLogRepository.log_activity t 2 "used" 5 "Bea" 7 None db
     = (db, Raise IntegrityError)
  /\ ActivityLogRepository.log_activity t 1 "used" 5 "Bea" 7 (Some (2 ^ 63)) db
     = (db, Raise OverflowError).
Proof.
  intros t napa db.
  assert (Hok : ledger_ok db) by (split; simpl; constructor).
  split_all.
  - apply (proj1 (log_activity_appends t 1 "used" 5 "Bea" 7 (Some (-2)) db Hok));
      reflexivity.
  - apply (proj1 (proj2 (log_activity_appends t 1 "borrowed" 5 "Bea" 7 None db
                           Hok))); [reflexivity|].
    left. reflexivity.
  - apply (proj1 (proj2 (log_activity_appends t 2 "used" 5 "Bea" 7 None db
                           Hok))); [reflexivity|].
    right. reflexivity.
  - apply (proj2 (proj2 (log_activity_appends t 1 "used" 5 "Bea" 7
                           (Some (2 ^ 63)) db Hok))).
    reflexivity.
Defined.

(** ** Ordered listings *)

Section SortAscFacts.

Context {A : Type}.
Variable leb : A -> A -> bool.
Hypothesis leb_total : forall a b, leb a b = true \/ leb b a = true.
Hypothesis leb_trans :
  forall a b c, leb a b = true -> leb b c = true -> leb a c = true.

Lemma insert_asc_sorted (x : A) (l : list A) :
  StronglySorted (fun a b => leb a b = true) l ->
  StronglySorted (fun a b => leb a b = true) (insert_asc leb x l).
Proof.
  induction l as [|y l IH]; simpl; intros Hs.
  - repeat constructor.
  - inversion Hs as [|? ? Hl Hy]; subst.
    destruct (leb x y) eqn:E.
    + constructor; [exact Hs|]. constructor; [exact E|].
      revert Hy. apply Forall_impl. intros z Hz. exact (leb_trans _ _ _ E Hz).
    + constructor; [exact (IH Hl)|].
      apply (Permutation_Forall (Permutation_sym (insert_asc_perm leb x l))).
      constructor; [|exact Hy].
      destruct (leb_total x y) as [H|H]; [congruence | exact H].
Qed.

Lemma sort_asc_sorted (l : list A) :
  StronglySorted (fun a b => leb a b = true) (sort_asc leb l).
Proof.
  induction l as [|x l IH]; simpl.
  - constructor.
  - apply insert_asc_sorted. exact IH.
Qed.

End SortAscFacts.

Lemma string_compare_trans_lt (a b c : string) :
  String.compare a b <> Gt -> String.compare b c <> Gt ->
  String.compare a c <> Gt.
Proof.
  revert b c. induction a as [|x a IH]; intros [|y b] [|z c]; simpl;
    try congruence.
  unfold Ascii.compare.
  destruct (N.compare_spec (N_of_ascii x) (N_of_ascii y)) as [E1|E1|E1];
    destruct (N.compare_spec (N_of_ascii y) (N_of_ascii z)) as [E2|E2|E2];
    try congruence; intros H1 H2.
  - rewrite E1, E2, N.compare_refl. exact (IH b c H1 H2).
  - rewrite E1. rewrite (proj2 (N.compare_lt_iff _ _) E2). congruence.
  - rewrite <- E2. rewrite (proj2 (N.compare_lt_iff _ _) E1). congruence.
  - rewrite (proj2 (N.compare_lt_iff _ _) (N.lt_trans _ _ _ E1 E2)).
    congruence.
Qed.

Lemma string_leb_trans (a b c : string) :
  String.leb a b = true -> String.leb b c = true -> String.leb a c = true.
Proof.
  unfold String.leb. intros H1 H2.
  assert (G : String.compare a c <> Gt).
  { apply (string_compare_trans_lt a b c).
    - destruct (String.compare a b); congruence.
    - destruct (String.compare b c); congruence. }
  destruct (String.compare a c); congruence.
Qed.

(** X7. [get_low_stock] lists exactly the medicines of the group whose
    quantity is below the threshold, each once per row, in ascending order of
    quantity. *)
Theorem get_low_stock_exact (g threshold : Z) (db : Db) :
  (forall m, In m (get_low_stock g threshold db) <->
             In m (medicines db)
             /\ Medicine.group_chat_id m = g
             /\ Medicine.quantity m < threshold)
  /\ Permutation (get_low_stock g threshold db)
       (filter (fun m => Medicine.quantity m <? threshold)
          (filter (in_group g) (medicines db)))
  /\ StronglySorted (fun a b => Medicine.quantity a <= Medicine.quantity b)
       (get_low_stock g threshold db).
Proof.
  unfold get_low_stock. split_all.
  - intros m. split.
    + intros H. apply (Permutation_in _ (sort_asc_perm _ _)) in H.
      apply filter_In in H. destruct H as [Hin Hp].
      apply andb_prop in Hp. destruct Hp as [Hg Hq].
      apply Z.eqb_eq in Hg. apply Z.ltb_lt in Hq. auto.
    + intros (Hin & Hg & Hq).
      apply (Permutation_in _ (Permutation_sym (sort_asc_perm _ _))).
      apply filter_In. split; [exact Hin|].
      apply andb_true_intro. split; [apply Z.eqb_eq | apply Z.ltb_lt]; assumption.
  - rewrite sort_asc_perm.
    induction (medicines db) as [|x l IH]; simpl; [constructor|].
    destruct (in_group g x); simpl; [destruct (_ <? _); [constructor|]|];
      exact IH.
  - assert (H : StronglySorted (fun a b => quantity_leb a b = true)
                  (sort_asc quantity_leb
                     (filter (fun m => in_group g m
                                       && (Medicine.quantity m <? threshold))
                        (medicines db)))).
    { apply sort_asc_sorted; unfold quantity_leb.
      - intros a b.
        destruct (Z.le_ge_cases (Medicine.quantity a) (Medicine.quantity b));
          [left | right]; apply Z.leb_le; lia.
      - intros a b c H1 H2. apply Z.leb_le in H1. apply Z.leb_le in H2.
        apply Z.leb_le. lia. }
    revert H. generalize (sort_asc quantity_leb
                     (filter (fun m => in_group g m
                                       && (Medicine.quantity m <? threshold))
                        (medicines db))).
    induction 1 as [|x l _ IH Hx]; constructor; [exact IH|].
    revert Hx. apply Forall_impl. intros y Hy. apply Z.leb_le. exact Hy.
Qed.

(** X8. [get_all] lists exactly the medicines of the group, each row once, in
    the order of their names without regard to case. *)
Theorem get_all_exact (g : Z) (db : Db) :
  (forall m, In m (get_all g db) <->
             In m (medicines db) /\ Medicine.group_chat_id m = g)
  /\ Permutation (get_all g db) (filter (in_group g) (medicines db))
  /\ StronglySorted
       (fun a b => String.leb (lower (Medicine.name a))
                     (lower (Medicine.name b)) = true)
       (get_all g db).
Proof.
  unfold get_all. split_all.
  - intros m. split.
    + intros H. apply (Permutation_in _ (sort_asc_perm _ _)) in H.
      apply filter_In in H. destruct H as [Hin Hg].
      apply Z.eqb_eq in Hg. auto.
    + intros (Hin & Hg).
      apply (Permutation_in _ (Permutation_sym (sort_asc_perm _ _))).
      apply filter_In. split; [exact Hin | apply Z.eqb_eq; exact Hg].
  - apply sort_asc_perm.
  - apply (sort_asc_sorted name_leb); unfold name_leb.
    + intros a b. apply String.leb_total.
    + intros a b c. apply string_leb_trans.
Qed.

(** ** Dates as stored text *)

Lemma length_append (x y : string) :
  String.length (x ++ y) = (String.length x + String.length y)%nat.
Proof.
  induction x as [|c x IH]; simpl; [reflexivity | rewrite IH; reflexivity].
Qed.

Lemma length_pad_dec (w : nat) (n : Z) : String.length (pad_dec w n) = w.
Proof.
  revert n. induction w as [|w IH]; intros n; simpl; [reflexivity|].
  rewrite length_append, IH. simpl. lia.
Qed.

Lemma compare_app_same_length (x y u v : string) :
  String.length x = String.length y ->
  String.compare (x ++ u) (y ++ v)
  = match String.compare x y with
    | Eq => String.compare u v
    | r => r
    end.
Proof.
  revert y. induction x as [|c x IH]; intros [|d y]; simpl; try discriminate.
  - reflexivity.
  - intros H. injection H as H.
    destruct (Ascii.compare c d); [apply IH; exact H | reflexivity | reflexivity].
Qed.

Lemma compare_digit_char (a b : Z) :
  Ascii.compare (digit_char a) (digit_char b) = (a mod 10 ?= b mod 10).
Proof.
  unfold Ascii.compare, digit_char.
  pose proof (Z.mod_pos_bound a 10 ltac:(lia)) as Ha.
  pose proof (Z.mod_pos_bound b 10 ltac:(lia)) as Hb.
  rewrite !N_ascii_embedding by lia.
  rewrite Z2N.inj_compare by lia.
  apply Z.add_compare_mono_l.
Qed.

(** A zero-padded rendering orders numbers as the numbers are ordered. *)
Lemma compare_pad_dec (w : nat) (a b : Z) :
  0 <= a < 10 ^ Z.of_nat w -> 0 <= b < 10 ^ Z.of_nat w ->
  String.compare (pad_dec w a) (pad_dec w b) = (a ?= b).
Proof.
  revert a b. induction w as [|w IH]; intros a b Ha Hb.
  - simpl in *. assert (a = 0) by lia. assert (b = 0) by lia. subst.
    reflexivity.
  - rewrite Nat2Z.inj_succ, Z.pow_succ_r in Ha, Hb by lia.
    simpl. rewrite compare_app_same_length by (rewrite !length_pad_dec; reflexivity).
    rewrite IH by (split; [apply Z.div_pos; lia |
                           apply Z.div_lt_upper_bound; lia]).
    simpl. rewrite compare_digit_char.
    pose proof (Z.div_mod a 10 ltac:(lia)) as Da.
    pose proof (Z.div_mod b 10 ltac:(lia)) as Db.
    destruct (Z.compare_spec (a / 10) (b / 10)) as [E|E|E].
    + destruct (Z.compare_spec (a mod 10) (b mod 10)) as [F|F|F];
        symmetry; [apply Z.compare_eq_iff | apply Z.compare_lt_iff
                   | apply Z.compare_gt_iff]; lia.
    + symmetry. apply Z.compare_lt_iff.
      pose proof (Z.mod_pos_bound a 10 ltac:(lia)).
      pose proof (Z.mod_pos_bound b 10 ltac:(lia)). lia.
    + symmetry. apply Z.compare_gt_iff.
      pose proof (Z.mod_pos_bound a 10 ltac:(lia)).
      pose proof (Z.mod_pos_bound b 10 ltac:(lia)). lia.
Qed.

Lemma length_date_text (t : datetime) :
  String.length (DateTime.date_text t) = 10%nat.
Proof.
  unfold DateTime.date_text. rewrite !length_append, !length_pad_dec.
  reflexivity.
Qed.

(** The text of a date orders dates as the calendar does. *)
Lemma compare_date_text (a b : datetime) :
  DateTime.valid a -> DateTime.valid b ->
  String.compare (DateTime.date_text a) (DateTime.date_text b)
  = match year a ?= year b with
    | Eq => match month a ?= month b with
            | Eq => day a ?= day b
            | r => r
            end
    | r => r
    end.
Proof.
  intros Ha Hb. unfold DateTime.valid in *. unfold DateTime.date_text.
  rewrite compare_app_same_length by (rewrite !length_pad_dec; reflexivity).
  rewrite (compare_pad_dec 4) by (simpl; lia).
  destruct (year a ?= year b); try reflexivity.
  change ("-" ++ pad_dec 2 (month a) ++ "-" ++ pad_dec 2 (day a))
    with (String "-" (pad_dec 2 (month a) ++ "-" ++ pad_dec 2 (day a))).
  change ("-" ++ pad_dec 2 (month b) ++ "-" ++ pad_dec 2 (day b))
    with (String "-" (pad_dec 2 (month b) ++ "-" ++ pad_dec 2 (day b))).
  cbn [String.compare]. unfold Ascii.compare at 1. rewrite N.compare_refl.
  rewrite compare_app_same_length by (rewrite !length_pad_dec; reflexivity).
  rewrite (compare_pad_dec 2) by (simpl; lia).
  destruct (month a ?= month b); try reflexivity.
  change ("-" ++ pad_dec 2 (day a)) with (String "-" (pad_dec 2 (day a))).
  change ("-" ++ pad_dec 2 (day b)) with (String "-" (pad_dec 2 (day b))).
  cbn [String.compare]. unfold Ascii.compare at 1. rewrite N.compare_refl.
  apply (compare_pad_dec 2); simpl; lia.
Qed.

Lemma date_leb_compare (a b : datetime) :
  DateTime.date_leb a b
  = match (match year a ?= year b with
           | Eq => match month a ?= month b with
                   | Eq => day a ?= day b
                   | r => r
                   end
           | r => r
           end) with
    | Gt => false
    | _ => true
    end.
Proof.
  unfold DateTime.date_leb. simpl.
  destruct (Z.compare_spec (year a) (year b)) as [E|E|E].
  - rewrite E, Z.ltb_irrefl, Z.eqb_refl. simpl.
    destruct (Z.compare_spec (month a) (month b)) as [F|F|F].
    + rewrite F, Z.ltb_irrefl, Z.eqb_refl. simpl.
      destruct (Z.compare_spec (day a) (day b)) as [G|G|G].
      * rewrite G, Z.ltb_irrefl, Z.eqb_refl. reflexivity.
      * rewrite (proj2 (Z.ltb_lt _ _) G). reflexivity.
      * rewrite (proj2 (Z.ltb_ge _ _)) by lia.
        rewrite (proj2 (Z.eqb_neq _ _)) by lia. reflexivity.
    + rewrite (proj2 (Z.ltb_lt _ _) F). reflexivity.
    + rewrite (proj2 (Z.ltb_ge _ _)) by lia.
      rewrite (proj2 (Z.eqb_neq _ _)) by lia. reflexivity.
  - rewrite (proj2 (Z.ltb_lt _ _) E). reflexivity.
  - rewrite (proj2 (Z.ltb_ge _ _)) by lia.
    rewrite (proj2 (Z.eqb_neq _ _)) by lia. reflexivity.
Qed.

(** A stored expiry is at or below the ISO text of a cutoff exactly when its
    date is not after the date of the cutoff: on equal dates the space after
    the stored date is below the [T] of the ISO text. *)
Lemma adapted_leb_isoformat (e c : datetime) :
  DateTime.valid e -> DateTime.valid c ->
  String.leb (DateTime.adapt_datetime e) (DateTime.isoformat c)
  = DateTime.date_leb e c.
Proof.
  intros He Hc. unfold String.leb, DateTime.adapt_datetime, DateTime.isoformat.
  rewrite compare_app_same_length by (rewrite !length_date_text; reflexivity).
  rewrite (compare_date_text e c He Hc), date_leb_compare.
  destruct (match year e ?= year c with
            | Eq => match month e ?= month c with
                    | Eq => day e ?= day c
                    | r => r
                    end
            | r => r
            end); reflexivity.
Qed.

(** A stored timestamp is at or above the ISO text of a cutoff exactly when
    its date is after the date of the cutoff. *)
Lemma stored_ge_isoformat (t c : datetime) :
  DateTime.valid t -> DateTime.valid c ->
  text_ge (DateTime.sqlite_timestamp t) (DateTime.isoformat c)
  = negb (DateTime.date_leb t c).
Proof.
  intros Ht Hc.
  unfold text_ge, String.leb, DateTime.sqlite_timestamp, DateTime.isoformat.
  rewrite compare_app_same_length by (rewrite !length_date_text; reflexivity).
  rewrite (compare_date_text c t Hc Ht), date_leb_compare.
  rewrite (Z.compare_antisym (year c) (year t)),
    (Z.compare_antisym (month c) (month t)),
    (Z.compare_antisym (day c) (day t)).
  destruct (year c ?= year t); simpl; try reflexivity.
  destruct (month c ?= month t); simpl; try reflexivity.
  destruct (day c ?= day t); reflexivity.
Qed.

(** X9. [get_expiring_soon] goes by the calendar date. With the cutoff
    [now + days], it lists exactly the medicines of the group that have an
    expiry whose date is on or before the date of the cutoff, whatever the
    times of day, and lists them in the order of their stored expiry. *)
Theorem get_expiring_soon_by_date
    (now cutoff : datetime) (g days : Z) (db : Db) :
  DateTime.minus_days now (- days) = Some cutoff ->
  DateTime.valid cutoff ->
  expiries_valid db ->
  exists l,
    get_expiring_soon now g days db = Ok l
    /\ (forall m, In m l <->
                  In m (medicines db)
                  /\ Medicine.group_chat_id m = g
                  /\ exists e, Medicine.expiry_date m = Some e
                               /\ DateTime.date_leb e cutoff = true)
    /\ StronglySorted (fun a b => expiry_leb a b = true) l.
Proof.
  intros Hcut Hvalid Hdb. unfold get_expiring_soon. rewrite Hcut.
  eexists. split; [reflexivity|]. split.
  - intros m. unfold expiries_valid in Hdb. rewrite Forall_forall in Hdb.
    split.
    + intros H. apply (Permutation_in _ (sort_asc_perm _ _)) in H.
      apply filter_In in H. destruct H as [Hin Hp].
      apply andb_prop in Hp. destruct Hp as [Hg He].
      apply Z.eqb_eq in Hg. unfold expires_by in He.
      destruct (Medicine.expiry_date m) as [e|] eqn:E; [|discriminate].
      rewrite (adapted_leb_isoformat e cutoff (Hdb m Hin e E) Hvalid) in He.
      split; [exact Hin|]. split; [exact Hg|]. exists e. auto.
    + intros (Hin & Hg & e & E & He).
      apply (Permutation_in _ (Permutation_sym (sort_asc_perm _ _))).
      apply filter_In. split; [exact Hin|].
      apply andb_true_intro. split; [apply Z.eqb_eq; exact Hg|].
      unfold expires_by. rewrite E.
      rewrite (adapted_leb_isoformat e cutoff (Hdb m Hin e E) Hvalid).
      exact He.
  - apply sort_asc_sorted; unfold expiry_leb.
    + intros a b.
      destruct (Medicine.expiry_date a), (Medicine.expiry_date b); auto.
      apply String.leb_total.
    + intros a b c.
      destruct (Medicine.expiry_date a), (Medicine.expiry_date b),
        (Medicine.expiry_date c); try discriminate; auto.
      apply string_leb_trans.
Qed.

Lemma get_expiring_soon_by_date_witness :
  let t := mk_datetime 2026 11 3 12 0 0 0 in
  let late := mk_datetime 2026 12 3 23 0 0 0 in
  let next := mk_datetime 2026 12 4 0 0 0 0 in
  let napa := Medicine.mk 1 "Napa" 3 "tablets" (Some late) None 5 "Bea" t 7 t in
  let ace := Medicine.mk 2 "Ace" 3 "tablets" (Some next) None 5 "Bea" t 7 t in
  let db := mk_db [napa; ace] 2 [] 0 in
  exists l,
    get_expiring_soon t 7 30 db = Ok l
    /\ (forall m, In m l <->
                  In m (medicines db)
                  /\ Medicine.group_chat_id m = 7
                  /\ exists e, Medicine.expiry_date m = Some e
                               /\ DateTime.date_leb e
                                    (mk_datetime 2026 12 3 12 0 0 0) = true)
    /\ StronglySorted (fun a b => expiry_leb a b = true) l.
Proof.
  intros t late next napa ace db.
  apply (get_expiring_soon_by_date t (mk_datetime 2026 12 3 12 0 0 0) 7 30 db).
  - reflexivity.
  - unfold DateTime.valid. simpl. lia.
  - repeat (apply Forall_cons;
              [intros e H; injection H as <-; unfold DateTime.valid; simpl; lia|]).
    apply Forall_nil.
Defined.

(** X10. The window of [get_stats] goes by the calendar date too. With the
    cutoff [now - days], the total it reports is the number of ledger entries
    of the group dated after the day of the cutoff; an entry of that day is
    outside, whatever its time. *)
Theorem get_stats_window_by_date
    (now cutoff : datetime) (g days : Z) (db : Db) :
  DateTime.minus_days now days = Some cutoff ->
  DateTime.valid cutoff ->
  timestamps_valid db ->
  exists stats,
    ActivityLogRepository.get_stats now g days db = Ok stats
    /\ ActivityLogRepository.total_activities stats
       = Z.of_nat (List.length
           (filter (fun a => (Activity.group_chat_id a =? g)
                             && negb (DateTime.date_leb (Activity.timestamp a)
                                        cutoff))
              (activity_log db)))
    /\ ActivityLogRepository.period_days stats = days.
Proof.
  intros Hcut Hvalid Hdb. unfold ActivityLogRepository.get_stats. rewrite Hcut.
  eexists. split; [reflexivity|]. split; [|reflexivity].
  cbn [ActivityLogRepository.total_activities]. do 2 f_equal.
  apply filter_ext_in. intros a Ha.
  unfold timestamps_valid in Hdb. rewrite Forall_forall in Hdb.
  unfold ActivityLogRepository.in_window.
  rewrite (stored_ge_isoformat _ _ (Hdb a Ha) Hvalid). reflexivity.
Qed.

Lemma get_stats_window_by_date_witness :
  let t1 := mk_datetime 2026 10 4 18 0 0 0 in
  let t2 := mk_datetime 2026 10 5 0 0 0 0 in
  let now := mk_datetime 2026 11 3 12 0 0 250000 in
  let napa := Medicine.mk 1 "Napa" 3 "tablets" None None 5 "Bea" t1 7 t1 in
  let db := mk_db [napa] 1
              [Activity.mk 1 1 "added" (Some 3) 5 "Bea" t1 7;
               Activity.mk 2 1 "used" (Some (-1)) 5 "Bea" t2 7] 2 in
  exists stats,
    ActivityLogRepository.get_stats now 7 30 db = Ok stats
    /\ ActivityLogRepository.total_activities stats
       = Z.of_nat (List.length
           (filter (fun a => (Activity.group_chat_id a =? 7)
                             && negb (DateTime.date_leb (Activity.timestamp a)
                                        (mk_datetime 2026 10 4 12 0 0 250000)))
              (activity_log db)))
    /\ ActivityLogRepository.period_days stats = 30.
Proof.
  intros t1 t2 now napa db.
  apply (get_stats_window_by_date now (mk_datetime 2026 10 4 12 0 0 250000)).
  - reflexivity.
  - unfold DateTime.valid. simpl. lia.
  - repeat (apply Forall_cons; [unfold DateTime.valid; simpl; lia|]).
    apply Forall_nil.
Defined.

(** ** Grouped counts *)

Lemma bump_total (eqb : string -> string -> bool) (k : string)
    (l : list (string * Z)) :
  total_count (bump eqb k l) = total_count l + 1.
Proof.
  induction l as [|[k' n] l IH]; simpl; [reflexivity|].
  destruct (eqb k' k); simpl; [|rewrite IH]; lia.
Qed.

Lemma group_count_total (eqb : string -> string -> bool) (keys : list string) :
  total_count (group_count eqb keys) = Z.of_nat (List.length keys).
Proof.
  unfold group_count.
  assert (H : forall acc,
             total_count (fold_left (fun g k => bump eqb k g) keys acc)
             = total_count acc + Z.of_nat (List.length keys)).
  { induction keys as [|k keys IH]; intros acc; simpl fold_left.
    - simpl. lia.
    - rewrite IH, bump_total. simpl List.length. lia. }
  rewrite H. reflexivity.
Qed.

Lemma dict_get_absent (k : string) (l : list (string * Z)) :
  ~ In k (map fst l) -> ActivityLogRepository.dict_get k l = None.
Proof.
  induction l as [|[k' n] l IH]; simpl; [reflexivity|].
  intros H. rewrite IH by tauto.
  destruct (String.eqb k' k) eqn:E; [|reflexivity].
  apply String.eqb_eq in E. tauto.
Qed.

Lemma bump_keys (k : string) (l : list (string * Z)) (x : string) :
  In x (map fst (bump String.eqb k l)) <-> x = k \/ In x (map fst l).
Proof.
  induction l as [|[k' n] l IH]; simpl; [intuition auto|].
  destruct (String.eqb k' k) eqn:E; simpl.
  - apply String.eqb_eq in E. subst. intuition auto.
  - rewrite IH. intuition auto.
Qed.

Lemma bump_nodup (k : string) (l : list (string * Z)) :
  NoDup (map fst l) -> NoDup (map fst (bump String.eqb k l)).
Proof.
  induction l as [|[k' n] l IH]; simpl; intros Hnd.
  - repeat constructor. intros [].
  - inversion Hnd as [|? ? Hx Hl]; subst.
    destruct (String.eqb k' k) eqn:E; simpl; [exact Hnd|].
    constructor; [|exact (IH Hl)].
    rewrite bump_keys. intros [H|H]; [|exact (Hx H)].
    apply String.eqb_neq in E. congruence.
Qed.

(** Counting one more key raises the count of that key by one and leaves
    the others. *)
Lemma dict_get_bump (k x : string) (l : list (string * Z)) :
  NoDup (map fst l) ->
  ActivityLogRepository.dict_get x (bump String.eqb k l)
  = if String.eqb x k
    then Some (match ActivityLogRepository.dict_get x l with
               | Some n => n + 1
               | None => 1
               end)
    else ActivityLogRepository.dict_get x l.
Proof.
  induction l as [|[k' n] l IH]; simpl; intros Hnd.
  - rewrite String.eqb_sym. reflexivity.
  - inversion Hnd as [|? ? Hx Hl]; subst.
    destruct (String.eqb k' k) eqn:E; simpl.
    + apply String.eqb_eq in E. subst k'.
      destruct (String.eqb x k) eqn:F.
      * apply String.eqb_eq in F. subst x.
        rewrite (dict_get_absent k l Hx), String.eqb_refl. reflexivity.
      * rewrite String.eqb_sym, F.
        destruct (ActivityLogRepository.dict_get x l); reflexivity.
    + rewrite (IH Hl). destruct (String.eqb x k) eqn:F.
      * apply String.eqb_eq in F. subst x. rewrite E.
        destruct (ActivityLogRepository.dict_get k l); reflexivity.
      * reflexivity.
Qed.

Lemma group_count_lookup (keys : list string) (x : string) :
  NoDup (map fst (group_count String.eqb keys))
  /\ ActivityLogRepository.dict_get x (group_count String.eqb keys)
     = if occurrences x keys =? 0 then None else Some (occurrences x keys).
Proof.
  unfold group_count, occurrences.
  assert (H : forall acc,
             NoDup (map fst acc) ->
             NoDup (map fst (fold_left (fun g k => bump String.eqb k g) keys acc))
             /\ ActivityLogRepository.dict_get x
                  (fold_left (fun g k => bump String.eqb k g) keys acc)
                = match ActivityLogRepository.dict_get x acc with
                  | Some n =>
                      Some (n + Z.of_nat (List.length (filter (String.eqb x) keys)))
                  | None =>
                      if Z.of_nat (List.length (filter (String.eqb x) keys)) =? 0
                      then None
                      else Some (Z.of_nat
                                   (List.length (filter (String.eqb x) keys)))
                  end).
  { induction keys as [|k keys IH]; intros acc Hnd; simpl fold_left.
    - split; [exact Hnd|]. simpl.
      destruct (ActivityLogRepository.dict_get x acc); [f_equal; lia|reflexivity].
    - destruct (IH (bump String.eqb k acc) (bump_nodup k acc Hnd)) as [H1 H2].
      split; [exact H1|]. rewrite H2, (dict_get_bump k x acc Hnd). simpl filter.
      destruct (String.eqb x k); simpl List.length.
      + destruct (ActivityLogRepository.dict_get x acc).
        * f_equal. lia.
        * destruct (Z.of_nat (S _) =? 0) eqn:E; [apply Z.eqb_eq in E; lia|].
          f_equal. lia.
      + reflexivity. }
  destruct (H [] (NoDup_nil _)) as [H1 H2]. split; [exact H1|].
  rewrite H2. reflexivity.
Qed.

(** X11. What [get_stats] reports about the entries it selects, those of the
    group at or above the cutoff text: their number as the total; for each
    action the number of selected entries with that action, and no key for an
    action without entries, so that the counts add up to the total; at most
    five users and at most five medicines, each list in descending order of
    count. *)
Theorem get_stats_counts (now cutoff : datetime) (g days : Z) (db : Db) :
  DateTime.minus_days now days = Some cutoff ->
  let selected :=
    filter (ActivityLogRepository.in_window g (DateTime.isoformat cutoff))
      (activity_log db) in
  exists stats,
    ActivityLogRepository.get_stats now g days db = Ok stats
    /\ ActivityLogRepository.total_activities stats
       = Z.of_nat (List.length selected)
    /\ (forall action,
          ActivityLogRepository.dict_get action
            (ActivityLogRepository.activities_by_action stats)
          = if occurrences action (map Activity.action selected) =? 0
            then None
            else Some (occurrences action (map Activity.action selected)))
    /\ NoDup (map fst (ActivityLogRepository.activities_by_action stats))
    /\ total_count (ActivityLogRepository.activities_by_action stats)
       = ActivityLogRepository.total_activities stats
    /\ (List.length (ActivityLogRepository.most_active_users stats) <= 5)%nat
    /\ descending (ActivityLogRepository.most_active_users stats)
    /\ (List.length (ActivityLogRepository.most_used_medicines stats) <= 5)%nat
    /\ descending (ActivityLogRepository.most_used_medicines stats).
Proof.
  intros Hcut selected. unfold ActivityLogRepository.get_stats. rewrite Hcut.
  eexists. split; [reflexivity|].
  cbn [ActivityLogRepository.total_activities
         ActivityLogRepository.activities_by_action
         ActivityLogRepository.most_active_users
         ActivityLogRepository.most_used_medicines].
  fold selected. split_all.
  - reflexivity.
  - intros action. apply group_count_lookup.
  - apply (group_count_lookup _ EmptyString).
  - rewrite group_count_total, length_map. reflexivity.
  - apply firstn_le_length.
  - apply descending_firstn. apply sort_desc_sorted.
  - apply firstn_le_length.
  - apply descending_firstn. apply sort_desc_sorted.
Qed.

Lemma get_stats_counts_witness :
  let t1 := mk_datetime 2026 10 20 18 0 0 0 in
  let now := mk_datetime 2026 11 3 12 0 0 250000 in
  let napa := Medicine.mk 1 "Napa" 3 "tablets" None None 5 "Bea" t1 7 t1 in
  let db := mk_db [napa] 1
              [Activity.mk 1 1 "added" (Some 3) 5 "Bea" t1 7;
               Activity.mk 2 1 "used" (Some (-1)) 5 "Bea" t1 7;
               Activity.mk 3 1 "used" (Some (-1)) 6 "Abe" t1 7] 3 in
  exists stats,
    ActivityLogRepository.get_stats now 7 30 db = Ok stats
    /\ ActivityLogRepository.total_activities stats = 3
    /\ ActivityLogRepository.dict_get "used"
         (ActivityLogRepository.activities_by_action stats) = Some 2
    /\ ActivityLogRepository.dict_get "deleted"
         (ActivityLogRepository.activities_by_action stats) = None.
Proof.
  intros t1 now napa db.
  destruct (get_stats_counts now (mk_datetime 2026 10 4 12 0 0 250000) 7 30 db
              eq_refl) as (stats & H1 & H2 & H3 & _).
  exists stats. split; [exact H1|]. split; [exact H2|].
  split; [exact (H3 "used") | exact (H3 "deleted")].
Defined.

(** X12. [get_history] returns ledger entries of the given medicine only, of
    whatever group, newest first by stored timestamp, and no more of them
    than a limit that is not negative; a negative limit, or one that is not
    below their number, gives them all. *)
Theorem get_history_newest_first (i limit : Z) (db : Db) :
  let all := filter (fun a => Activity.medicine_id a =? i) (activity_log db) in
  (forall a, In a (ActivityLogRepository.get_history i limit db) ->
             In a (activity_log db) /\ Activity.medicine_id a = i)
  /\ (0 <= limit ->
      (List.length (ActivityLogRepository.get_history i limit db)
       <= Z.to_nat limit)%nat)
  /\ StronglySorted
       (fun a b => String.leb (DateTime.sqlite_timestamp (Activity.timestamp b))
                     (DateTime.sqlite_timestamp (Activity.timestamp a)) = true)
       (ActivityLogRepository.get_history i limit db)
  /\ (limit < 0 \/ Z.of_nat (List.length all) <= limit ->
      Permutation (ActivityLogRepository.get_history i limit db) all).
Proof.
  intros all. unfold ActivityLogRepository.get_history.
  fold all.
  assert (Hsorted : StronglySorted
            (fun a b => ActivityLogRepository.newer_first a b = true)
            (sort_asc ActivityLogRepository.newer_first all)).
  { apply sort_asc_sorted; unfold ActivityLogRepository.newer_first.
    - intros a b. apply String.leb_total.
    - intros a b c H1 H2. exact (string_leb_trans _ _ _ H2 H1). }
  assert (Hperm := sort_asc_perm ActivityLogRepository.newer_first all).
  unfold ActivityLogRepository.sql_limit. split_all.
  - intros a Ha.
    assert (Hin : In a (sort_asc ActivityLogRepository.newer_first all))
      by (destruct (limit <? 0); [exact Ha | exact (firstn_in _ _ _ Ha)]).
    apply (Permutation_in _ Hperm) in Hin. apply filter_In in Hin.
    destruct Hin as [Hin Hid]. apply Z.eqb_eq in Hid. auto.
  - intros Hl. apply Z.ltb_ge in Hl. rewrite Hl. apply firstn_le_length.
  - destruct (limit <? 0); [exact Hsorted|].
    revert Hsorted. generalize (sort_asc ActivityLogRepository.newer_first all).
    intros l. revert l. induction (Z.to_nat limit) as [|n IH];
      intros [|x l] Hs; simpl; try constructor.
    + inversion Hs; subst. apply IH. assumption.
    + inversion Hs as [|? ? _ Hx]; subst. rewrite Forall_forall in *.
      intros c Hc. apply Hx. exact (firstn_in _ _ _ Hc).
  - intros Hl. destruct (limit <? 0) eqn:E; [exact Hperm|].
    apply Z.ltb_ge in E. destruct Hl as [Hl|Hl]; [lia|].
    rewrite firstn_all2; [exact Hperm|].
    rewrite (Permutation_length Hperm). lia.
Qed.

Lemma get_history_newest_first_witness :
  let t1 := mk_datetime 2026 10 20 18 0 0 0 in
  let t2 := mk_datetime 2026 10 21 8 0 0 0 in
  let napa := Medicine.mk 1 "Napa" 3 "tablets" None None 5 "Bea" t1 7 t1 in
  let db := mk_db [napa] 1
              [Activity.mk 1 1 "added" (Some 3) 5 "Bea" t1 7;
               Activity.mk 2 1 "used" (Some (-1)) 5 "Bea" t2 7] 2 in
  (List.length (ActivityLogRepository.get_history 1 1 db) <= Z.to_nat 1)%nat
  /\ Permutation (ActivityLogRepository.get_history 1 50 db) (activity_log db).
Proof.
  intros t1 t2 napa db.
  destruct (get_history_newest_first 1 1 db) as (_ & Hlen & _).
  destruct (get_history_newest_first 1 50 db) as (_ & _ & _ & Hall).
  split; [apply Hlen; lia | apply Hall; right; simpl; lia].
Defined.

(** * Further properties of the classifiers *)

Ltac all_chars c := destruct c as [[] [] [] [] [] [] [] []]; vm_compute; reflexivity.

Lemma lower_char_idem (c : ascii) : lower_char (lower_char c) = lower_char c.
Proof. all_chars c. Qed.

Lemma upper_char_idem (c : ascii) : upper_char (upper_char c) = upper_char c.
Proof. all_chars c. Qed.

Lemma is_alpha_upper_char (c : ascii) : is_alpha (upper_char c) = is_alpha c.
Proof. all_chars c. Qed.

Lemma is_alpha_lower_char (c : ascii) : is_alpha (lower_char c) = is_alpha c.
Proof. all_chars c. Qed.

Lemma is_space_upper_char (c : ascii) : is_space (upper_char c) = is_space c.
Proof. all_chars c. Qed.

Lemma is_alpha_not_space (c : ascii) : is_alpha c && is_space c = false.
Proof. all_chars c. Qed.

Lemma lower_idem (s : string) : lower (lower s) = lower s.
Proof.
  induction s as [|c s IH]; simpl; [reflexivity|].
  rewrite lower_char_idem, IH. reflexivity.
Qed.

Lemma title_from_idem (b : bool) (s : string) :
  title_from b (title_from b s) = title_from b s.
Proof.
  revert b. induction s as [|c s IH]; intros b; simpl; [reflexivity|].
  destruct (is_alpha c) eqn:E; simpl.
  - destruct b.
    + rewrite is_alpha_lower_char, E, lower_char_idem, IH. reflexivity.
    + rewrite is_alpha_upper_char, E, upper_char_idem, IH. reflexivity.
  - rewrite E, IH. reflexivity.
Qed.

Lemma title_from_head_space (b : bool) (c : ascii) (s : string) :
  exists c' s', title_from b (String c s) = String c' s'
                /\ is_space c' = is_space c
                /\ s' = title_from (is_alpha c) s.
Proof.
  simpl. destruct (is_alpha c) eqn:E.
  - eexists. eexists. split; [reflexivity|]. split; [|reflexivity].
    destruct b; [apply is_space_lower_char | apply is_space_upper_char].
  - eexists. eexists. split; [reflexivity|]. split; reflexivity.
Qed.

Lemma lstrip_title (s : string) : lstrip (title s) = title (lstrip s).
Proof.
  unfold title. induction s as [|c s IH]; [reflexivity|].
  destruct (title_from_head_space false c s) as (c' & s' & H & Hsp & Hs').
  rewrite H. simpl lstrip. rewrite Hsp.
  destruct (is_space c) eqn:E.
  - pose proof (is_alpha_not_space c) as Hn. rewrite E, andb_true_r in Hn.
    rewrite Hs', Hn. exact IH.
  - symmetry. exact H.
Qed.

Lemma title_from_empty (b : bool) (s : string) :
  title_from b s = EmptyString <-> s = EmptyString.
Proof.
  destruct s as [|c s]; simpl; [tauto|].
  destruct (is_alpha c); split; discriminate.
Qed.

Lemma rstrip_title_from (b : bool) (s : string) :
  rstrip (title_from b s) = title_from b (rstrip s).
Proof.
  revert b. induction s as [|c s IH]; intros b; [reflexivity|].
  destruct (title_from_head_space b c s) as (c' & s' & H & Hsp & Hs').
  rewrite H. simpl rstrip. rewrite Hs', IH, Hsp.
  destruct (rstrip s) as [|d r] eqn:E.
  - simpl title_from at 1. destruct (is_space c) eqn:F; [reflexivity|].
    simpl in H. simpl. destruct (is_alpha c); injection H as <- _; reflexivity.
  - destruct (title_from (is_alpha c) (String d r)) as [|d' r'] eqn:G.
    + apply title_from_empty in G. discriminate.
    + rewrite <- G. simpl in H. simpl.
      destruct (is_alpha c); injection H as <- _; reflexivity.
Qed.

Lemma strip_of_title (s : string) : strip (title s) = title (strip s).
Proof.
  unfold strip. unfold title at 1. rewrite rstrip_title_from.
  fold (title (rstrip s)). apply lstrip_title.
Qed.

(** The name of an intent: a captured text, trimmed and put in title case.
    It has no space at either end and is in title case already. *)
Lemma strip_title_normal (x : option string) (name : string) :
  Parsers.strip_title x = Ok name ->
  strip name = name /\ title name = name.
Proof.
  destruct x as [s|]; simpl; [|discriminate].
  intros H. injection H as <-. split.
  - rewrite strip_of_title, strip_idem. reflexivity.
  - apply title_from_idem.
Qed.

Lemma normalize_unit_in (u : string) :
  In (AddCommandParser._normalize_unit u) canonical_units.
Proof.
  unfold AddCommandParser._normalize_unit, canonical_units.
  repeat match goal with
         | |- context [if ?b then _ else _] => destruct b
         end; simpl; tauto.
Qed.

(** X13. [_normalize_unit] always returns one of the seven unit names, and
    "tablets" for a word it does not know; it does not look at the case of
    its argument or at the space around it, and applying it twice changes
    nothing. *)
Theorem normalize_unit_canonical (u : string) :
  In (AddCommandParser._normalize_unit u) canonical_units
  /\ AddCommandParser._normalize_unit (AddCommandParser._normalize_unit u)
     = AddCommandParser._normalize_unit u
  /\ AddCommandParser._normalize_unit (lower u)
     = AddCommandParser._normalize_unit u
  /\ AddCommandParser._normalize_unit (strip u)
     = AddCommandParser._normalize_unit u.
Proof.
  pose proof (normalize_unit_in u) as Hin.
  split_all.
  - exact Hin.
  - unfold canonical_units in Hin. simpl in Hin.
    repeat (destruct Hin as [Hin|Hin]; [rewrite <- Hin; reflexivity|]).
    contradiction.
  - unfold AddCommandParser._normalize_unit. rewrite lower_idem. reflexivity.
  - unfold AddCommandParser._normalize_unit.
    rewrite strip_lower, strip_idem, <- strip_lower. reflexivity.
Qed.

Lemma add_pattern_loop_shape (dp : string -> option datetime)
    (patterns : list Re.regex) (text text_lower : string) (r : ParsedCommand) :
  AddCommandParser.pattern_loop dp patterns text text_lower = Ok (Some r) ->
  command_type r = Add /\ normal_name (medicine_name r)
  /\ In (unit r) canonical_units /\ confidence r = 1%Q /\ raw_text r = "".
Proof.
  induction patterns as [|p rest IH]; simpl; [discriminate|].
  destruct (Re.re_search p text_lower); [|exact IH].
  destruct (AddCommandParser.extract text_lower c) as [[[mn q] u]|e];
    simpl; [|discriminate].
  destruct (AddCommandParser._extract_expiry_date dp text); simpl;
    [|discriminate].
  destruct (AddCommandParser._extract_location text); simpl; [|discriminate].
  destruct (Parsers.strip_title mn) as [n|] eqn:E; simpl; [|discriminate].
  intros H. injection H as <-. simpl. split_all; try reflexivity.
  - exists n. split; [reflexivity|]. exact (strip_title_normal mn n E).
  - apply normalize_unit_in.
Qed.

Lemma use_pattern_loop_shape (patterns : list Re.regex) (text_lower : string)
    (r : ParsedCommand) :
  UseCommandParser.pattern_loop patterns text_lower = Ok (Some r) ->
  command_type r = Use /\ normal_name (medicine_name r)
  /\ (exists q, quantity r = Some q) /\ unit r = "tablets"
  /\ expiry_date r = None /\ location r = None
  /\ confidence r = 1%Q /\ raw_text r = "".
Proof.
  induction patterns as [|p rest IH]; simpl; [discriminate|].
  destruct (Re.re_search p text_lower); [|exact IH].
  destruct (UseCommandParser.extract text_lower c) as [[mn q]|e];
    simpl; [|discriminate].
  destruct (Parsers.strip_title mn) as [n|] eqn:E; simpl; [|discriminate].
  intros H. injection H as <-. simpl. split_all; try reflexivity.
  - exists n. split; [reflexivity|]. exact (strip_title_normal mn n E).
  - exists q. reflexivity.
Qed.

Lemma search_pattern_loop_shape (patterns : list Re.regex) (text_lower : string)
    (r : ParsedCommand) :
  SearchCommandParser.pattern_loop patterns text_lower = Ok (Some r) ->
  command_type r = Search /\ normal_name (medicine_name r)
  /\ quantity r = None /\ confidence r = 1%Q /\ raw_text r = "".
Proof.
  induction patterns as [|p rest IH]; simpl; [discriminate|].
  destruct (Re.re_search p text_lower); [|exact IH].
  destruct (Re.group_at c 0) as [mn|]; simpl; [|discriminate].
  destruct (Parsers.strip_title mn) as [n|] eqn:E; simpl; [|discriminate].
  intros H. injection H as <-. simpl. split_all; try reflexivity.
  exists n. split; [reflexivity|]. exact (strip_title_normal mn n E).
Qed.

(** X14. The shape of every intent the dispatcher returns for a text of
    ASCII code points. Its [raw_text] is the trimmed input. A List intent has
    no name and no quantity. An Add, Use or Search intent has a name that is
    trimmed and in title case; an Add intent has one of the seven unit names;
    a Use intent always has a quantity, and the default unit; a Search intent
    has no quantity. The confidence is 0 for Unknown and 1 otherwise. *)
Theorem intent_shape (dp : string -> option datetime) (text : string)
    (r : ParsedCommand) :
  ascii_text text = true ->
  CommandParser.parse dp text = Ok r ->
  raw_text r = strip text
  /\ match command_type r with
     | List => medicine_name r = None /\ quantity r = None
               /\ confidence r = 1%Q
     | Add => normal_name (medicine_name r) /\ In (unit r) canonical_units
              /\ confidence r = 1%Q
     | Use => normal_name (medicine_name r) /\ (exists q, quantity r = Some q)
              /\ unit r = "tablets" /\ expiry_date r = None
              /\ location r = None /\ confidence r = 1%Q
     | Search => normal_name (medicine_name r) /\ quantity r = None
                 /\ confidence r = 1%Q
     | Unknown => medicine_name r = None /\ quantity r = None
                  /\ confidence r = 0%Q
     end.
Proof.
  intros _. unfold CommandParser.parse.
  destruct (ListCommandParser.parse (strip text)) as [l|] eqn:El.
  { intros H. injection H as <-.
    apply keyword_loop_some in El. subst l. simpl. auto. }
  destruct (AddCommandParser.parse dp (strip text)) as [[a|]|] eqn:Ea;
    simpl; [| |discriminate].
  { intros H. injection H as <-. unfold AddCommandParser.parse in Ea.
    destruct (negb _); [discriminate|].
    destruct (add_pattern_loop_shape _ _ _ _ _ Ea) as (H1 & H2 & H3 & H4 & _).
    simpl. rewrite H1. auto. }
  destruct (UseCommandParser.parse (strip text)) as [[u|]|] eqn:Eu;
    simpl; [| |discriminate].
  { intros H. injection H as <-. unfold UseCommandParser.parse in Eu.
    destruct (negb _); [discriminate|].
    destruct (use_pattern_loop_shape _ _ _ Eu)
      as (H1 & H2 & H3 & H4 & H5 & H6 & H7 & _).
    simpl. rewrite H1. auto 10. }
  destruct (SearchCommandParser.parse (strip text)) as [[x|]|] eqn:Es;
    simpl; [| |discriminate].
  { intros H. injection H as <-. unfold SearchCommandParser.parse in Es.
    destruct (negb _); [discriminate|].
    destruct (search_pattern_loop_shape _ _ _ Es) as (H1 & H2 & H3 & H4 & _).
    simpl. rewrite H1. auto. }
  intros H. injection H as <-. simpl. auto.
Qed.

Lemma intent_shape_witness :
  let r := mk_parsed Use (Some "Napa  Extra") (Some 1) "tablets" None None 1%Q
             "took some napa  EXTRA" in
  raw_text r = strip "  took some napa  EXTRA "
  /\ normal_name (medicine_name r) /\ (exists q, quantity r = Some q)
  /\ unit r = "tablets" /\ expiry_date r = None
  /\ location r = None /\ confidence r = 1%Q.
Proof.
  intros r.
  apply (intent_shape (fun _ => None) "  took some napa  EXTRA " r).
  - reflexivity.
  - vm_compute. reflexivity.
Defined.

(** ** What the patterns capture *)

Lemma every_app (f : ascii -> bool) (a b : string) :
  every f (a ++ b) = every f a && every f b.
Proof.
  induction a as [|c a IH]; simpl; [reflexivity|].
  rewrite IH. apply andb_assoc.
Qed.

Lemma every_impl (f g : ascii -> bool) (s : string) :
  (forall c, f c = true -> g c = true) ->
  every f s = true -> every g s = true.
Proof.
  intros Hfg. induction s as [|c s IH]; simpl; [reflexivity|].
  intros H. apply andb_true_iff in H as [H1 H2].
  rewrite (Hfg c H1), (IH H2). reflexivity.
Qed.

Lemma substring_append (t s : string) :
  substring 0 (String.length t) (t ++ s) = t.
Proof.
  induction t as [|c t IH]; simpl.
  - destruct s; reflexivity.
  - rewrite IH. reflexivity.
Qed.

Lemma consumed_append (t s : string) : Re.consumed (t ++ s) s = t.
Proof.
  unfold Re.consumed. rewrite length_append.
  replace (String.length t + String.length s - String.length s)%nat
    with (String.length t) by lia.
  apply substring_append.
Qed.

Lemma lit_match_sound (p s s' : string) :
  Re.lit_match p s = Some s' ->
  exists t, s = t ++ s' /\ lower t = lower p.
Proof.
  revert s. induction p as [|a p IH]; intros s H.
  - simpl in H. injection H as <-. exists "". split; reflexivity.
  - destruct s as [|b s]; simpl in H; [discriminate|].
    destruct (Ascii.eqb (lower_char a) (lower_char b)) eqn:E; [|discriminate].
    apply Ascii.eqb_eq in E.
    destruct (IH s H) as (t & -> & Ht).
    exists (String b t). simpl. rewrite Ht, E. split; reflexivity.
Qed.

Lemma rep_sound (A : Type) (c : Re.cls) (caps : Re.captures)
    (k : Re.cont) (x : A) (s : string) :
  forall (lo : nat) (hi : option nat) (bol : bool),
  Re.rep c lo hi bol s caps k = Some x ->
  exists bol' t s',
    s = t ++ s' /\ every (Re.cls_match c) t = true
    /\ (lo <= String.length t)%nat /\ k bol' s' caps = Some x.
Proof.
  induction s as [|a s IH]; intros lo hi bol H.
  - simpl in H. destruct (Nat.eqb lo 0) eqn:E; [|discriminate].
    apply Nat.eqb_eq in E. exists bol, "", "".
    split_all; [reflexivity | reflexivity | simpl; lia | exact H].
  - assert (Hstop : (if Nat.eqb lo 0 then k bol (String a s) caps else None)
                    = Some x ->
                    exists bol' t s',
                      String a s = t ++ s' /\ every (Re.cls_match c) t = true
                      /\ (lo <= String.length t)%nat
                      /\ k bol' s' caps = Some x).
    { intros Hs. destruct (Nat.eqb lo 0) eqn:E; [|discriminate].
      apply Nat.eqb_eq in E. exists bol, "", (String a s).
      split_all; [reflexivity | reflexivity | simpl; lia | exact Hs]. }
    simpl in H.
    destruct (Re.cls_match c a
              && match hi with Some O => false | _ => true end) eqn:E;
      [|exact (Hstop H)].
    destruct (Re.rep c (Nat.pred lo) (option_map Nat.pred hi) false s caps k)
      as [y|] eqn:R; [|exact (Hstop H)].
    injection H as ->.
    destruct (IH _ _ _ R) as (bol' & t & s' & -> & Ht & Hlo & Hk).
    apply andb_true_iff in E as [E _].
    exists bol', (String a t), s'.
    split_all; [reflexivity | simpl; rewrite E, Ht; reflexivity
               | simpl; lia | exact Hk].
Qed.

Lemma captured_set_nth (Q : string -> Prop) (i : nat) (t : string)
    (caps : Re.captures) :
  Q t -> captured Q caps -> captured Q (Re.set_nth i (Some t) caps).
Proof.
  intros Ht H. revert i. induction H as [|g caps Hg H IH]; intros i.
  - destruct i; constructor.
  - destruct i; simpl.
    + constructor; [|exact H]. intros t' E. injection E as <-. exact Ht.
    + constructor; [exact Hg | apply IH].
Qed.

(** Whatever the matcher hands to its continuation is the input less a text
    the pattern can consume, and the groups set on the way hold texts their
    patterns can consume. *)
Lemma run_sound (A : Type) (Q : string -> Prop) (r : Re.regex) :
  groups_in Q r ->
  forall (bol : bool) (s : string) (caps : Re.captures) (k : Re.cont) (x : A),
  Re.run r bol s caps k = Some x ->
  exists bol' t s' caps',
    s = t ++ s' /\ lang r t /\ (captured Q caps -> captured Q caps')
    /\ k bol' s' caps' = Some x.
Proof.
  induction r as [| |p|c lo hi|a IHa b IHb|a IHa b IHb|a IHa|i a IHa];
    intros G bol s caps k x H; simpl in H.
  - exists bol, "", s, caps. split_all; auto; reflexivity.
  - destruct bol; [|discriminate].
    exists true, "", s, caps. split_all; auto; reflexivity.
  - destruct (Re.lit_match p s) as [s'|] eqn:L; [|discriminate].
    destruct (lit_match_sound _ _ _ L) as (t & -> & Ht).
    exists (bol && String.eqb p ""), t, s', caps. split_all; auto.
  - destruct (rep_sound _ _ _ _ _ _ _ _ _ H) as (bol' & t & s' & E & Ht & Hlo & Hk).
    exists bol', t, s', caps. split_all; auto. split; assumption.
  - destruct G as [Ga Gb].
    destruct (IHa Ga _ _ _ _ _ H) as (bol1 & t1 & s1 & caps1 & -> & L1 & C1 & H1).
    destruct (IHb Gb _ _ _ _ _ H1) as (bol2 & t2 & s2 & caps2 & -> & L2 & C2 & H2).
    exists bol2, (t1 ++ t2), s2, caps2. split_all; auto.
    + clear. induction t1 as [|c t1 IH]; simpl; [reflexivity|].
      rewrite IH. reflexivity.
    + exists t1, t2. auto.
  - destruct G as [Ga Gb].
    destruct (Re.run a bol s caps k) as [y|] eqn:R.
    + injection H as ->.
      destruct (IHa Ga _ _ _ _ _ R) as (bol1 & t1 & s1 & caps1 & E & L1 & C1 & H1).
      exists bol1, t1, s1, caps1. split_all; auto. left. exact L1.
    + destruct (IHb Gb _ _ _ _ _ H) as (bol1 & t1 & s1 & caps1 & E & L1 & C1 & H1).
      exists bol1, t1, s1, caps1. split_all; auto. right. exact L1.
  - destruct (Re.run a bol s caps k) as [y|] eqn:R.
    + injection H as ->.
      destruct (IHa G _ _ _ _ _ R) as (bol1 & t1 & s1 & caps1 & E & L1 & C1 & H1).
      exists bol1, t1, s1, caps1. split_all; auto. right. exact L1.
    + exists bol, "", s, caps. split_all; auto. left. reflexivity.
  - destruct G as [Gq Ga].
    destruct (IHa Ga _ _ _ _ _ H) as (bol1 & t1 & s1 & caps1 & -> & L1 & C1 & H1).
    rewrite consumed_append in H1.
    exists bol1, t1, s1, (Re.set_nth i (Some t1) caps1). split_all; auto.
    intros C. apply captured_set_nth; auto.
Qed.

Lemma captured_no_groups (Q : string -> Prop) (r : Re.regex) :
  captured Q (Re.no_groups r).
Proof.
  unfold captured, Re.no_groups.
  induction (Re.ngroups r); simpl; constructor; [discriminate | assumption].
Qed.

(** The groups of a successful search hold texts their patterns can
    consume. *)
Lemma re_search_captured (Q : string -> Prop) (r : Re.regex) (s : string)
    (caps : Re.captures) :
  groups_in Q r -> Re.re_search r s = Some caps -> captured Q caps.
Proof.
  intros G. unfold Re.re_search. generalize true.
  induction s as [|c s IH]; intros bol H; simpl in H.
  - destruct (Re.run r bol "" (Re.no_groups r) (fun _ _ caps0 => Some caps0))
      as [y|] eqn:R; [|discriminate].
    injection H as ->.
    destruct (run_sound _ Q r G _ _ _ _ _ R) as (_ & _ & _ & caps' & _ & _ & C & E).
    injection E as <-. apply C, captured_no_groups.
  - destruct (Re.run r bol (String c s) (Re.no_groups r)
                (fun _ _ caps0 => Some caps0)) as [y|] eqn:R.
    + injection H as ->.
      destruct (run_sound _ Q r G _ _ _ _ _ R) as (_ & _ & _ & caps' & _ & _ & C & E).
      injection E as <-. apply C, captured_no_groups.
    + exact (IH _ H).
Qed.

Lemma captured_group_at (Q : string -> Prop) (caps : Re.captures) (i : nat)
    (v : option string) (t : string) :
  captured Q caps -> Re.group_at caps i = Ok v -> v = Some t -> Q t.
Proof.
  intros C H ->. unfold Re.group_at in H.
  destruct (nth_error caps i) as [g|] eqn:E; [|discriminate].
  injection H as ->.
  unfold captured in C. rewrite Forall_forall in C.
  exact (C _ (nth_error_In _ _ E) t eq_refl).
Qed.

Lemma captured_nth (Q : string -> Prop) (caps : Re.captures) (i : nat)
    (t : string) :
  captured Q caps -> nth i caps None = Some t -> Q t.
Proof.
  intros C H. unfold captured in C. rewrite Forall_forall in C.
  destruct (Nat.lt_ge_cases i (List.length caps)) as [Hi|Hi].
  - exact (C _ (nth_In caps None Hi) t H).
  - rewrite nth_overflow in H by exact Hi. discriminate.
Qed.

Lemma cls_match_word (c : ascii) : Re.cls_match Re.CWord c = is_word c.
Proof. all_chars c. Qed.

Lemma cls_match_space (c : ascii) : Re.cls_match Re.CSpace c = is_space c.
Proof. all_chars c. Qed.

Lemma cls_match_digit_word (c : ascii) :
  Re.cls_match Re.CDigit c = true -> is_word c = true.
Proof.
  destruct c as [[] [] [] [] [] [] [] []]; vm_compute; intros H;
    first [reflexivity | discriminate H].
Qed.

Lemma words_word_text (f : ascii -> bool) (t : string) :
  (forall c, f c = true -> is_word c = true) ->
  every f t = true -> (1 <= String.length t)%nat -> word_text t.
Proof.
  intros Hf H Hlen. destruct t as [|c rest]; [simpl in Hlen; lia|].
  simpl in H. apply andb_true_iff in H as [H1 H2].
  exists c, rest. split_all; [reflexivity | exact (Hf c H1)|].
  apply (every_impl f); [|exact H2].
  intros d Hd. unfold word_or_space. rewrite (Hf d Hd). reflexivity.
Qed.

Lemma word_lang (t : string) : lang (Re.Plus Re.CWord) t -> word_text t.
Proof.
  intros [H Hlen]. apply (words_word_text (Re.cls_match Re.CWord)); auto.
  intros c Hc. rewrite <- cls_match_word. exact Hc.
Qed.

Lemma digits_lang (t : string) : lang (Re.Plus Re.CDigit) t -> word_text t.
Proof.
  intros [H Hlen]. apply (words_word_text (Re.cls_match Re.CDigit)); auto.
  exact cls_match_digit_word.
Qed.

Lemma name_lang (t : string) : lang name_re t -> word_text t.
Proof.
  intros (t1 & t2 & -> & L1 & L2).
  destruct (word_lang t1 L1) as (c & rest & -> & Hc & Hrest).
  exists c, (rest ++ t2). split_all; [reflexivity | exact Hc|].
  rewrite every_app, Hrest. simpl.
  destruct L2 as [->|(t3 & t4 & -> & [H3 _] & [H4 _])]; [reflexivity|].
  rewrite every_app. apply andb_true_iff. split.
  - apply (every_impl (Re.cls_match Re.CSpace)); [|exact H3].
    intros d Hd. rewrite cls_match_space in Hd.
    unfold word_or_space. rewrite Hd. apply orb_true_r.
  - apply (every_impl (Re.cls_match Re.CWord)); [|exact H4].
    intros d Hd. rewrite cls_match_word in Hd.
    unfold word_or_space. rewrite Hd. reflexivity.
Qed.

Ltac groups_in_patterns :=
  repeat (apply Forall_cons;
          [simpl; split_all;
           first [exact I | exact name_lang | exact digits_lang
                 | exact word_lang]|]);
  apply Forall_nil.

Lemma add_patterns_groups :
  Forall (groups_in word_text) AddCommandParser.PATTERNS.
Proof. groups_in_patterns. Qed.

Lemma use_patterns_groups :
  Forall (groups_in word_text) UseCommandParser.PATTERNS.
Proof. groups_in_patterns. Qed.

Lemma search_patterns_groups :
  Forall (groups_in word_text) SearchCommandParser.PATTERNS.
Proof. groups_in_patterns. Qed.

Lemma every_rstrip (f : ascii -> bool) (s : string) :
  every f s = true -> every f (rstrip s) = true.
Proof.
  induction s as [|c s IH]; simpl; [reflexivity|].
  intros H. apply andb_true_iff in H as [H1 H2]. specialize (IH H2).
  destruct (rstrip s) as [|d r].
  - destruct (is_space c); simpl; [reflexivity|]. rewrite H1. reflexivity.
  - change (every f (String c (String d r))) with (f c && every f (String d r)).
    rewrite H1, IH. reflexivity.
Qed.

Lemma every_lstrip (f : ascii -> bool) (s : string) :
  every f s = true -> every f (lstrip s) = true.
Proof.
  induction s as [|c s IH]; simpl; [reflexivity|].
  intros H. destruct (is_space c); [|exact H].
  apply andb_true_iff in H as [_ H2]. exact (IH H2).
Qed.

Lemma is_word_not_space (c : ascii) : is_word c = true -> is_space c = false.
Proof.
  destruct c as [[] [] [] [] [] [] [] []]; vm_compute; intros H;
    first [reflexivity | discriminate H].
Qed.

Lemma word_or_space_upper_char (c : ascii) :
  word_or_space (upper_char c) = word_or_space c.
Proof. all_chars c. Qed.

Lemma word_or_space_lower_char (c : ascii) :
  word_or_space (lower_char c) = word_or_space c.
Proof. all_chars c. Qed.

Lemma every_title_from (b : bool) (s : string) :
  every word_or_space (title_from b s) = every word_or_space s.
Proof.
  revert b. induction s as [|c s IH]; intros b; simpl; [reflexivity|].
  destruct (is_alpha c); simpl; rewrite IH; [|reflexivity].
  destruct b; [rewrite word_or_space_lower_char
              | rewrite word_or_space_upper_char]; reflexivity.
Qed.

(** Trimming a text that starts with a word character keeps that
    character. *)
Lemma strip_word_head (c : ascii) (rest : string) :
  is_word c = true -> exists r, strip (String c rest) = String c r.
Proof.
  intros Hc. apply is_word_not_space in Hc. unfold strip. simpl.
  destruct (rstrip rest) as [|d r].
  - rewrite Hc. simpl. rewrite Hc. exists "". reflexivity.
  - simpl. rewrite Hc. exists (String d r). reflexivity.
Qed.

(** The name made of a captured text is not empty and has only letters,
    digits, underscores and white space. *)
Lemma strip_title_word_text (x : option string) (name : string) :
  (forall t, x = Some t -> word_text t) ->
  Parsers.strip_title x = Ok name ->
  name <> "" /\ every word_or_space name = true.
Proof.
  intros Hx H. destruct x as [t|]; simpl in H; [|discriminate].
  injection H as <-.
  destruct (Hx t eq_refl) as (c & rest & E & Hc & Hrest).
  split.
  - subst t. destruct (strip_word_head c rest Hc) as [r ->].
    unfold title. simpl. destruct (is_alpha c); discriminate.
  - unfold title. rewrite every_title_from. unfold strip.
    apply every_lstrip, every_rstrip. subst t. simpl.
    unfold word_or_space at 1. rewrite Hc, Hrest. reflexivity.
Qed.

Lemma digit_value_nonneg (c : ascii) : is_digit c = true -> 0 <= digit_value c.
Proof.
  unfold is_digit, between, digit_value. intros H.
  apply andb_true_iff in H as [H _]. apply N.leb_le in H. lia.
Qed.

Lemma digits_value_nonneg (s : string) :
  forall (acc : Z) (after_digit : bool) (n : Z),
  0 <= acc -> digits_value acc after_digit s = Some n -> 0 <= n.
Proof.
  induction s as [|c s IH]; intros acc b n Hacc H; simpl in H.
  - destruct b; [|discriminate]. injection H as <-. exact Hacc.
  - destruct (is_digit c) eqn:D.
    + pose proof (digit_value_nonneg c D) as Hd.
      apply (IH (10 * acc + digit_value c) true n); [lia | exact H].
    + destruct ((code c =? 95)%N && b); [|discriminate].
      exact (IH _ _ _ Hacc H).
Qed.

(** [int] of a captured text, where it is a number at all, is not
    negative: no group can hold a sign. *)
Lemma int_of_word_text (x : option string) (n : Z) :
  (forall t, x = Some t -> word_text t) -> int_of x = Ok n -> 0 <= n.
Proof.
  intros Hx H. destruct x as [t|]; simpl in H; [|discriminate].
  destruct (Hx t eq_refl) as (c & rest & -> & Hc & _).
  unfold int_of_str in H.
  destruct (strip_word_head c rest Hc) as [r E]. rewrite E in H.
  assert (B : digits_value 0 false (String c r) = Some n).
  { destruct c as [[] [] [] [] [] [] [] []];
      try (vm_compute in Hc; discriminate Hc);
      cbv beta iota zeta in H;
      match type of H with
      | match ?d with _ => _ end = _ =>
          destruct d as [m|]; [injection H as <-; reflexivity | discriminate H]
      end. }
  exact (digits_value_nonneg _ _ _ _ (Z.le_refl 0) B).
Qed.

Lemma add_extract_sound (text_lower : string) (groups : Re.captures)
    (mn : option string) (q : option Z) (u : string) :
  captured word_text groups ->
  AddCommandParser.extract text_lower groups = Ok (mn, q, u) ->
  (forall t, mn = Some t -> word_text t) /\ (forall n, q = Some n -> 0 <= n).
Proof.
  intros C H. unfold AddCommandParser.extract in H.
  destruct (startswith text_lower "+").
  { destruct (Re.group_at groups 0) as [g0|] eqn:E0; cbn [bind] in H; [|discriminate].
    destruct (Re.group_at groups 1) as [g1|] eqn:E1; cbn [bind] in H; [|discriminate].
    destruct (int_of g1) as [n|] eqn:En; cbn [bind] in H; [|discriminate].
    injection H as <- <- <-. split.
    - intros t. exact (captured_group_at _ _ _ _ t C E0).
    - intros m Hm. injection Hm as <-.
      apply (int_of_word_text g1); [|exact En].
      intros t. exact (captured_group_at _ _ _ _ t C E1). }
  destruct (first_isdigit text_lower) as [d|]; cbn [bind] in H; [|discriminate].
  destruct d.
  { destruct (Re.group_at groups 0) as [g0|] eqn:E0; cbn [bind] in H; [|discriminate].
    destruct (int_of g0) as [n|] eqn:En; cbn [bind] in H; [|discriminate].
    destruct (Re.group_at groups 1) as [g1|] eqn:E1; cbn [bind] in H; [|discriminate].
    injection H as <- <- <-. split.
    - intros t. exact (captured_group_at _ _ _ _ t C E1).
    - intros m Hm. injection Hm as <-.
      apply (int_of_word_text g0); [|exact En].
      intros t. exact (captured_group_at _ _ _ _ t C E0). }
  destruct ((2 <=? List.length groups)%nat && truthy (nth 1 groups None)).
  { destruct (Re.group_at groups 0) as [g0|] eqn:E0; cbn [bind] in H; [|discriminate].
    destruct (int_of (nth 1 groups None)) as [n|e] eqn:En.
    - cbn [bind] in H. injection H as <- <- _. split.
      + intros t. exact (captured_group_at _ _ _ _ t C E0).
      + intros m Hm. injection Hm as <-.
        apply (int_of_word_text (nth 1 groups None)); [|exact En].
        intros t. exact (captured_nth _ _ _ t C).
    - destruct e; cbn [bind] in H; try discriminate;
        injection H as <- <- _;
        (split; [intros t; exact (captured_group_at _ _ _ _ t C E0)
                | discriminate]). }
  destruct (Re.group_at groups 0) as [g0|] eqn:E0; cbn [bind] in H; [|discriminate].
  injection H as <- <- _. split.
  - intros t. exact (captured_group_at _ _ _ _ t C E0).
  - discriminate.
Qed.

Lemma use_extract_sound (text_lower : string) (groups : Re.captures)
    (mn : option string) (q : Z) :
  captured word_text groups ->
  UseCommandParser.extract text_lower groups = Ok (mn, q) ->
  (forall t, mn = Some t -> word_text t) /\ 0 <= q.
Proof.
  intros C H. unfold UseCommandParser.extract in H.
  destruct (startswith text_lower "-").
  { destruct (Re.group_at groups 0) as [g0|] eqn:E0; cbn [bind] in H; [|discriminate].
    destruct (Re.group_at groups 1) as [g1|] eqn:E1; cbn [bind] in H; [|discriminate].
    destruct (int_of g1) as [n|] eqn:En; cbn [bind] in H; [|discriminate].
    injection H as <- <-. split.
    - intros t. exact (captured_group_at _ _ _ _ t C E0).
    - apply (int_of_word_text g1); [|exact En].
      intros t. exact (captured_group_at _ _ _ _ t C E1). }
  destruct (UseCommandParser.first_group_isdigit groups) as [d|];
    cbn [bind] in H; [|discriminate].
  destruct d.
  { destruct (Re.group_at groups 0) as [g0|] eqn:E0; cbn [bind] in H; [|discriminate].
    destruct (int_of g0) as [n|] eqn:En; cbn [bind] in H; [|discriminate].
    destruct (Re.group_at groups 1) as [g1|] eqn:E1; cbn [bind] in H; [|discriminate].
    injection H as <- <-. split.
    - intros t. exact (captured_group_at _ _ _ _ t C E1).
    - apply (int_of_word_text g0); [|exact En].
      intros t. exact (captured_group_at _ _ _ _ t C E0). }
  destruct ((2 <=? List.length groups)%nat && truthy (nth 1 groups None)).
  { destruct (Re.group_at groups 0) as [g0|] eqn:E0; cbn [bind] in H; [|discriminate].
    destruct (int_of (nth 1 groups None)) as [n|e] eqn:En.
    - cbn [bind] in H. injection H as <- <-. split.
      + intros t. exact (captured_group_at _ _ _ _ t C E0).
      + apply (int_of_word_text (nth 1 groups None)); [|exact En].
        intros t. exact (captured_nth _ _ _ t C).
    - destruct e; cbn [bind] in H; try discriminate;
        injection H as <- <-;
        (split; [intros t; exact (captured_group_at _ _ _ _ t C E0) | lia]). }
  destruct (Re.group_at groups 0) as [g0|] eqn:E0; cbn [bind] in H; [|discriminate].
  injection H as <- <-. split.
  - intros t. exact (captured_group_at _ _ _ _ t C E0).
  - lia.
Qed.

Lemma add_pattern_loop_fields (dp : string -> option datetime)
    (patterns : list Re.regex) (text text_lower : string) (r : ParsedCommand) :
  Forall (groups_in word_text) patterns ->
  AddCommandParser.pattern_loop dp patterns text text_lower = Ok (Some r) ->
  sound_fields r.
Proof.
  induction 1 as [|p rest Hp Hrest IH]; simpl; [discriminate|].
  destruct (Re.re_search p text_lower) as [groups|] eqn:S; [|exact IH].
  pose proof (re_search_captured _ _ _ _ Hp S) as C.
  destruct (AddCommandParser.extract text_lower groups) as [[[mn q] u]|e] eqn:X;
    simpl; [|discriminate].
  destruct (add_extract_sound _ _ _ _ _ C X) as [Hmn Hq].
  destruct (AddCommandParser._extract_expiry_date dp text); simpl;
    [|discriminate].
  destruct (AddCommandParser._extract_location text); simpl; [|discriminate].
  destruct (Parsers.strip_title mn) as [n|] eqn:E; simpl; [|discriminate].
  intros H. injection H as <-. split; simpl.
  - intros n' Hn. injection Hn as <-. exact (strip_title_word_text mn n Hmn E).
  - exact Hq.
Qed.

Lemma use_pattern_loop_fields (patterns : list Re.regex) (text_lower : string)
    (r : ParsedCommand) :
  Forall (groups_in word_text) patterns ->
  UseCommandParser.pattern_loop patterns text_lower = Ok (Some r) ->
  sound_fields r.
Proof.
  induction 1 as [|p rest Hp Hrest IH]; simpl; [discriminate|].
  destruct (Re.re_search p text_lower) as [groups|] eqn:S; [|exact IH].
  pose proof (re_search_captured _ _ _ _ Hp S) as C.
  destruct (UseCommandParser.extract text_lower groups) as [[mn q]|e] eqn:X;
    simpl; [|discriminate].
  destruct (use_extract_sound _ _ _ _ C X) as [Hmn Hq].
  destruct (Parsers.strip_title mn) as [n|] eqn:E; simpl; [|discriminate].
  intros H. injection H as <-. split; simpl.
  - intros n' Hn. injection Hn as <-. exact (strip_title_word_text mn n Hmn E).
  - intros q' Hq'. injection Hq' as <-. exact Hq.
Qed.

Lemma search_pattern_loop_fields (patterns : list Re.regex)
    (text_lower : string) (r : ParsedCommand) :
  Forall (groups_in word_text) patterns ->
  SearchCommandParser.pattern_loop patterns text_lower = Ok (Some r) ->
  sound_fields r.
Proof.
  induction 1 as [|p rest Hp Hrest IH]; simpl; [discriminate|].
  destruct (Re.re_search p text_lower) as [groups|] eqn:S; [|exact IH].
  pose proof (re_search_captured _ _ _ _ Hp S) as C.
  destruct (Re.group_at groups 0) as [mn|] eqn:E0; simpl; [|discriminate].
  destruct (Parsers.strip_title mn) as [n|] eqn:E; simpl; [|discriminate].
  intros H. injection H as <-. split; simpl.
  - intros n' Hn. injection Hn as <-.
    apply (strip_title_word_text mn n); [|exact E].
    intros t. exact (captured_group_at _ _ _ _ t C E0).
  - discriminate.
Qed.

Lemma parse_fields_sound (dp : string -> option datetime)
    (text : string) (r : ParsedCommand) :
  CommandParser.parse dp text = Ok r ->
  (forall n, medicine_name r = Some n ->
             n <> "" /\ every word_or_space n = true)
  /\ (forall q, quantity r = Some q -> 0 <= q).
Proof.
  unfold CommandParser.parse.
  destruct (ListCommandParser.parse (strip text)) as [l|] eqn:El.
  { intros H. injection H as <-.
    apply keyword_loop_some in El. subst l. simpl. split; discriminate. }
  destruct (AddCommandParser.parse dp (strip text)) as [[a|]|] eqn:Ea;
    simpl; [| |discriminate].
  { intros H. injection H as <-. unfold AddCommandParser.parse in Ea.
    destruct (negb _); [discriminate|].
    exact (add_pattern_loop_fields _ _ _ _ _ add_patterns_groups Ea). }
  destruct (UseCommandParser.parse (strip text)) as [[u|]|] eqn:Eu;
    simpl; [| |discriminate].
  { intros H. injection H as <-. unfold UseCommandParser.parse in Eu.
    destruct (negb _); [discriminate|].
    exact (use_pattern_loop_fields _ _ _ use_patterns_groups Eu). }
  destruct (SearchCommandParser.parse (strip text)) as [[x|]|] eqn:Es;
    simpl; [| |discriminate].
  { intros H. injection H as <-. unfold SearchCommandParser.parse in Es.
    destruct (negb _); [discriminate|].
    exact (search_pattern_loop_fields _ _ _ search_patterns_groups Es). }
  intros H. injection H as <-. simpl. split; discriminate.
Qed.

(** X15. For a text of ASCII code points, the name of an intent is never
    empty and holds only ASCII letters, digits, underscores and white space,
    and its quantity is never negative: no group of a command pattern can
    hold a sign or a punctuation mark, so [int] of a group that is a number
    at all is a natural number. *)
Theorem intent_name_and_quantity (dp : string -> option datetime)
    (text : string) (r : ParsedCommand) :
  ascii_text text = true ->
  CommandParser.parse dp text = Ok r ->
  (forall n, medicine_name r = Some n ->
             n <> "" /\ every word_or_space n = true)
  /\ (forall q, quantity r = Some q -> 0 <= q).
Proof.
  intros _. exact (parse_fields_sound dp text r).
Qed.

Lemma intent_name_and_quantity_witness :
  let r := mk_parsed Add (Some "Napa Extra") (Some 10) "tablets" None None 1%Q
             "Bought napa extra 10 tablets" in
  (forall n, medicine_name r = Some n ->
             n <> "" /\ every word_or_space n = true)
  /\ (forall q, quantity r = Some q -> 0 <= q).
Proof.
  intros r.
  apply (intent_name_and_quantity (fun _ => None)
           "Bought napa extra 10 tablets" r).
  - reflexivity.
  - vm_compute. reflexivity.
Defined.

(** ** Which exceptions the classifiers raise *)

Lemma set_nth_length (i : nat) (v : option string) (caps : Re.captures) :
  List.length (Re.set_nth i v caps) = List.length caps.
Proof.
  revert i. induction caps as [|g caps IH]; intros i;
    [destruct i; reflexivity|].
  destruct i; simpl; [reflexivity | rewrite IH; reflexivity].
Qed.

Lemma is_set_set_nth_other (i j : nat) (t : string) (caps : Re.captures) :
  is_set i caps -> is_set i (Re.set_nth j (Some t) caps).
Proof.
  unfold is_set. revert i j.
  induction caps as [|g caps IH]; intros i j H; [destruct j; exact H|].
  destruct i, j; simpl in *; eauto.
Qed.

Lemma is_set_set_nth_same (i : nat) (t : string) (caps : Re.captures) :
  (i < List.length caps)%nat -> is_set i (Re.set_nth i (Some t) caps).
Proof.
  unfold is_set. revert i.
  induction caps as [|g caps IH]; intros i H; simpl in H; [lia|].
  destruct i; simpl; [eauto | apply IH; lia].
Qed.

(** The groups that a match hands on: as many as before, those that were
    set still set, and those that every match of the pattern sets. *)
Lemma run_sets (A : Type) (r : Re.regex) :
  forall (bol : bool) (s : string) (caps : Re.captures) (k : Re.cont) (x : A),
  Re.run r bol s caps k = Some x ->
  exists bol' s' caps',
    k bol' s' caps' = Some x
    /\ List.length caps' = List.length caps
    /\ (forall i, is_set i caps -> is_set i caps')
    /\ (forall i, sets i r = true -> (i < List.length caps)%nat ->
                  is_set i caps').
Proof.
  induction r as [| |p|c lo hi|a IHa b IHb|a IHa b IHb|a IHa|j a IHa];
    intros bol s caps k x H; simpl in H.
  - exists bol, s, caps. split_all; auto; discriminate.
  - destruct bol; [|discriminate].
    exists true, s, caps. split_all; auto; discriminate.
  - destruct (Re.lit_match p s) as [s'|]; [|discriminate].
    exists (bol && String.eqb p ""), s', caps. split_all; auto; discriminate.
  - destruct (rep_sound _ _ _ _ _ _ _ _ _ H) as (bol' & t & s' & _ & _ & _ & Hk).
    exists bol', s', caps. split_all; auto; discriminate.
  - destruct (IHa _ _ _ _ _ H) as (bol1 & s1 & caps1 & H1 & L1 & K1 & S1).
    destruct (IHb _ _ _ _ _ H1) as (bol2 & s2 & caps2 & H2 & L2 & K2 & S2).
    exists bol2, s2, caps2. split_all; auto; [congruence|].
    intros i Hi Hlen. simpl in Hi. apply orb_true_iff in Hi.
    destruct Hi as [Hi|Hi]; [apply K2, S1; assumption|].
    apply S2; [exact Hi | rewrite L1; exact Hlen].
  - destruct (Re.run a bol s caps k) as [y|] eqn:R.
    + injection H as ->.
      destruct (IHa _ _ _ _ _ R) as (bol1 & s1 & caps1 & H1 & L1 & K1 & S1).
      exists bol1, s1, caps1. split_all; auto.
      intros i Hi. simpl in Hi. apply andb_true_iff in Hi. apply S1, Hi.
    + destruct (IHb _ _ _ _ _ H) as (bol1 & s1 & caps1 & H1 & L1 & K1 & S1).
      exists bol1, s1, caps1. split_all; auto.
      intros i Hi. simpl in Hi. apply andb_true_iff in Hi. apply S1, Hi.
  - destruct (Re.run a bol s caps k) as [y|] eqn:R.
    + injection H as ->.
      destruct (IHa _ _ _ _ _ R) as (bol1 & s1 & caps1 & H1 & L1 & K1 & S1).
      exists bol1, s1, caps1. split_all; auto. discriminate.
    + exists bol, s, caps. split_all; auto. discriminate.
  - destruct (IHa _ _ _ _ _ H) as (bol1 & s1 & caps1 & H1 & L1 & K1 & S1).
    exists bol1, s1, (Re.set_nth j (Some (Re.consumed s s1)) caps1).
    split_all; auto.
    + rewrite set_nth_length. exact L1.
    + intros i Hi. apply is_set_set_nth_other, K1, Hi.
    + intros i Hi Hlen. simpl in Hi. apply orb_true_iff in Hi.
      destruct Hi as [Hi|Hi].
      * apply Nat.eqb_eq in Hi. subst j. apply is_set_set_nth_same.
        rewrite L1. exact Hlen.
      * apply is_set_set_nth_other, S1; assumption.
Qed.

Lemma re_search_sets (r : Re.regex) (s : string) (caps : Re.captures) :
  Re.re_search r s = Some caps ->
  List.length caps = Re.ngroups r
  /\ forall i, sets i r = true -> (i < Re.ngroups r)%nat -> is_set i caps.
Proof.
  unfold Re.re_search. generalize true at 1.
  assert (Hlen : List.length (Re.no_groups r) = Re.ngroups r)
    by (unfold Re.no_groups; apply repeat_length).
  assert (Hrun : forall bol s y,
             Re.run r bol s (Re.no_groups r) (fun _ _ caps0 => Some caps0)
             = Some y ->
             List.length y = Re.ngroups r
             /\ forall i, sets i r = true -> (i < Re.ngroups r)%nat ->
                          is_set i y).
  { intros bol s0 y R.
    destruct (run_sets _ r _ _ _ _ _ R) as (_ & _ & caps' & E & L & _ & S).
    injection E as <-. rewrite Hlen in *. split; [exact L | exact S]. }
  induction s as [|c s IH]; intros bol H; simpl in H.
  - destruct (Re.run r bol "" (Re.no_groups r) (fun _ _ caps0 => Some caps0))
      as [y|] eqn:R; [|discriminate].
    injection H as ->. exact (Hrun _ _ _ R).
  - destruct (Re.run r bol (String c s) (Re.no_groups r)
                (fun _ _ caps0 => Some caps0)) as [y|] eqn:R.
    + injection H as ->. exact (Hrun _ _ _ R).
    + exact (IH _ H).
Qed.

(** A search with a pattern whose leading groups are always set. *)
Lemma re_search_leading (r : Re.regex) (s : string) (caps : Re.captures) :
  leading_groups_set r = true ->
  Re.re_search r s = Some caps ->
  is_set 0 caps /\ ((2 <= List.length caps)%nat -> is_set 1 caps).
Proof.
  intros Hl H. unfold leading_groups_set in Hl.
  apply andb_true_iff in Hl. destruct Hl as [H0 H1].
  destruct (re_search_sets r s caps H) as [Hlen Hsets].
  assert (Hpos : (0 < Re.ngroups r)%nat).
  { clear - H0.
    induction r; cbn [sets] in H0; cbn [Re.ngroups]; try discriminate.
    - apply orb_true_iff in H0. destruct H0 as [H0|H0];
        [specialize (IHr1 H0) | specialize (IHr2 H0)]; lia.
    - apply andb_true_iff in H0. destruct H0 as [H0 _].
      specialize (IHr1 H0). lia.
    - lia. }
  split; [apply Hsets; assumption|].
  intros H2. rewrite Hlen in H2. apply Hsets; [|lia].
  apply orb_true_iff in H1. destruct H1 as [H1|H1]; [|exact H1].
  apply Nat.ltb_lt in H1. lia.
Qed.

Lemma is_set_group_at (i : nat) (caps : Re.captures) :
  is_set i caps -> exists t, Re.group_at caps i = Ok (Some t).
Proof.
  intros [t H]. exists t. unfold Re.group_at. rewrite H. reflexivity.
Qed.

Lemma group_at_1 (caps : Re.captures) :
  ((2 <= List.length caps)%nat -> is_set 1 caps) ->
  Re.group_at caps 1 = Raise IndexError
  \/ exists t, Re.group_at caps 1 = Ok (Some t).
Proof.
  intros H. destruct (Nat.lt_ge_cases (List.length caps) 2) as [Hlt|Hge].
  - left. unfold Re.group_at.
    destruct (nth_error caps 1) eqn:E; [|reflexivity].
    assert (Hn : nth_error caps 1 <> None) by congruence.
    apply nth_error_Some in Hn. lia.
  - right. apply is_set_group_at, H, Hge.
Qed.

Lemma int_of_some (t : string) :
  int_of (Some t) = Raise ValueError \/ exists n, int_of (Some t) = Ok n.
Proof.
  simpl. unfold int_of_str.
  destruct (match strip t with
            | String "+" t0 => digits_value 0 false t0
            | String "-" t0 => option_map Z.opp (digits_value 0 false t0)
            | t0 => digits_value 0 false t0
            end) as [n|]; eauto.
Qed.

Lemma add_extract_exn (text_lower : string) (groups : Re.captures) :
  is_set 0 groups -> ((2 <= List.length groups)%nat -> is_set 1 groups) ->
  match AddCommandParser.extract text_lower groups with
  | Ok (mn, _, _) => exists t, mn = Some t
  | Raise e => e = IndexError \/ e = ValueError
  end.
Proof.
  intros H0 H1. unfold AddCommandParser.extract.
  destruct (is_set_group_at 0 groups H0) as [t0 E0].
  destruct (startswith text_lower "+").
  { rewrite E0. cbn [bind].
    destruct (group_at_1 groups H1) as [E1|[t1 E1]]; rewrite E1; cbn [bind];
      [auto|].
    destruct (int_of_some t1) as [E|[n E]]; rewrite E; cbn [bind]; eauto. }
  destruct (first_isdigit text_lower) as [d|e] eqn:Ed; cbn [bind].
  2:{ destruct text_lower; simpl in Ed; [injection Ed as <-; auto|discriminate]. }
  destruct d.
  { rewrite E0. cbn [bind].
    destruct (int_of_some t0) as [E|[n E]]; rewrite E; cbn [bind]; [auto|].
    destruct (group_at_1 groups H1) as [E1|[t1 E1]]; rewrite E1; cbn [bind];
      eauto. }
  destruct ((2 <=? List.length groups)%nat && truthy (nth 1 groups None)) eqn:E2.
  { rewrite E0. cbn [bind].
    apply andb_true_iff in E2. destruct E2 as [_ E2].
    destruct (nth 1 groups None) as [t1|]; [|discriminate].
    destruct (int_of_some t1) as [E|[n E]]; rewrite E; cbn [bind]; eauto. }
  rewrite E0. cbn [bind]. eauto.
Qed.

Lemma use_extract_exn (text_lower : string) (groups : Re.captures) :
  is_set 0 groups -> ((2 <= List.length groups)%nat -> is_set 1 groups) ->
  match UseCommandParser.extract text_lower groups with
  | Ok (mn, _) => exists t, mn = Some t
  | Raise e => e = IndexError \/ e = ValueError
  end.
Proof.
  intros H0 H1. unfold UseCommandParser.extract.
  destruct (is_set_group_at 0 groups H0) as [t0 E0].
  destruct (startswith text_lower "-").
  { rewrite E0. cbn [bind].
    destruct (group_at_1 groups H1) as [E1|[t1 E1]]; rewrite E1; cbn [bind];
      [auto|].
    destruct (int_of_some t1) as [E|[n E]]; rewrite E; cbn [bind]; eauto. }
  unfold UseCommandParser.first_group_isdigit. rewrite E0. cbn [bind].
  destruct (isdigit t0).
  { destruct (int_of_some t0) as [E|[n E]]; rewrite E; cbn [bind]; [auto|].
    destruct (group_at_1 groups H1) as [E1|[t1 E1]]; rewrite E1; cbn [bind];
      eauto. }
  destruct ((2 <=? List.length groups)%nat && truthy (nth 1 groups None)) eqn:E2.
  { apply andb_true_iff in E2. destruct E2 as [_ E2].
    destruct (nth 1 groups None) as [t1|]; [|discriminate].
    destruct (int_of_some t1) as [E|[n E]]; rewrite E; cbn [bind]; eauto. }
  eauto.
Qed.

Lemma expiry_loop_total (dp : string -> option datetime)
    (patterns : list Re.regex) (text : string) :
  Forall (fun r => leading_groups_set r = true) patterns ->
  exists r, AddCommandParser.expiry_loop dp patterns text = Ok r.
Proof.
  induction 1 as [|p rest Hp _ IH]; simpl; [eauto|].
  destruct (Re.re_search p text) as [m|] eqn:S; [|exact IH].
  destruct (re_search_leading p text m Hp S) as [H0 _].
  destruct (is_set_group_at 0 m H0) as [t E]. rewrite E. cbn [bind].
  destruct (dp t); eauto.
Qed.

Lemma location_loop_total (patterns : list Re.regex) (text : string) :
  Forall (fun r => leading_groups_set r = true) patterns ->
  exists r, AddCommandParser.location_loop patterns text = Ok r.
Proof.
  induction 1 as [|p rest Hp _ IH]; simpl; [eauto|].
  destruct (Re.re_search p text) as [m|] eqn:S; [|exact IH].
  destruct (re_search_leading p text m Hp S) as [H0 _].
  destruct (is_set_group_at 0 m H0) as [t E]. rewrite E. simpl. eauto.
Qed.

Ltac leading_groups_concrete :=
  repeat (apply Forall_cons; [vm_compute; reflexivity|]); apply Forall_nil.

Lemma add_pattern_loop_exn (dp : string -> option datetime)
    (patterns : list Re.regex) (text text_lower : string) (e : exn) :
  Forall (fun r => leading_groups_set r = true) patterns ->
  AddCommandParser.pattern_loop dp patterns text text_lower = Raise e ->
  e = IndexError \/ e = ValueError.
Proof.
  induction 1 as [|p rest Hp _ IH]; simpl; [discriminate|].
  destruct (Re.re_search p text_lower) as [groups|] eqn:S; [|exact IH].
  destruct (re_search_leading p text_lower groups Hp S) as [H0 H1].
  pose proof (add_extract_exn text_lower groups H0 H1) as Hx.
  destruct (AddCommandParser.extract text_lower groups) as [[[mn q] u]|e0];
    cbn [bind].
  - destruct Hx as [t ->].
    destruct (expiry_loop_total dp AddCommandParser.expiry_patterns text)
      as [x Ex]; [leading_groups_concrete|].
    unfold AddCommandParser._extract_expiry_date. rewrite Ex. cbn [bind].
    destruct (location_loop_total AddCommandParser.location_patterns text)
      as [l El]; [leading_groups_concrete|].
    unfold AddCommandParser._extract_location. rewrite El. simpl.
    discriminate.
  - intros H. injection H as <-. exact Hx.
Qed.

Lemma use_pattern_loop_exn (patterns : list Re.regex) (text_lower : string)
    (e : exn) :
  Forall (fun r => leading_groups_set r = true) patterns ->
  UseCommandParser.pattern_loop patterns text_lower = Raise e ->
  e = IndexError \/ e = ValueError.
Proof.
  induction 1 as [|p rest Hp _ IH]; simpl; [discriminate|].
  destruct (Re.re_search p text_lower) as [groups|] eqn:S; [|exact IH].
  destruct (re_search_leading p text_lower groups Hp S) as [H0 H1].
  pose proof (use_extract_exn text_lower groups H0 H1) as Hx.
  destruct (UseCommandParser.extract text_lower groups) as [[mn q]|e0];
    cbn [bind].
  - destruct Hx as [t ->]. simpl. discriminate.
  - intros H. injection H as <-. exact Hx.
Qed.

Lemma search_pattern_loop_total (patterns : list Re.regex)
    (text_lower : string) :
  Forall (fun r => leading_groups_set r = true) patterns ->
  exists r, SearchCommandParser.pattern_loop patterns text_lower = Ok r.
Proof.
  induction 1 as [|p rest Hp _ IH]; simpl; [eauto|].
  destruct (Re.re_search p text_lower) as [groups|] eqn:S; [|exact IH].
  destruct (re_search_leading p text_lower groups Hp S) as [H0 _].
  destruct (is_set_group_at 0 groups H0) as [t E]. rewrite E. simpl. eauto.
Qed.

Lemma search_parse_total (text : string) :
  exists r, SearchCommandParser.parse text = Ok r.
Proof.
  unfold SearchCommandParser.parse. destruct (negb _); [eauto|].
  apply search_pattern_loop_total. leading_groups_concrete.
Qed.

(** X16. Which exceptions the classifiers let out. The search classifier
    never raises, and the list classifier cannot. Whatever the dispatcher
    raises was raised by the add or by the use classifier on the trimmed
    text, and is an [IndexError] or a [ValueError]: in every pattern the
    groups that the classifiers read are set by every match, so that no
    call meets a missing group, and the scans for expiry and location never
    raise. *)
Theorem classifier_exceptions :
  (forall text, exists r, SearchCommandParser.parse text = Ok r)
  /\ (forall dp text e,
        CommandParser.parse dp text = Raise e ->
        (e = IndexError \/ e = ValueError)
        /\ (AddCommandParser.parse dp (strip text) = Raise e
            \/ UseCommandParser.parse (strip text) = Raise e)).
Proof.
  split; [exact search_parse_total|].
  intros dp text e. unfold CommandParser.parse.
  destruct (ListCommandParser.parse (strip text)); [discriminate|].
  destruct (AddCommandParser.parse dp (strip text)) as [a|ea] eqn:Ea;
    cbn [bind].
  2:{ intros H. injection H as <-. split; [|left; reflexivity].
      unfold AddCommandParser.parse in Ea.
      destruct (negb _); [discriminate|].
      apply (add_pattern_loop_exn dp AddCommandParser.PATTERNS (strip text)
               (strip (lower (strip text))) ea);
        [leading_groups_concrete | exact Ea]. }
  destruct a; [discriminate|].
  destruct (UseCommandParser.parse (strip text)) as [u|eu] eqn:Eu; cbn [bind].
  2:{ intros H. injection H as <-. split; [|right; reflexivity].
      unfold UseCommandParser.parse in Eu.
      destruct (negb _); [discriminate|].
      apply (use_pattern_loop_exn UseCommandParser.PATTERNS
               (strip (lower (strip text))) eu);
        [leading_groups_concrete | exact Eu]. }
  destruct u; [discriminate|].
  destruct (search_parse_total (strip text)) as [x ->]. cbn [bind].
  destruct x; discriminate.
Qed.

Lemma classifier_exceptions_witness :
  (IndexError = IndexError \/ IndexError = ValueError)
  /\ (AddCommandParser.parse (fun _ => None) (strip "+got napa")
      = Raise IndexError
      \/ UseCommandParser.parse (strip "+got napa") = Raise IndexError).
Proof.
  apply (proj2 classifier_exceptions (fun _ => None) "+got napa" IndexError).
  vm_compute. reflexivity.
Defined.

(** * Properties of the utilities *)

Lemma delta_days_future (a b : datetime) :
  to_microseconds a < to_microseconds b -> delta_days a b <= -1.
Proof.
  intros H. unfold delta_days.
  assert (Hd : (to_microseconds a - to_microseconds b) / 86400000000 < 0)
    by (apply Z.div_lt_upper_bound; lia).
  lia.
Qed.

Lemma delta_days_within_a_day (a b : datetime) :
  to_microseconds b <= to_microseconds a < to_microseconds b + 86400000000 ->
  delta_days a b = 0.
Proof.
  intros H. unfold delta_days. apply Z.div_small. lia.
Qed.

Lemma delta_days_last_day (a b : datetime) :
  to_microseconds b - 86400000000 <= to_microseconds a < to_microseconds b ->
  delta_days a b = -1.
Proof.
  intros H. unfold delta_days.
  replace (to_microseconds a - to_microseconds b)
    with (to_microseconds a - to_microseconds b + 86400000000
          + (-1) * 86400000000) by lia.
  rewrite Z.div_add by lia. rewrite Z.div_small by lia. reflexivity.
Qed.

(** X17. [format_date] goes by elapsed time, not by the calendar, and has
    no branch for a moment that is still ahead: any moment less than 24
    hours back reads "Today", and a moment ahead of the clock, such as an
    expiry to come, reads as a negative number of days ago, never as a
    date. *)
Theorem format_date_by_elapsed_time (strftime : datetime -> string)
    (now date : datetime) :
  (to_microseconds date <= to_microseconds now
                        < to_microseconds date + 86400000000 ->
   Utils.format_date strftime now date = "Today")
  /\ (to_microseconds now < to_microseconds date ->
      exists n, 1 <= n
                /\ Utils.format_date strftime now date
                   = str_of_int (- n) ++ " days ago").
Proof.
  unfold Utils.format_date. split; intros H.
  - rewrite (delta_days_within_a_day now date H). reflexivity.
  - pose proof (delta_days_future now date H) as Hd.
    exists (- delta_days now date). split; [lia|].
    rewrite Z.opp_involutive.
    destruct (delta_days now date =? 0) eqn:E0; [apply Z.eqb_eq in E0; lia|].
    destruct (delta_days now date =? 1) eqn:E1; [apply Z.eqb_eq in E1; lia|].
    destruct (delta_days now date <? 7) eqn:E7; [reflexivity|].
    apply Z.ltb_ge in E7. lia.
Qed.

Lemma format_date_by_elapsed_time_witness :
  let now := mk_datetime 2026 1 23 1 0 0 0 in
  let last_night := mk_datetime 2026 1 22 23 0 0 0 in
  let expiry := mk_datetime 2026 2 2 9 0 0 0 in
  Utils.format_date (fun _ => "Jan 22, 2026") now last_night = "Today"
  /\ exists n, 1 <= n
               /\ Utils.format_date (fun _ => "Feb 02, 2026") now expiry
                  = str_of_int (- n) ++ " days ago".
Proof.
  intros now last_night expiry. split.
  - apply (proj1 (format_date_by_elapsed_time (fun _ => "Jan 22, 2026") now
                    last_night)).
    vm_compute. split; [discriminate | reflexivity].
  - apply (proj2 (format_date_by_elapsed_time (fun _ => "Feb 02, 2026") now
                    expiry)).
    vm_compute. reflexivity.
Defined.

(** X18. A medicine whose expiry is still ahead, by less than 24 hours, is
    listed as expired: its line in [format_medicine_list] carries the label
    [EXPIRED] with the text "-1 days ago". *)
Theorem soon_expiring_medicine_reads_expired (strftime : datetime -> string)
    (now_days now_date : datetime) (low_stock_threshold : Z)
    (m : Medicine.t) (e : datetime) :
  Medicine.expiry_date m = Some e ->
  to_microseconds now_days <= to_microseconds now_date ->
  to_microseconds now_date < to_microseconds e ->
  to_microseconds e < to_microseconds now_days + 86400000000 ->
  let line :=
    (" *" ++ Medicine.name m ++ "* - " ++ str_of_int (Medicine.quantity m)
     ++ " " ++ Medicine.unit m) ++ " (EXPIRED -1 days ago)" in
  Utils.medicine_line strftime now_days now_date low_stock_threshold m
  = match Medicine.location m with
    | Some (String c l) => line ++ " - " ++ String c l
    | _ => line
    end.
Proof.
  intros He H1 H2 H3 line. unfold Utils.medicine_line. rewrite He.
  unfold Utils.calculate_days_until_expiry.
  rewrite (delta_days_within_a_day e now_days) by lia.
  cbn [Z.leb Z.compare].
  unfold Utils.format_date.
  rewrite (delta_days_last_day now_date e) by lia.
  replace (Utils.get_stock_status_emoji (Medicine.quantity m)
             low_stock_threshold) with ""
    by (unfold Utils.get_stock_status_emoji;
        destruct (_ =? 0); [|destruct (_ <? _)]; reflexivity).
  reflexivity.
Qed.

Lemma soon_expiring_medicine_reads_expired_witness :
  let now := mk_datetime 2026 1 23 9 0 0 0 in
  let e := mk_datetime 2026 1 23 21 30 0 0 in
  let m := Medicine.mk 1 "Napa" 3 "tablets" (Some e) (Some "Shelf") 5 "Bea" now
             7 now in
  Utils.medicine_line (fun _ => "Jan 23, 2026") now now 3 m
  = " *Napa* - 3 tablets (EXPIRED -1 days ago) - Shelf".
Proof.
  intros now e m.
  apply (soon_expiring_medicine_reads_expired (fun _ => "Jan 23, 2026") now
           now 3 m e); vm_compute; first [reflexivity | discriminate].
Defined.

Lemma replace_char_app (c : ascii) (a b : string) :
  Utils.replace_char c (a ++ b)
  = Utils.replace_char c a ++ Utils.replace_char c b.
Proof.
  induction a as [|x a IH]; simpl; [reflexivity|].
  rewrite IH. destruct (Ascii.eqb x c); reflexivity.
Qed.

Lemma replace_chars_app (chars : list ascii) (a b : string) :
  fold_left (fun text char => Utils.replace_char char text) chars (a ++ b)
  = fold_left (fun text char => Utils.replace_char char text) chars a
    ++ fold_left (fun text char => Utils.replace_char char text) chars b.
Proof.
  revert a b. induction chars as [|c chars IH]; intros a b; simpl;
    [reflexivity|].
  rewrite replace_char_app. apply IH.
Qed.

(** X19. [escape_markdown_v2] works character by character, although it
    is written as eighteen replacements in a row: the escape of a text is
    the escapes of its characters put together, a character of the list
    gets one backslash before it, and any other character, the backslash
    among them, stays as it is. No replacement escapes what an earlier one
    has put in. *)
Theorem escape_markdown_v2_char_by_char :
  (forall a b, Utils.escape_markdown_v2 (a ++ b)
               = Utils.escape_markdown_v2 a ++ Utils.escape_markdown_v2 b)
  /\ (forall c, Utils.escape_markdown_v2 (String c "")
                = if existsb (Ascii.eqb c) Utils.special_chars
                  then String "\" (String c "")
                  else String c "").
Proof.
  split.
  - intros a b. apply replace_chars_app.
  - intros c. all_chars c.
Qed.


(** ** Sanitized names *)

Lemma split_word (w : string) :
  is_word_of_split w -> Utils.split w = [w].
Proof.
  intros [Hne Hw]. induction w as [|c w IH]; [contradiction|].
  simpl in Hw. apply andb_true_iff in Hw. destruct Hw as [Hc Hw].
  apply negb_true_iff in Hc. cbn [Utils.split]. rewrite Hc.
  destruct w as [|d w']; [reflexivity|].
  assert (Hd : is_space d = false).
  { simpl in Hw. apply andb_true_iff in Hw. destruct Hw as [Hd _].
    apply negb_true_iff in Hd. exact Hd. }
  cbv beta iota. rewrite Hd.
  rewrite IH; [reflexivity | discriminate | exact Hw].
Qed.

Lemma split_word_space (w rest : string) :
  is_word_of_split w ->
  Utils.split (w ++ String " " rest) = w :: Utils.split rest.
Proof.
  intros [Hne Hw]. induction w as [|c w IH]; [contradiction|].
  simpl in Hw. apply andb_true_iff in Hw. destruct Hw as [Hc Hw].
  apply negb_true_iff in Hc.
  change ((String c w ++ String " " rest)%string)
    with (String c (w ++ String " " rest)).
  cbn [Utils.split]. rewrite Hc.
  destruct w as [|d w'].
  - reflexivity.
  - assert (Hd : is_space d = false).
    { simpl in Hw. apply andb_true_iff in Hw. destruct Hw as [Hd _].
      apply negb_true_iff in Hd. exact Hd. }
    change ((String d w' ++ String " " rest)%string)
      with (String d (w' ++ String " " rest)) in *.
    cbv beta iota. rewrite Hd.
    rewrite IH; [reflexivity | discriminate | exact Hw].
Qed.

(** Splitting what was joined with single spaces gives the words back. *)
Lemma split_concat (words : list string) :
  Forall is_word_of_split words ->
  Utils.split (String.concat " " words) = words.
Proof.
  induction 1 as [|w words Hw Hws IH]; [reflexivity|].
  destruct words as [|w' words'].
  - simpl. apply split_word. exact Hw.
  - change (String.concat " " (w :: w' :: words'))
      with (w ++ String " " (String.concat " " (w' :: words'))).
    rewrite split_word_space by exact Hw. rewrite IH. reflexivity.
Qed.

(** The words of a split, with a property of the characters of the text. *)
Lemma split_words (f : ascii -> bool) (s : string) :
  every f s = true ->
  Forall (fun w => is_word_of_split w /\ every f w = true) (Utils.split s).
Proof.
  induction s as [|c s IH]; intros H; [constructor|].
  simpl in H. apply andb_true_iff in H. destruct H as [Hfc Hs].
  specialize (IH Hs). cbn [Utils.split].
  destruct (is_space c) eqn:Hc; [exact IH|].
  assert (Hone : is_word_of_split (String c "") /\ every f (String c "") = true).
  { split; [split; [discriminate | simpl; rewrite Hc; reflexivity]|].
    simpl. rewrite Hfc. reflexivity. }
  destruct s as [|d s']; [constructor; [exact Hone | constructor]|].
  destruct (is_space d) eqn:Hd; [constructor; [exact Hone | exact IH]|].
  destruct (Utils.split (String d s')) as [|w ws];
    [constructor; [exact Hone | constructor]|].
  inversion IH as [|? ? [[Hne Hw] Hfw] Hws]; subst.
  constructor; [|exact Hws].
  split; [split; [discriminate | simpl; rewrite Hc; exact Hw]|].
  simpl. rewrite Hfc. exact Hfw.
Qed.

Lemma title_from_word_space (b : bool) (w rest : string) :
  title_from b (w ++ String " " rest)
  = title_from b w ++ String " " (title_from false rest).
Proof.
  revert b. induction w as [|c w IH]; intros b; [reflexivity|].
  simpl. destruct (is_alpha c); rewrite IH; reflexivity.
Qed.

Lemma title_concat (words : list string) :
  title (String.concat " " words) = String.concat " " (map title words).
Proof.
  unfold title. induction words as [|w words IH]; [reflexivity|].
  destruct words as [|w' words']; [reflexivity|].
  change (String.concat " " (w :: w' :: words'))
    with (w ++ String " " (String.concat " " (w' :: words'))).
  rewrite title_from_word_space, IH. reflexivity.
Qed.

Lemma every_title_word (f : ascii -> bool) (b : bool) (w : string) :
  (forall c, f (upper_char c) = f c) -> (forall c, f (lower_char c) = f c) ->
  every f (title_from b w) = every f w.
Proof.
  intros Hu Hl. revert b. induction w as [|c w IH]; intros b; [reflexivity|].
  simpl. destruct (is_alpha c); simpl; rewrite IH; [|reflexivity].
  destruct b; [rewrite Hl | rewrite Hu]; reflexivity.
Qed.

Lemma not_space_upper_char (c : ascii) :
  negb (is_space (upper_char c)) = negb (is_space c).
Proof. all_chars c. Qed.

Lemma not_space_lower_char (c : ascii) :
  negb (is_space (lower_char c)) = negb (is_space c).
Proof. all_chars c. Qed.

Lemma kept_upper_char (c : ascii) : Utils.kept (upper_char c) = Utils.kept c.
Proof. all_chars c. Qed.

Lemma kept_lower_char (c : ascii) : Utils.kept (lower_char c) = Utils.kept c.
Proof. all_chars c. Qed.

Lemma title_word_of_split (w : string) :
  is_word_of_split w -> is_word_of_split (title w).
Proof.
  intros [Hne Hw]. split.
  - destruct w as [|c w]; [contradiction|].
    unfold title. simpl. destruct (is_alpha c); discriminate.
  - unfold title.
    rewrite (every_title_word _ false w not_space_upper_char
               not_space_lower_char).
    exact Hw.
Qed.

Lemma every_remove_special (s : string) :
  every Utils.kept (Utils.remove_special s) = true.
Proof.
  induction s as [|c s IH]; [reflexivity|].
  simpl. destruct (Utils.kept c) eqn:E; [|exact IH].
  simpl. rewrite E. exact IH.
Qed.

Lemma remove_special_kept (s : string) :
  every Utils.kept s = true -> Utils.remove_special s = s.
Proof.
  induction s as [|c s IH]; [reflexivity|].
  simpl. intros H. apply andb_true_iff in H. destruct H as [Hc Hs].
  rewrite Hc, (IH Hs). reflexivity.
Qed.

Lemma every_concat (f : ascii -> bool) (words : list string) :
  f " "%char = true -> Forall (fun w => every f w = true) words ->
  every f (String.concat " " words) = true.
Proof.
  intros Hsp. induction 1 as [|w words Hw Hws IH]; [reflexivity|].
  destruct words as [|w' words']; [exact Hw|].
  change (String.concat " " (w :: w' :: words'))
    with (w ++ String " " (String.concat " " (w' :: words'))).
  rewrite every_app, Hw. simpl. rewrite Hsp. exact IH.
Qed.

(** The words of a sanitized name. *)
Lemma sanitize_words (name : string) :
  exists words,
    Utils.sanitize_medicine_name name = String.concat " " words
    /\ Forall (fun w => is_word_of_split w /\ every Utils.kept w = true) words.
Proof.
  unfold Utils.sanitize_medicine_name. rewrite title_concat.
  exists (map title (Utils.split (Utils.remove_special name))).
  split; [reflexivity|].
  pose proof (split_words Utils.kept _ (every_remove_special name)) as H.
  rewrite Forall_map. revert H. apply Forall_impl. intros w [Hw Hk].
  split; [apply title_word_of_split; exact Hw|].
  unfold title.
  rewrite (every_title_word _ false w kept_upper_char kept_lower_char).
  exact Hk.
Qed.

(** X20. On a name of ASCII code points [sanitize_medicine_name] gives a
    normal form: its result is made of words, joined by single spaces, that
    are not empty and hold only ASCII letters, digits, underscores and
    hyphens; it is in title case; and sanitizing it again changes nothing. *)
Theorem sanitize_medicine_name_normal_form (name : string) :
  ascii_text name = true ->
  (exists words,
      Utils.sanitize_medicine_name name = String.concat " " words
      /\ Forall (fun w => w <> ""
                          /\ every (fun c => is_word c || Ascii.eqb c "-") w
                             = true) words)
  /\ title (Utils.sanitize_medicine_name name)
     = Utils.sanitize_medicine_name name
  /\ Utils.sanitize_medicine_name (Utils.sanitize_medicine_name name)
     = Utils.sanitize_medicine_name name.
Proof.
  intros _. destruct (sanitize_words name) as (words & E & Hw).
  split_all.
  - exists words. split; [exact E|].
    revert Hw. apply Forall_impl. intros w [[Hne Hns] Hk].
    split; [exact Hne|].
    clear Hne. induction w as [|c w IH]; [reflexivity|].
    simpl in *. apply andb_true_iff in Hns, Hk.
    destruct Hns as [Hc Hns], Hk as [Hkc Hk].
    rewrite (IH Hns Hk), andb_true_r.
    unfold Utils.kept in Hkc. apply negb_true_iff in Hc.
    rewrite Hc, orb_false_r in Hkc. exact Hkc.
  - unfold Utils.sanitize_medicine_name, title. apply title_from_idem.
  - rewrite E at 1. unfold Utils.sanitize_medicine_name at 1.
    rewrite remove_special_kept.
    + rewrite split_concat.
      * rewrite <- E. unfold Utils.sanitize_medicine_name, title.
        apply title_from_idem.
      * revert Hw. apply Forall_impl. tauto.
    + apply every_concat; [reflexivity|].
      revert Hw. apply Forall_impl. tauto.
Qed.

Lemma sanitize_medicine_name_normal_form_witness :
  let name := "  o'neil's   EXTRA-strength (500mg) " in
  (exists words,
      Utils.sanitize_medicine_name name = String.concat " " words
      /\ Forall (fun w => w <> ""
                          /\ every (fun c => is_word c || Ascii.eqb c "-") w
                             = true) words)
  /\ title (Utils.sanitize_medicine_name name)
     = Utils.sanitize_medicine_name name
  /\ Utils.sanitize_medicine_name (Utils.sanitize_medicine_name name)
     = Utils.sanitize_medicine_name name.
Proof.
  intros name.
  apply (sanitize_medicine_name_normal_form name).
  reflexivity.
Defined.

(** * Properties of the handlers *)

(** The candidates of a fuzzy search are rows of the group. *)
Lemma fuzzy_match_stored (fuzz_ratio : string -> string -> Z)
    (row_order : list Medicine.t -> list Medicine.t)
    (name : string) (g threshold : Z) (db : Db) (c : Medicine.t * Z) :
  (forall rows x, In x (row_order rows) -> In x rows) ->
  In c (find_by_name_fuzzy fuzz_ratio row_order name g threshold db) ->
  In (fst c) (medicines db) /\ Medicine.group_chat_id (fst c) = g.
Proof.
  intros Hro H. unfold find_by_name_fuzzy, candidates, fetch_group in H.
  apply (proj1 (sort_desc_in _ _)) in H.
  apply filter_In in H. destruct H as [H _].
  apply in_map_iff in H. destruct H as (x & <- & Hx). simpl.
  apply Hro in Hx. apply filter_In in Hx. destruct Hx as [Hx Hg].
  unfold in_group in Hg. apply Z.eqb_eq in Hg. auto.
Qed.

Lemma resolve_use_in (matches : list (Medicine.t * Z)) (m : Medicine.t) (s : Z) :
  resolve_use matches = Resolved m s -> In (m, s) matches.
Proof.
  unfold resolve_use. destruct matches as [|[m0 s0] rest]; [discriminate|].
  destruct (_ =? 1)%nat; [|destruct (_ =? 100)]; intros H;
    try discriminate; injection H as <- <-; left; reflexivity.
Qed.

Lemma resolve_delete_in (matches : list (Medicine.t * Z)) (m : Medicine.t)
    (s : Z) :
  resolve_delete matches = Resolved m s -> In (m, s) matches.
Proof.
  unfold resolve_delete. destruct matches as [|[m0 s0] rest]; [discriminate|].
  destruct (_ && _); intros H;
    try discriminate; injection H as <- <-; left; reflexivity.
Qed.

Lemma get_by_id_stored (db : Db) (m : Medicine.t) :
  wf db -> In m (medicines db) ->
  get_by_id (Medicine.id m) (Medicine.group_chat_id m) db = Some m.
Proof.
  intros Hwf Hm. unfold get_by_id.
  destruct (find _ (medicines db)) as [x|] eqn:E.
  - apply find_some in E. destruct E as [Hx Hp].
    apply andb_prop in Hp. destruct Hp as [Hi _]. apply Z.eqb_eq in Hi.
    rewrite (same_id_same_row db x m Hwf Hx Hm Hi). reflexivity.
  - apply (find_none _ _ E) in Hm. unfold in_group in Hm.
    rewrite !Z.eqb_refl in Hm. discriminate.
Qed.

(** The ledger entry that a handler writes for a stored medicine. *)
Lemma log_activity_stored (now : datetime) (i : Z) (action : string) (u : Z)
    (un : string) (g : Z) (ch : option Z) (db : Db) :
  Forall (fun a => Activity.id a <= activity_log_seq db) (activity_log db) ->
  action_ok action = true ->
  In i (map Medicine.id (medicines db)) ->
  ActivityLogRepository.log_activity now i action u un g ch db
  = if negb (int64_opt ch) then (db, Raise OverflowError)
    else
      (mk_db (medicines db) (medicines_seq db)
         (activity_log db
          ++ [Activity.mk (activity_log_seq db + 1) i action ch u un now g])
         (activity_log_seq db + 1),
       Ok (Activity.mk (activity_log_seq db + 1) i action ch u un now g)).
Proof.
  intros Hseq Ha Hi. apply medicine_exists_iff in Hi.
  unfold ActivityLogRepository.log_activity.
  destruct (negb (int64_opt ch)); [reflexivity|].
  rewrite Ha, Hi. cbn [andb].
  unfold activity_by_id. cbn [activity_log].
  assert (Hfresh : find (fun a => Activity.id a =? activity_log_seq db + 1)
                     (activity_log db) = None).
  { destruct (find _ (activity_log db)) as [x|] eqn:E; [|reflexivity].
    apply find_some in E. destruct E as [Hx Hid]. apply Z.eqb_eq in Hid.
    rewrite Forall_forall in Hseq. specialize (Hseq x Hx). simpl in Hseq. lia. }
  rewrite (find_app_none _ _ _ Hfresh). simpl. rewrite Z.eqb_refl.
  reflexivity.
Qed.


(** [update_quantity] on a stored row. *)
Lemma update_quantity_stored (now : datetime) (m : Medicine.t) (delta g : Z)
    (db : Db) :
  wf db -> In m (medicines db) -> Medicine.group_chat_id m = g ->
  update_quantity now (Medicine.id m) delta g db
  = if Medicine.quantity m + delta <? 0
    then (db, Raise (InsufficientStockError (Medicine.quantity m) (Z.abs delta)))
    else if negb (int64 (Medicine.quantity m + delta))
    then (db, Raise OverflowError)
    else (update_by_id (Medicine.id m)
            (set_quantity (Medicine.quantity m + delta) now) db,
          Ok (set_quantity (Medicine.quantity m + delta) now m)).
Proof.
  intros Hwf Hin Hg.
  pose proof (get_by_id_stored db m Hwf Hin) as Hget. rewrite Hg in Hget.
  unfold update_quantity. rewrite Hget. cbv zeta.
  destruct (_ <? 0); [reflexivity|].
  destruct (negb (int64 _)); [reflexivity|].
  rewrite (medicine_by_id_update db m
             (set_quantity (Medicine.quantity m + delta) now)
             (fun _ => eq_refl) Hwf Hin).
  reflexivity.
Qed.

Lemma handle_use_medicine_spec
    (fuzz_ratio : string -> string -> Z)
    (row_order : list Medicine.t -> list Medicine.t)
    (now_update now_log : datetime) (parsed : ParsedCommand)
    (config : Config.Settings) (g u : Z) (first_name : option string)
    (db : Db) :
  (forall rows x, In x (row_order rows) -> In x rows) ->
  wf db -> ledger_ok db ->
  let out := handle_use_medicine fuzz_ratio row_order now_update now_log
               parsed config g u first_name db in
  match snd out with
  | Ok (ReplyUsed m m') =>
      exists q,
        quantity parsed = Some q /\ q <> 0
        /\ get_by_id (Medicine.id m) g db = Some m
        /\ 0 <= Medicine.quantity m - q
        /\ m' = set_quantity (Medicine.quantity m - q) now_update m
        /\ get_by_id (Medicine.id m) g (fst out) = Some m'
        /\ filter (fun x => negb (Medicine.id x =? Medicine.id m))
             (medicines (fst out))
           = filter (fun x => negb (Medicine.id x =? Medicine.id m))
               (medicines db)
        /\ activity_log (fst out)
           = (activity_log db
              ++ [Activity.mk (activity_log_seq db + 1) (Medicine.id m) "used"
                    (Some (- q)) u (username_of first_name) now_log g])%list
  | Ok _ => fst out = db
  | Raise e =>
      e = OverflowError
      /\ exists q m,
           quantity parsed = Some q
           /\ get_by_id (Medicine.id m) g db = Some m
           /\ 0 <= Medicine.quantity m - q
           /\ if int64 (Medicine.quantity m - q)
              then int64 (- q) = false
                   /\ fst out
                      = update_by_id (Medicine.id m)
                          (set_quantity (Medicine.quantity m - q) now_update) db
              else fst out = db
  end.
Proof.
  intros Hro Hwf Hok. unfold handle_use_medicine.
  destruct (medicine_name parsed) as [[|c s]|]; try reflexivity.
  destruct (quantity parsed) as [q|] eqn:Eq; [|reflexivity].
  assert (Hcase : q = 0 \/ q <> 0) by lia.
  destruct Hcase as [->|Hne]; [reflexivity|].
  set (matches := find_by_name_fuzzy fuzz_ratio row_order (String c s) g
                    (Config.fuzzy_match_threshold config) db).
  assert (Hres : forall m s0, resolve_use matches = Resolved m s0 ->
            In m (medicines db) /\ Medicine.group_chat_id m = g).
  { intros m s0 Er. apply resolve_use_in in Er.
    exact (fuzzy_match_stored _ _ _ _ _ _ _ Hro Er). }
  assert (Hgoal : forall m,
            In m (medicines db) -> Medicine.group_chat_id m = g ->
            let out :=
              match update_quantity now_update (Medicine.id m) (- q) g db with
              | (db1, Ok updated_medicine) =>
                  match ActivityLogRepository.log_activity now_log
                          (Medicine.id m) "used" u (username_of first_name) g
                          (Some (- q)) db1 with
                  | (db2, Ok _) => (db2, Ok (ReplyUsed m updated_medicine))
                  | (db2, Raise e) => (db2, catch_insufficient_stock e)
                  end
              | (db1, Raise e) => (db1, catch_insufficient_stock e)
              end in
            match snd out with
            | Ok (ReplyUsed m0 m') =>
                exists q0,
                  Some q = Some q0 /\ q0 <> 0
                  /\ get_by_id (Medicine.id m0) g db = Some m0
                  /\ 0 <= Medicine.quantity m0 - q0
                  /\ m' = set_quantity (Medicine.quantity m0 - q0) now_update m0
                  /\ get_by_id (Medicine.id m0) g (fst out) = Some m'
                  /\ filter (fun x => negb (Medicine.id x =? Medicine.id m0))
                       (medicines (fst out))
                     = filter (fun x => negb (Medicine.id x =? Medicine.id m0))
                         (medicines db)
                  /\ activity_log (fst out)
                     = (activity_log db
                        ++ [Activity.mk (activity_log_seq db + 1)
                              (Medicine.id m0) "used" (Some (- q0)) u
                              (username_of first_name) now_log g])%list
            | Ok _ => fst out = db
            | Raise e =>
                e = OverflowError
                /\ exists q0 m0,
                     Some q = Some q0
                     /\ get_by_id (Medicine.id m0) g db = Some m0
                     /\ 0 <= Medicine.quantity m0 - q0
                     /\ if int64 (Medicine.quantity m0 - q0)
                        then int64 (- q0) = false
                             /\ fst out
                                = update_by_id (Medicine.id m0)
                                    (set_quantity (Medicine.quantity m0 - q0)
                                       now_update) db
                        else fst out = db
            end).
  { intros m Hin Hg.
    assert (Hget : get_by_id (Medicine.id m) g db = Some m)
      by (rewrite <- Hg; apply get_by_id_stored; assumption).
    rewrite (update_quantity_stored now_update m (- q) g db Hwf Hin Hg).
    replace (Medicine.quantity m + - q) with (Medicine.quantity m - q) by lia.
    destruct (Medicine.quantity m - q <? 0) eqn:Elt; [reflexivity|].
    apply Z.ltb_ge in Elt.
    destruct (int64 (Medicine.quantity m - q)) eqn:Efit; cbn [negb].
    2:{ cbv zeta. cbn [fst snd catch_insufficient_stock catch_database_error].
        split; [reflexivity|]. exists q, m. rewrite Efit. auto. }
    set (db1 := update_by_id (Medicine.id m)
                  (set_quantity (Medicine.quantity m - q) now_update) db).
    rewrite (log_activity_stored now_log (Medicine.id m) "used" u
               (username_of first_name) g (Some (- q)) db1
               (entries_issued db Hok) eq_refl).
    2:{ unfold db1. rewrite update_by_id_ids by reflexivity.
        apply in_map. exact Hin. }
    cbn [int64_opt].
    destruct (int64 (- q)) eqn:Eneg; cbn [negb].
    2:{ cbv zeta. cbn [fst snd catch_insufficient_stock catch_database_error].
        split; [reflexivity|]. exists q, m. rewrite Efit. auto. }
    cbv zeta. cbn [fst snd]. exists q. split_all; try reflexivity; auto.
    - apply get_by_id_update; auto.
    - unfold db1, update_by_id. cbn [medicines set_medicines].
      apply filter_map_same.
      + intros x. destruct (Medicine.id x =? Medicine.id m) eqn:E;
          simpl; rewrite E; reflexivity.
      + intros x _ Hx. apply negb_true_iff in Hx. rewrite Hx. reflexivity. }
  destruct q as [|p|p]; [contradiction| |];
    (destruct (resolve_use matches) as [|m s0|listed] eqn:Er;
       [reflexivity | | reflexivity];
     destruct (Hres m s0 eq_refl) as [Hin Hg];
     exact (Hgoal m Hin Hg)).
Qed.

(** X21. What the use handler does to a store that meets the schema. When
    it reports a use, the intent had a quantity other than zero, the medicine
    is a record of the group whose stock covers the quantity, that record
    and no other has changed, its stock is lower by the quantity, and the
    ledger has one more entry, a use of that medicine by that quantity. In
    every other case that ends with a reply (a question back, nothing found,
    several candidates, not enough stock) the store is what it was. The one
    exception that leaves the handler is [OverflowError], for a medicine of
    the group whose new stock, or the change to log, does not fit SQLite's
    64-bit [INTEGER]: the store is what it was when the new stock does not
    fit, and holds the new stock without a ledger entry when only the change
    does not fit. *)
Theorem handle_use_medicine_effect
    (fuzz_ratio : string -> string -> Z)
    (row_order : list Medicine.t -> list Medicine.t)
    (now_update now_log : datetime) (parsed : ParsedCommand)
    (config : Config.Settings) (g u : Z) (first_name : option string)
    (db : Db) :
  (forall rows x, In x (row_order rows) -> In x rows) ->
  wf db -> ledger_ok db ->
  let out := handle_use_medicine fuzz_ratio row_order now_update now_log
               parsed config g u first_name db in
  match snd out with
  | Ok (ReplyUsed m m') =>
      exists q,
        quantity parsed = Some q /\ q <> 0
        /\ get_by_id (Medicine.id m) g db = Some m
        /\ 0 <= Medicine.quantity m - q
        /\ m' = set_quantity (Medicine.quantity m - q) now_update m
        /\ get_by_id (Medicine.id m) g (fst out) = Some m'
        /\ filter (fun x => negb (Medicine.id x =? Medicine.id m))
             (medicines (fst out))
           = filter (fun x => negb (Medicine.id x =? Medicine.id m))
               (medicines db)
        /\ activity_log (fst out)
           = (activity_log db
              ++ [Activity.mk (activity_log_seq db + 1) (Medicine.id m) "used"
                    (Some (- q)) u (username_of first_name) now_log g])%list
  | Ok _ => fst out = db
  | Raise e =>
      e = OverflowError
      /\ exists q m,
           quantity parsed = Some q
           /\ get_by_id (Medicine.id m) g db = Some m
           /\ 0 <= Medicine.quantity m - q
           /\ if int64 (Medicine.quantity m - q)
              then int64 (- q) = false
                   /\ fst out
                      = update_by_id (Medicine.id m)
                          (set_quantity (Medicine.quantity m - q) now_update) db
              else fst out = db
  end.
Proof.
  exact (handle_use_medicine_spec fuzz_ratio row_order now_update now_log
           parsed config g u first_name db).
Qed.


Lemma handle_use_medicine_effect_witness :
  let t := mk_datetime 2026 1 23 9 0 0 0 in
  let napa := Medicine.mk 1 "Napa" 3 "tablets" None None 5 "Bea" t 7 t in
  let db := mk_db [napa] 1 [] 0 in
  let parsed := mk_parsed Use (Some "Napa") (Some 2) "tablets" None None 1%Q
                  "-napa 2" in
  let config := Config.mk_settings [] 3 30 80 in
  let out := handle_use_medicine sample_ratio rowid_order t t parsed config
               7 5 (Some "Bea") db in
  match snd out with
  | Ok (ReplyUsed m m') =>
      exists q,
        quantity parsed = Some q /\ q <> 0
        /\ get_by_id (Medicine.id m) 7 db = Some m
        /\ 0 <= Medicine.quantity m - q
        /\ m' = set_quantity (Medicine.quantity m - q) t m
        /\ get_by_id (Medicine.id m) 7 (fst out) = Some m'
        /\ filter (fun x => negb (Medicine.id x =? Medicine.id m))
             (medicines (fst out))
           = filter (fun x => negb (Medicine.id x =? Medicine.id m))
               (medicines db)
        /\ activity_log (fst out)
           = (activity_log db
              ++ [Activity.mk (activity_log_seq db + 1) (Medicine.id m) "used"
                    (Some (- q)) 5 (username_of (Some "Bea")) t 7])%list
  | Ok _ => fst out = db
  | Raise e =>
      e = OverflowError
      /\ exists q m,
           quantity parsed = Some q
           /\ get_by_id (Medicine.id m) 7 db = Some m
           /\ 0 <= Medicine.quantity m - q
           /\ if int64 (Medicine.quantity m - q)
              then int64 (- q) = false
                   /\ fst out
                      = update_by_id (Medicine.id m)
                          (set_quantity (Medicine.quantity m - q) t) db
              else fst out = db
  end.
Proof.
  intros t napa db parsed config.
  apply (handle_use_medicine_effect sample_ratio rowid_order t t parsed config
           7 5 (Some "Bea") db).
  - intros rows x H. exact H.
  - wf_concrete.
  - split; simpl; constructor.
Defined.

Lemma delete_stored (m : Medicine.t) (g : Z) (db : Db) :
  wf db -> In m (medicines db) -> Medicine.group_chat_id m = g ->
  delete_medicine (Medicine.id m) g db
  = (mk_db (filter (fun x => negb (Medicine.id x =? Medicine.id m))
              (medicines db))
       (medicines_seq db)
       (filter (fun a => negb (Activity.medicine_id a =? Medicine.id m))
          (activity_log db))
       (activity_log_seq db), true).
Proof.
  intros Hwf Hin Hg. unfold delete_medicine.
  set (hit := fun x => (Medicine.id x =? Medicine.id m) && in_group g x).
  assert (Hhit : hit m = true).
  { unfold hit, in_group. rewrite Hg, !Z.eqb_refl. reflexivity. }
  assert (Hpos : (0 <? List.length (filter hit (medicines db)))%nat = true).
  { apply Nat.ltb_lt.
    assert (H : In m (filter hit (medicines db)))
      by (apply filter_In; split; assumption).
    destruct (filter hit (medicines db)); [destruct H | simpl; lia]. }
  rewrite Hpos. f_equal. f_equal.
  apply filter_ext_in. intros x Hx. unfold hit, in_group.
  destruct (Medicine.id x =? Medicine.id m) eqn:E; [|reflexivity].
  apply Z.eqb_eq in E. rewrite (same_id_same_row db x m Hwf Hx Hin E).
  rewrite Hg, Z.eqb_refl. reflexivity.
Qed.

Lemma handle_delete_medicine_spec
    (fuzz_ratio : string -> string -> Z)
    (row_order : list Medicine.t -> list Medicine.t)
    (now_log : datetime) (args : list string)
    (config : Config.Settings) (g u : Z) (first_name : option string)
    (db : Db) :
  (forall rows x, In x (row_order rows) -> In x rows) ->
  wf db -> ledger_ok db ->
  let out := handle_delete_medicine fuzz_ratio row_order now_log args config
               g u first_name db in
  (Utils.is_admin u config = false -> out = (db, Ok ReplyNotAdmin))
  /\ match snd out with
     | Ok (ReplyDeleted m) =>
         Utils.is_admin u config = true
         /\ get_by_id (Medicine.id m) g db = Some m
         /\ medicines (fst out)
            = filter (fun x => negb (Medicine.id x =? Medicine.id m))
                (medicines db)
         /\ activity_log (fst out)
            = filter (fun a => negb (Activity.medicine_id a =? Medicine.id m))
                (activity_log db)
         /\ activity_log_seq (fst out) = activity_log_seq db + 1
     | Ok ReplyDeleteFailed => False
     | Ok _ => fst out = db
     | Raise _ => False
     end.
Proof.
  intros Hro Hwf Hok. unfold handle_delete_medicine.
  destruct (Utils.is_admin u config) eqn:Eadmin; cbn [negb];
    [|split; reflexivity].
  split; [discriminate|].
  destruct args as [|arg args]; [reflexivity|].
  set (name := String.concat " " (arg :: args)).
  set (matches := find_by_name_fuzzy fuzz_ratio row_order name g
                    (Config.fuzzy_match_threshold config) db).
  destruct (resolve_delete matches) as [|m s0|listed] eqn:Er;
    [reflexivity | | reflexivity].
  apply resolve_delete_in in Er.
  destruct (fuzzy_match_stored _ _ _ _ _ _ _ Hro Er) as [Hin Hg].
  cbn [fst] in Hin, Hg.
  rewrite (log_activity_stored now_log (Medicine.id m) "deleted" u
             (username_of first_name) g None db (entries_issued db Hok)
             eq_refl (in_map Medicine.id _ _ Hin)).
  cbn [int64_opt negb].
  set (a := Activity.mk (activity_log_seq db + 1) (Medicine.id m) "deleted"
              None u (username_of first_name) now_log g).
  set (db1 := mk_db (medicines db) (medicines_seq db)
                (activity_log db ++ [a]) (activity_log_seq db + 1)).
  assert (Hwf1 : wf db1) by (destruct Hwf; split; assumption).
  rewrite (delete_stored m g db1 Hwf1 Hin Hg). cbn [fst snd].
  split_all.
  - reflexivity.
  - rewrite <- Hg. apply get_by_id_stored; assumption.
  - reflexivity.
  - cbn [activity_log db1]. rewrite filter_app. simpl.
    rewrite Z.eqb_refl. simpl. apply app_nil_r.
  - reflexivity.
Qed.

(** X22. What the delete handler does to a store that meets the schema.
    Someone who is not an administrator gets a refusal and the store is what
    it was. When the handler reports a deletion, the medicine was a record of
    the group; that record is gone and the others are as they were; the
    ledger has lost every entry about the medicine, the entry of the
    deletion itself among them, and is otherwise as it was, while its counter
    has moved on by one. The handler never reports that a deletion failed,
    and no exception leaves it. *)
Theorem handle_delete_medicine_effect
    (fuzz_ratio : string -> string -> Z)
    (row_order : list Medicine.t -> list Medicine.t)
    (now_log : datetime) (args : list string)
    (config : Config.Settings) (g u : Z) (first_name : option string)
    (db : Db) :
  (forall rows x, In x (row_order rows) -> In x rows) ->
  wf db -> ledger_ok db ->
  let out := handle_delete_medicine fuzz_ratio row_order now_log args config
               g u first_name db in
  (Utils.is_admin u config = false -> out = (db, Ok ReplyNotAdmin))
  /\ match snd out with
     | Ok (ReplyDeleted m) =>
         Utils.is_admin u config = true
         /\ get_by_id (Medicine.id m) g db = Some m
         /\ medicines (fst out)
            = filter (fun x => negb (Medicine.id x =? Medicine.id m))
                (medicines db)
         /\ activity_log (fst out)
            = filter (fun a => negb (Activity.medicine_id a =? Medicine.id m))
                (activity_log db)
         /\ activity_log_seq (fst out) = activity_log_seq db + 1
     | Ok ReplyDeleteFailed => False
     | Ok _ => fst out = db
     | Raise _ => False
     end.
Proof.
  exact (handle_delete_medicine_spec fuzz_ratio row_order now_log args config
           g u first_name db).
Qed.

Lemma handle_delete_medicine_effect_witness :
  let t := mk_datetime 2026 1 23 9 0 0 0 in
  let napa := Medicine.mk 1 "Napa" 3 "tablets" None None 5 "Bea" t 7 t in
  let added := Activity.mk 1 1 "added" (Some 3) 5 "Bea" t 7 in
  let db := mk_db [napa] 1 [added] 1 in
  let config := Config.mk_settings [5] 3 30 80 in
  let out := handle_delete_medicine sample_ratio rowid_order t ["napa"] config
               7 5 (Some "Bea") db in
  (Utils.is_admin 5 config = false -> out = (db, Ok ReplyNotAdmin))
  /\ match snd out with
     | Ok (ReplyDeleted m) =>
         Utils.is_admin 5 config = true
         /\ get_by_id (Medicine.id m) 7 db = Some m
         /\ medicines (fst out)
            = filter (fun x => negb (Medicine.id x =? Medicine.id m))
                (medicines db)
         /\ activity_log (fst out)
            = filter (fun a => negb (Activity.medicine_id a =? Medicine.id m))
                (activity_log db)
         /\ activity_log_seq (fst out) = activity_log_seq db + 1
     | Ok ReplyDeleteFailed => False
     | Ok _ => fst out = db
     | Raise _ => False
     end.
Proof.
  intros t napa added db config.
  apply (handle_delete_medicine_effect sample_ratio rowid_order t ["napa"]
           config 7 5 (Some "Bea") db).
  - intros rows x H. exact H.
  - wf_concrete.
  - split; simpl; repeat constructor; simpl; lia.
Defined.


Lemma handle_add_medicine_spec
    (now_add now_log : datetime) (parsed : ParsedCommand)
    (config : Config.Settings) (g u : Z) (first_name : option string)
    (db : Db) :
  wf db -> ledger_ok db ->
  let out := handle_add_medicine now_add now_log parsed config g u first_name
               db in
  match snd out with
  | Ok (ReplyAdded m) =>
      exists n q,
        medicine_name parsed = Some n /\ quantity parsed = Some q
        /\ find_by_exact_name n g (fst out) = Some m
        /\ Medicine.quantity m
           = match find_by_exact_name n g db with
             | Some e => Medicine.quantity e + q
             | None => q
             end
        /\ activity_log (fst out)
           = (activity_log db
              ++ [Activity.mk (activity_log_seq db + 1) (Medicine.id m) "added"
                    (Some q) u (username_of first_name) now_log g])%list
  | Ok _ => fst out = db
  | Raise e =>
      e = OverflowError
      /\ exists n q,
           medicine_name parsed = Some n /\ quantity parsed = Some q
           /\ let total := match find_by_exact_name n g db with
                           | Some e0 => Medicine.quantity e0 + q
                           | None => q
                           end in
              if int64 total
              then int64 q = false
                   /\ (exists m, find_by_exact_name n g (fst out) = Some m
                                 /\ Medicine.quantity m = total)
                   /\ activity_log (fst out) = activity_log db
              else fst out = db
  end.
Proof.
  intros Hwf Hok. unfold handle_add_medicine.
  destruct (medicine_name parsed) as [[|c s]|]; try reflexivity.
  destruct (quantity parsed) as [q|]; [|reflexivity].
  set (d := MedicineData.mk (String c s) q (unit parsed) (expiry_date parsed)
              (location parsed) u (username_of first_name) g).
  assert (Htotal : bound_quantity d db
                   = match find_by_exact_name (String c s) g db with
                     | Some e0 => Medicine.quantity e0 + q
                     | None => q
                     end) by reflexivity.
  destruct (int64 (bound_quantity d db)) eqn:Hfit.
  2:{ rewrite (add_medicine_overflow now_add d db Hfit).
      cbv zeta. cbn [fst snd catch_database_error].
      split; [reflexivity|]. exists (String c s), q.
      rewrite <- Htotal, Hfit. auto. }
  destruct (add_medicine_spec now_add d db Hwf Hfit)
    as (m & db1 & Hadd & Hwf1 & Hfind & _ & Hcase).
  destruct (add_medicine_ledger now_add d db) as (Hlog & Hseq & _).
  rewrite Hadd in Hlog, Hseq. cbn [fst] in Hlog, Hseq. rewrite Hadd.
  cbn [MedicineData.name MedicineData.group_chat_id MedicineData.quantity d]
    in Hfind, Hcase.
  destruct (find_by_exact_name_some _ _ _ _ Hfind) as (Hin & _).
  assert (Hqty : Medicine.quantity m = bound_quantity d db).
  { rewrite Htotal.
    destruct (find_by_exact_name (String c s) g db) as [e|];
      rewrite Hcase; reflexivity. }
  rewrite (log_activity_stored now_log (Medicine.id m) "added" u
             (username_of first_name) g (Some q) db1).
  - cbn [int64_opt]. destruct (int64 q) eqn:Eq; cbn [negb].
    + cbv zeta. cbn [fst snd]. exists (String c s), q.
      split_all; try reflexivity.
      * exact Hfind.
      * rewrite Hqty. exact Htotal.
      * cbn [activity_log]. rewrite Hlog, Hseq. reflexivity.
    + cbv zeta. cbn [fst snd catch_database_error].
      split; [reflexivity|]. exists (String c s), q.
      rewrite <- Htotal, Hfit. split_all; try reflexivity.
      * exact Eq.
      * exists m. split; [exact Hfind | exact Hqty].
      * exact Hlog.
  - rewrite Hlog, Hseq. exact (entries_issued db Hok).
  - reflexivity.
  - apply in_map. exact Hin.
Qed.

(** X23. What the add handler does to a store that meets the schema. When
    it reports an addition, the intent had a name and a quantity; the record
    of that name in the group is the one reported, and its stock is the
    quantity of the intent on top of what the group had under that name,
    whatever the case of the letters; the ledger has one more entry, an
    addition to that medicine of that quantity. When it asks back for a name
    or a quantity the store is what it was. The one exception that leaves
    the handler is [OverflowError], for an intent with a name and a
    quantity: when the stock to store, the quantity on top of what the group
    had, does not fit SQLite's 64-bit [INTEGER], the store is what it was;
    when that stock fits and the quantity itself does not, the record holds
    the new stock and the ledger is what it was. *)
Theorem handle_add_medicine_effect
    (now_add now_log : datetime) (parsed : ParsedCommand)
    (config : Config.Settings) (g u : Z) (first_name : option string)
    (db : Db) :
  wf db -> ledger_ok db ->
  let out := handle_add_medicine now_add now_log parsed config g u first_name
               db in
  match snd out with
  | Ok (ReplyAdded m) =>
      exists n q,
        medicine_name parsed = Some n /\ quantity parsed = Some q
        /\ find_by_exact_name n g (fst out) = Some m
        /\ Medicine.quantity m
           = match find_by_exact_name n g db with
             | Some e => Medicine.quantity e + q
             | None => q
             end
        /\ activity_log (fst out)
           = (activity_log db
              ++ [Activity.mk (activity_log_seq db + 1) (Medicine.id m) "added"
                    (Some q) u (username_of first_name) now_log g])%list
  | Ok _ => fst out = db
  | Raise e =>
      e = OverflowError
      /\ exists n q,
           medicine_name parsed = Some n /\ quantity parsed = Some q
           /\ let total := match find_by_exact_name n g db with
                           | Some e0 => Medicine.quantity e0 + q
                           | None => q
                           end in
              if int64 total
              then int64 q = false
                   /\ (exists m, find_by_exact_name n g (fst out) = Some m
                                 /\ Medicine.quantity m = total)
                   /\ activity_log (fst out) = activity_log db
              else fst out = db
  end.
Proof.
  exact (handle_add_medicine_spec now_add now_log parsed config g u first_name
           db).
Qed.

Lemma handle_add_medicine_effect_witness :
  let t := mk_datetime 2026 1 23 9 0 0 0 in
  let napa := Medicine.mk 1 "Napa" 3 "tablets" None None 5 "Bea" t 7 t in
  let db := mk_db [napa] 1 [] 0 in
  let parsed := mk_parsed Add (Some "NAPA") (Some 10) "tablets" None None 1%Q
                  "+NAPA 10" in
  let config := Config.mk_settings [] 3 30 80 in
  let out := handle_add_medicine t t parsed config 7 5 (Some "Bea") db in
  match snd out with
  | Ok (ReplyAdded m) =>
      exists n q,
        medicine_name parsed = Some n /\ quantity parsed = Some q
        /\ find_by_exact_name n 7 (fst out) = Some m
        /\ Medicine.quantity m
           = match find_by_exact_name n 7 db with
             | Some e => Medicine.quantity e + q
             | None => q
             end
        /\ activity_log (fst out)
           = (activity_log db
              ++ [Activity.mk (activity_log_seq db + 1) (Medicine.id m) "added"
                    (Some q) 5 (username_of (Some "Bea")) t 7])%list
  | Ok _ => fst out = db
  | Raise e =>
      e = OverflowError
      /\ exists n q,
           medicine_name parsed = Some n /\ quantity parsed = Some q
           /\ let total := match find_by_exact_name n 7 db with
                           | Some e0 => Medicine.quantity e0 + q
                           | None => q
                           end in
              if int64 total
              then int64 q = false
                   /\ (exists m, find_by_exact_name n 7 (fst out) = Some m
                                 /\ Medicine.quantity m = total)
                   /\ activity_log (fst out) = activity_log db
              else fst out = db
  end.
Proof.
  intros t napa db parsed config.
  apply (handle_add_medicine_effect t t parsed config 7 5 (Some "Bea") db).
  - wf_concrete.
  - split; simpl; constructor.
Defined.

(** The two ways in which an addition ends with [OverflowError]: on a stock
    of 3 an addition of [2 ^ 63 - 3] leaves the store as it was, and on a
    stock of -5 an addition of [2 ^ 63] stores the sum and logs nothing. *)
Lemma handle_add_medicine_overflows :
  let t := mk_datetime 2026 1 23 9 0 0 0 in
  let napa := Medicine.mk 1 "Napa" 3 "tablets" None None 5 "Bea" t 7 t in
  let owed := Medicine.mk 1 "Napa" (-5) "tablets" None None 5 "Bea" t 7 t in
  let config := Config.mk_settings [] 3 30 80 in
  let intent q := mk_parsed Add (Some "Napa") (Some q) "tablets" None None 1%Q
                    "" in
  handle_add_medicine t t (intent (2 ^ 63 - 3)) config 7 5 (Some "Bea")
    (mk_db [napa] 1 [] 0)
  = (mk_db [napa] 1 [] 0, Raise OverflowError)
  /\ handle_add_medicine t t (intent (2 ^ 63)) config 7 5 (Some "Bea")
       (mk_db [owed] 1 [] 0)
     = (mk_db [Medicine.mk 1 "Napa" (2 ^ 63 - 5) "tablets" None None 5 "Bea" t
                 7 t] 1 [] 0,
        Raise OverflowError).
Proof.
  split; run_model.
Qed.

Lemma handle_search_medicine_spec
    (fuzz_ratio : string -> string -> Z)
    (row_order : list Medicine.t -> list Medicine.t)
    (now_log : datetime) (parsed : ParsedCommand)
    (config : Config.Settings) (g u : Z) (first_name : option string)
    (db : Db) :
  (forall rows x, In x (row_order rows) -> In x rows) ->
  ledger_ok db ->
  let out := handle_search_medicine fuzz_ratio row_order now_log parsed config
               g u first_name db in
  medicines (fst out) = medicines db
  /\ match snd out with
     | Ok (ReplyFound matches) =>
         exists n best rest,
           medicine_name parsed = Some n
           /\ matches = find_by_name_fuzzy fuzz_ratio row_order n g
                          (Config.fuzzy_match_threshold config) db
           /\ matches = best :: rest
           /\ activity_log (fst out)
              = (activity_log db
                 ++ [Activity.mk (activity_log_seq db + 1)
                       (Medicine.id (fst best)) "searched" None u
                       (username_of first_name) now_log g])%list
     | Ok _ => fst out = db
     | Raise _ => False
     end.
Proof.
  intros Hro Hok. unfold handle_search_medicine.
  destruct (medicine_name parsed) as [[|c s]|]; try (split; reflexivity).
  set (matches := find_by_name_fuzzy fuzz_ratio row_order (String c s) g
                    (Config.fuzzy_match_threshold config) db).
  destruct matches as [|best rest] eqn:Em; [split; reflexivity|].
  assert (Hbest : In best matches) by (rewrite Em; left; reflexivity).
  destruct (fuzzy_match_stored _ _ _ _ _ _ _ Hro Hbest) as [Hin _].
  rewrite (log_activity_stored now_log (Medicine.id (fst best)) "searched" u
             (username_of first_name) g None db (entries_issued db Hok)
             eq_refl (in_map Medicine.id _ _ Hin)).
  cbn [int64_opt negb].
  cbn [fst snd]. split; [reflexivity|].
  exists (String c s), best, rest. split_all; try reflexivity.
  symmetry. exact Em.
Qed.

(** X24. A search never touches the medicines. When the search handler
    reports matches, the ledger has one more entry, a search of the best
    match; otherwise the store is what it was. No exception leaves the
    handler. *)
Theorem handle_search_medicine_effect
    (fuzz_ratio : string -> string -> Z)
    (row_order : list Medicine.t -> list Medicine.t)
    (now_log : datetime) (parsed : ParsedCommand)
    (config : Config.Settings) (g u : Z) (first_name : option string)
    (db : Db) :
  (forall rows x, In x (row_order rows) -> In x rows) ->
  ledger_ok db ->
  let out := handle_search_medicine fuzz_ratio row_order now_log parsed config
               g u first_name db in
  medicines (fst out) = medicines db
  /\ match snd out with
     | Ok (ReplyFound matches) =>
         exists n best rest,
           medicine_name parsed = Some n
           /\ matches = find_by_name_fuzzy fuzz_ratio row_order n g
                          (Config.fuzzy_match_threshold config) db
           /\ matches = best :: rest
           /\ activity_log (fst out)
              = (activity_log db
                 ++ [Activity.mk (activity_log_seq db + 1)
                       (Medicine.id (fst best)) "searched" None u
                       (username_of first_name) now_log g])%list
     | Ok _ => fst out = db
     | Raise _ => False
     end.
Proof.
  exact (handle_search_medicine_spec fuzz_ratio row_order now_log parsed
           config g u first_name db).
Qed.

Lemma handle_search_medicine_effect_witness :
  let t := mk_datetime 2026 1 23 9 0 0 0 in
  let napa := Medicine.mk 1 "Napa" 3 "tablets" None None 5 "Bea" t 7 t in
  let db := mk_db [napa] 1 [] 0 in
  let parsed := mk_parsed Search (Some "Napa") None "tablets" None None 1%Q
                  "?napa" in
  let config := Config.mk_settings [] 3 30 80 in
  let out := handle_search_medicine sample_ratio rowid_order t parsed config
               7 5 (Some "Bea") db in
  medicines (fst out) = medicines db
  /\ match snd out with
     | Ok (ReplyFound matches) =>
         exists n best rest,
           medicine_name parsed = Some n
           /\ matches = find_by_name_fuzzy sample_ratio rowid_order n 7
                          (Config.fuzzy_match_threshold config) db
           /\ matches = best :: rest
           /\ activity_log (fst out)
              = (activity_log db
                 ++ [Activity.mk (activity_log_seq db + 1)
                       (Medicine.id (fst best)) "searched" None 5
                       (username_of (Some "Bea")) t 7])%list
     | Ok _ => fst out = db
     | Raise _ => False
     end.
Proof.
  intros t napa db parsed config.
  apply (handle_search_medicine_effect sample_ratio rowid_order t parsed
           config 7 5 (Some "Bea") db).
  - intros rows x H. exact H.
  - split; simpl; constructor.
Defined.


(** ** Any message *)

Lemma reachable_ledger_ok (db : Db) : reachable db -> ledger_ok db.
Proof.
  induction 1 as [|now d db _ IH|now i delta g db _ IH|i g db _ IH
                  |now i action u un g ch db _ IH].
  - split; simpl; constructor.
  - destruct (add_medicine_ledger now d db) as (H1 & H2 & H3).
    exact (ledger_ok_same_ledger db _ H1 H2 H3 IH).
  - destruct (update_quantity_ledger now i delta g db) as (H1 & H2 & H3).
    apply (ledger_ok_same_ledger db _ H1 H2); [|exact IH].
    intros k Hk. rewrite H3. exact Hk.
  - apply ledger_ok_delete. exact IH.
  - apply ledger_ok_log. exact IH.
Qed.

Lemma log_activity_medicines (now : datetime) (i : Z) (action : string)
    (u : Z) (un : string) (g : Z) (ch : option Z) (db : Db) :
  medicines (fst (ActivityLogRepository.log_activity now i action u un g ch db))
  = medicines db.
Proof.
  unfold ActivityLogRepository.log_activity.
  destruct (negb _); [reflexivity|].
  destruct (_ && _); reflexivity.
Qed.

Lemma stock_nonneg_update (now : datetime) (i delta g : Z) (db : Db) :
  stock_nonneg db -> stock_nonneg (fst (update_quantity now i delta g db)).
Proof.
  unfold stock_nonneg. intros Hdb. unfold update_quantity.
  destruct (get_by_id i g db) as [row|]; [|exact Hdb].
  destruct (Medicine.quantity row + delta <? 0) eqn:E; [exact Hdb|].
  destruct (negb (int64 _)); [exact Hdb|].
  apply Z.ltb_ge in E. cbn [fst]. unfold update_by_id. simpl.
  rewrite Forall_map. revert Hdb. apply Forall_impl. intros m Hm.
  destruct (Medicine.id m =? i); [exact E | exact Hm].
Qed.

Lemma stock_nonneg_add (now : datetime) (d : MedicineData.t) (db : Db) :
  stock_nonneg db -> 0 <= MedicineData.quantity d ->
  stock_nonneg (fst (add_medicine now d db)).
Proof.
  unfold stock_nonneg. intros Hdb Hd. unfold add_medicine.
  destruct (find_by_exact_name _ _ db) as [e|] eqn:Efind.
  - destruct (negb (int64 _)); [exact Hdb|].
    destruct (find_by_exact_name_some _ _ _ _ Efind) as (He & _).
    rewrite Forall_forall in Hdb. pose proof (Hdb e He) as Hq.
    cbn [fst]. unfold update_by_id. simpl. rewrite Forall_map.
    apply Forall_forall. intros m Hm.
    destruct (Medicine.id m =? Medicine.id e); [simpl; lia | exact (Hdb m Hm)].
  - unfold insert_medicine. destruct (negb (int64 _)); [exact Hdb|].
    destruct (unique_ok _ _ _); simpl; [|exact Hdb].
    apply Forall_app. split; [exact Hdb|].
    constructor; [exact Hd | constructor].
Qed.

(** Every quantity of a store that the repositories can produce has passed
    the binding of an [INTEGER]. *)
Lemma reachable_stock_fits (db : Db) : reachable db -> stock_fits db.
Proof.
  unfold stock_fits.
  induction 1 as [|now d db _ IH|now i delta g db _ IH|i g db _ IH
                  |now i action u un g ch db _ IH].
  - constructor.
  - unfold add_medicine.
    destruct (find_by_exact_name _ _ db) as [e|].
    + destruct (int64 _) eqn:E; cbn [negb]; [|exact IH].
      cbn [fst]. unfold update_by_id. simpl. rewrite Forall_map.
      revert IH. apply Forall_impl. intros m Hm.
      destruct (Medicine.id m =? Medicine.id e); [exact E | exact Hm].
    + unfold insert_medicine.
      destruct (int64 _) eqn:E; cbn [negb]; [|exact IH].
      destruct (unique_ok _ _ _); simpl; [|exact IH].
      apply Forall_app. split; [exact IH|].
      constructor; [exact E | constructor].
  - unfold update_quantity.
    destruct (get_by_id i g db) as [row|]; [|exact IH].
    destruct (_ <? 0); [exact IH|].
    destruct (int64 _) eqn:E; cbn [negb]; [|exact IH].
    cbn [fst]. unfold update_by_id. simpl. rewrite Forall_map.
    revert IH. apply Forall_impl. intros m Hm.
    destruct (Medicine.id m =? i); [exact E | exact Hm].
  - unfold delete_medicine.
    destruct (0 <? _)%nat; cbn [fst]; [|exact IH].
    simpl. apply Forall_forall. intros m Hm. apply filter_In in Hm.
    rewrite Forall_forall in IH. apply IH. tauto.
  - rewrite log_activity_medicines. exact IH.
Qed.

Lemma stock_nonneg_log (now : datetime) (i : Z) (action : string)
    (u : Z) (un : string) (g : Z) (ch : option Z) (db : Db) :
  stock_nonneg db ->
  stock_nonneg
    (fst (ActivityLogRepository.log_activity now i action u un g ch db)).
Proof.
  unfold stock_nonneg. rewrite log_activity_medicines. auto.
Qed.

Lemma handle_add_medicine_sound (now_add now_log : datetime)
    (parsed : ParsedCommand) (config : Config.Settings) (g u : Z)
    (first_name : option string) (db : Db) :
  (forall q, quantity parsed = Some q -> 0 <= q) ->
  reachable db -> stock_nonneg db ->
  reachable (fst (handle_add_medicine now_add now_log parsed config g u
                    first_name db))
  /\ stock_nonneg (fst (handle_add_medicine now_add now_log parsed config g u
                          first_name db)).
Proof.
  intros Hq Hr Hs. unfold handle_add_medicine.
  destruct (medicine_name parsed) as [[|c s]|]; try (split; assumption).
  destruct (quantity parsed) as [q|]; [|split; assumption].
  specialize (Hq q eq_refl).
  set (d := MedicineData.mk (String c s) q (unit parsed) (expiry_date parsed)
              (location parsed) u (username_of first_name) g).
  pose proof (reach_add now_add d db Hr) as Hr1.
  pose proof (stock_nonneg_add now_add d db Hs Hq) as Hs1.
  destruct (add_medicine now_add d db) as [db1 [m|e]]; cbn [fst] in *;
    [|split; assumption].
  pose proof (reach_log now_log (Medicine.id m) "added" u
                (username_of first_name) g (Some q) db1 Hr1) as Hr2.
  pose proof (stock_nonneg_log now_log (Medicine.id m) "added" u
                (username_of first_name) g (Some q) db1 Hs1) as Hs2.
  destruct (ActivityLogRepository.log_activity now_log (Medicine.id m) "added"
              u (username_of first_name) g (Some q) db1) as [db2 [a|e]];
    cbn [fst] in *; split; assumption.
Qed.

Lemma handle_use_medicine_sound (fuzz_ratio : string -> string -> Z)
    (row_order : list Medicine.t -> list Medicine.t)
    (now_update now_log : datetime)
    (parsed : ParsedCommand) (config : Config.Settings) (g u : Z)
    (first_name : option string) (db : Db) :
  reachable db -> stock_nonneg db ->
  reachable (fst (handle_use_medicine fuzz_ratio row_order now_update now_log
                    parsed config g u first_name db))
  /\ stock_nonneg (fst (handle_use_medicine fuzz_ratio row_order now_update
                          now_log parsed config g u first_name db)).
Proof.
  intros Hr Hs. unfold handle_use_medicine.
  destruct (medicine_name parsed) as [[|c s]|]; try (split; assumption).
  destruct (quantity parsed) as [[|p|p]|]; try (split; assumption);
    (destruct (resolve_use _) as [|m s0|listed]; try (split; assumption);
     match goal with
     | |- context [update_quantity ?n ?i ?d ?g ?db] =>
         pose proof (reach_update n i d g db Hr) as Hr1;
         pose proof (stock_nonneg_update n i d g db Hs) as Hs1;
         destruct (update_quantity n i d g db) as [db1 [m'|e]];
         cbn [fst] in *; [|split; assumption]
     end;
     match goal with
     | |- context [ActivityLogRepository.log_activity ?n ?i ?a ?u ?un ?g ?ch ?db] =>
         pose proof (reach_log n i a u un g ch db Hr1) as Hr2;
         pose proof (stock_nonneg_log n i a u un g ch db Hs1) as Hs2;
         destruct (ActivityLogRepository.log_activity n i a u un g ch db)
           as [db2 [x|e]];
         cbn [fst] in *; split; assumption
     end).
Qed.

Lemma handle_search_medicine_sound (fuzz_ratio : string -> string -> Z)
    (row_order : list Medicine.t -> list Medicine.t) (now_log : datetime)
    (parsed : ParsedCommand) (config : Config.Settings) (g u : Z)
    (first_name : option string) (db : Db) :
  reachable db -> stock_nonneg db ->
  reachable (fst (handle_search_medicine fuzz_ratio row_order now_log parsed
                    config g u first_name db))
  /\ stock_nonneg (fst (handle_search_medicine fuzz_ratio row_order now_log
                          parsed config g u first_name db)).
Proof.
  intros Hr Hs. unfold handle_search_medicine.
  destruct (medicine_name parsed) as [[|c s]|]; try (split; assumption).
  destruct (find_by_name_fuzzy _ _ _ _ _ _) as [|best rest];
    [split; assumption|].
  pose proof (reach_log now_log (Medicine.id (fst best)) "searched" u
                (username_of first_name) g None db Hr) as Hr1.
  pose proof (stock_nonneg_log now_log (Medicine.id (fst best)) "searched" u
                (username_of first_name) g None db Hs) as Hs1.
  destruct (ActivityLogRepository.log_activity now_log (Medicine.id (fst best))
              "searched" u (username_of first_name) g None db) as [db1 [a|e]];
    cbn [fst] in *; split; assumption.
Qed.

(** X25. Whatever a message of ASCII text says, handling it leaves a store
    that the repository operations can produce, so one that meets every
    constraint of the schema, and leaves no stock below zero if there was
    none before. When an exception leaves the router the store is what it
    was, and the exception is either one of the classifiers, or the
    [OverflowError] of an addition whose stock to store, the quantity of the
    intent on top of what the group had under the name, is [2 ^ 63] or
    more. *)
Theorem any_message_keeps_store_sound
    (fuzz_ratio : string -> string -> Z)
    (row_order : list Medicine.t -> list Medicine.t)
    (dp : string -> option datetime) (now_write now_log : datetime)
    (text : option string) (config : Config.Settings) (g u : Z)
    (first_name : option string) (db : Db) :
  (forall rows x, In x (row_order rows) -> In x rows) ->
  (forall t, text = Some t -> ascii_text t = true) ->
  reachable db -> stock_nonneg db ->
  let out := handle_message fuzz_ratio row_order dp now_write now_log text config
               g u first_name db in
  reachable (fst out) /\ stock_nonneg (fst out)
  /\ forall e, snd out = Raise e ->
               fst out = db
               /\ ((exists t, text = Some t /\ CommandParser.parse dp t = Raise e)
                   \/ (e = OverflowError
                       /\ exists t parsed n q,
                            text = Some t
                            /\ CommandParser.parse dp t = Ok parsed
                            /\ command_type parsed = Add
                            /\ medicine_name parsed = Some n
                            /\ quantity parsed = Some q
                            /\ 2 ^ 63 <= match find_by_exact_name n g db with
                                         | Some m => Medicine.quantity m + q
                                         | None => q
                                         end)).
Proof.
  intros Hro _ Hr Hs. unfold handle_message.
  pose proof (reachable_wf db Hr) as Hwf.
  pose proof (reachable_ledger_ok db Hr) as Hok.
  pose proof (reachable_stock_fits db Hr) as Hfits.
  destruct text as [[|c s]|]; try (split_all; [assumption..|discriminate]).
  destruct (CommandParser.parse dp (String c s)) as [parsed|e0] eqn:Ep.
  2:{ cbn [fst snd]. split_all; [assumption..|].
      intros e He. injection He as <-. split; [reflexivity|].
      left. exists (String c s). auto. }
  destruct (parse_fields_sound dp _ _ Ep) as [_ Hq].
  destruct (command_type parsed) eqn:Ekind.
  - pose proof (handle_add_medicine_sound now_write now_log parsed config g u
                  first_name db Hq Hr Hs) as [H1 H2].
    pose proof (handle_add_medicine_spec now_write now_log parsed config g u
                  first_name db Hwf Hok) as H3.
    cbv zeta in H3.
    destruct (handle_add_medicine now_write now_log parsed config g u
                first_name db) as [db' [r|e]]; cbn [fst snd] in *;
      split_all; try assumption; [discriminate|].
    intros e' He'. injection He' as <-.
    destruct H3 as (-> & n & q & Hn & Hqty & Hc).
    specialize (Hq q Hqty).
    assert (Hstock : 0 <= match find_by_exact_name n g db with
                          | Some m => Medicine.quantity m + q
                          | None => q
                          end
                     /\ q <= match find_by_exact_name n g db with
                             | Some m => Medicine.quantity m + q
                             | None => q
                             end).
    { destruct (find_by_exact_name n g db) as [m|] eqn:Ef; [|lia].
      destruct (find_by_exact_name_some _ _ _ _ Ef) as (Hin & _).
      unfold stock_nonneg in Hs. rewrite Forall_forall in Hs.
      specialize (Hs m Hin). simpl in Hs. lia. }
    destruct (int64 _) eqn:Efit in Hc.
    + destruct Hc as (Hbad & _). apply int64_spec in Efit.
      assert (Hgood : int64 q = true) by (apply int64_spec; lia).
      congruence.
    + split; [exact Hc|]. right. split; [reflexivity|].
      exists (String c s), parsed, n, q. split_all; auto.
      destruct (Z_lt_ge_dec
                  (match find_by_exact_name n g db with
                   | Some m => Medicine.quantity m + q
                   | None => q
                   end) (2 ^ 63)) as [Hlt|Hge]; [|lia].
      rewrite (proj2 (int64_spec _)) in Efit by lia. discriminate.
  - pose proof (handle_use_medicine_sound fuzz_ratio row_order now_write
                  now_log parsed config g u first_name db Hr Hs) as [H1 H2].
    pose proof (handle_use_medicine_spec fuzz_ratio row_order now_write
                  now_log parsed config g u first_name db Hro Hwf Hok) as H3.
    cbv zeta in H3.
    destruct (handle_use_medicine fuzz_ratio row_order now_write now_log
                parsed config g u first_name db) as [db' [r|e]];
      cbn [fst snd] in *;
      split_all; try assumption; [discriminate|].
    intros e' He'. exfalso.
    destruct H3 as (_ & q & m & Hqty & Hget & Hge & Hc).
    specialize (Hq q Hqty).
    assert (Hin : In m (medicines db)).
    { unfold get_by_id in Hget. apply find_some in Hget. tauto. }
    unfold stock_fits in Hfits. rewrite Forall_forall in Hfits.
    specialize (Hfits m Hin). simpl in Hfits. apply int64_spec in Hfits.
    assert (Hnew : int64 (Medicine.quantity m - q) = true)
      by (apply int64_spec; lia).
    rewrite Hnew in Hc. destruct Hc as (Hbad & _).
    assert (Hgood : int64 (- q) = true) by (apply int64_spec; lia).
    congruence.
  - pose proof (handle_search_medicine_sound fuzz_ratio row_order now_log
                  parsed config g u first_name db Hr Hs) as [H1 H2].
    pose proof (handle_search_medicine_spec fuzz_ratio row_order now_log
                  parsed config g u first_name db Hro Hok) as [_ H3].
    destruct (handle_search_medicine fuzz_ratio row_order now_log parsed
                config g u first_name db) as [db' [r|e]];
      cbn [fst snd] in *;
      split_all; try assumption; [discriminate | contradiction].
  - unfold handle_list_all. destruct (get_all g db); cbn [fst snd];
      split_all; try assumption; discriminate.
  - cbn [fst snd]. split_all; try assumption; discriminate.
Qed.

Lemma any_message_keeps_store_sound_witness :
  let t := mk_datetime 2026 1 23 9 0 0 0 in
  let napa := MedicineData.mk "Napa" 3 "tablets" None None 5 "Bea" 7 in
  let db := fst (add_medicine t napa empty_db) in
  let config := Config.mk_settings [] 3 30 80 in
  let out := handle_message sample_ratio rowid_order (fun _ => None) t t
               (Some "took 2 napa") config 7 5 (Some "Bea") db in
  reachable (fst out) /\ stock_nonneg (fst out)
  /\ forall e, snd out = Raise e ->
               fst out = db
               /\ ((exists t0, Some "took 2 napa" = Some t0
                               /\ CommandParser.parse (fun _ => None) t0
                                  = Raise e)
                   \/ (e = OverflowError
                       /\ exists t0 parsed n q,
                            Some "took 2 napa" = Some t0
                            /\ CommandParser.parse (fun _ => None) t0
                               = Ok parsed
                            /\ command_type parsed = Add
                            /\ medicine_name parsed = Some n
                            /\ quantity parsed = Some q
                            /\ 2 ^ 63 <= match find_by_exact_name n 7 db with
                                         | Some m => Medicine.quantity m + q
                                         | None => q
                                         end)).
Proof.
  intros t napa db config.
  apply (any_message_keeps_store_sound sample_ratio rowid_order (fun _ => None)
           t t (Some "took 2 napa") config 7 5 (Some "Bea") db).
  - intros rows x H. exact H.
  - intros t0 H. injection H as <-. reflexivity.
  - apply reach_add. apply reach_empty.
  - unfold stock_nonneg. simpl. repeat constructor. simpl. lia.
Defined.
